(** * NeetiManthan: the clause linker and the comment-processing coordinator

    A shallow embedding of
    - [app/tools/clause_linker/main.py] (class [ClauseLinker] and the route
      [/link]),
    - [app/services/coordinator.py] (class [CoordinatorAgent]), and
    - the routes of the three other tools the coordinator posts to
      ([app/tools/ingest/main.py], [app/tools/classify/main.py],
      [app/tools/summarize/main.py]),
    followed by the properties of the linking cascade, of the processing
    pipeline, of the tool services, and of the pipeline over these
    services.

    Conventions of the embedding.
    - Python [str] is a Rocq [string]; the character tests ([\s], [\d],
      [\b], [str.lower], [str.split]) are the ASCII ones.
    - Python [float] scores are rationals ([Q]).  A Jaccard score is the
      quotient of two set sizes and is only compared, so the rational
      decides every comparison as the float does (the two differ only for
      word sets of more than 10^15 words).  The value numpy computes for a
      cosine similarity is an input of the model.
    - Exceptions are explicit: a call that can raise returns an [option]
      or an [exc], and [process_comment] runs in a monad with early return
      and [raise].
    - The tool services answer with their declared response models or
      fail; storage and the task queue themselves do not fail.
    - The confidences the summarizer adds up from decimal constants are
      rationals; they are only stated to lie between bounds that the
      binary64 sums meet as well. *)

From Stdlib Require Import QArith Ascii String Sorted Permutation.
From Stdlib Require Import PrimFloat FloatOps SpecFloat.
From stdpp Require Import gmap strings list.

Local Open Scope string_scope.
Local Open Scope list_scope.

(** ** Python text primitives *)

Module Text.

Definition code (c : ascii) : nat := nat_of_ascii c.

Definition between (lo hi : nat) (c : ascii) : bool :=
  (lo <=? code c)%nat && (code c <=? hi)%nat.

(** [str.isspace] on the ASCII range: TAB..CR, FS..US and the blank. *)
Definition is_space (c : ascii) : bool :=
  between 9 13 c || between 28 32 c.

Definition is_digit (c : ascii) : bool := between 48 57 c.
Definition is_upper (c : ascii) : bool := between 65 90 c.
Definition is_lower (c : ascii) : bool := between 97 122 c.
Definition is_alpha (c : ascii) : bool := is_upper c || is_lower c.

(** [\w]: letters, digits and the underscore. *)
Definition is_word (c : ascii) : bool :=
  is_alpha c || is_digit c || (code c =? 95)%nat.

Definition lower_char (c : ascii) : ascii :=
  if is_upper c then ascii_of_nat (code c + 32) else c.

Definition chars (s : string) : list ascii := list_ascii_of_string s.
Definition str (l : list ascii) : string := string_of_list_ascii l.

(** [s.lower()] *)
Definition lower (s : string) : string := str (map lower_char (chars s)).

(** [s.strip()] *)
Fixpoint lstrip_chars (l : list ascii) : list ascii :=
  match l with
  | c :: l' => if is_space c then lstrip_chars l' else l
  | [] => []
  end.

Definition strip (s : string) : string :=
  str (rev (lstrip_chars (rev (lstrip_chars (chars s))))).

(** [s.split()]: maximal runs of non-blank characters. *)
Fixpoint split_chars (cur : list ascii) (l : list ascii) : list string :=
  match l with
  | [] => match cur with [] => [] | _ => [str (rev cur)] end
  | c :: l' =>
      if is_space c
      then match cur with
           | [] => split_chars [] l'
           | _ => str (rev cur) :: split_chars [] l'
           end
      else split_chars (c :: cur) l'
  end.

Definition split (s : string) : list string := split_chars [] (chars s).

(** [a in b] on strings *)
Fixpoint is_prefix (a b : list ascii) : bool :=
  match a, b with
  | [], _ => true
  | x :: a', y :: b' => Ascii.eqb x y && is_prefix a' b'
  | _ :: _, [] => false
  end.

Fixpoint occurs (a b : list ascii) : bool :=
  is_prefix a b || match b with [] => false | _ :: b' => occurs a b' end.

Definition contains (a b : string) : bool := occurs (chars a) (chars b).

(** [x in l] on lists of strings *)
Definition mem (x : string) (l : list string) : bool :=
  existsb (String.eqb x) l.

(** [t[:200] + "..." if len(t) > 200 else t] *)
Definition preview (t : string) : string :=
  if (200 <? String.length t)%nat
  then String.append (str (take 200 (chars t))) "..."
  else t.

End Text.

(** ** A backtracking matcher for the reference patterns

    The patterns of [ClauseLinker.__init__] use classes, sequence,
    alternation, greedy repetition, capture groups and [\b]; the matcher
    tries alternatives in order and repetitions longest first, as
    Python's [re] does. *)

Module Re.
Import Text.

Inductive regex : Type :=
| Cls (p : ascii -> bool)
| Eps
| Cat (r1 r2 : regex)
| Alt (r1 r2 : regex)
| Star (r : regex)
| Grp (i : nat) (r : regex)
| Bnd.

Definition caps : Type := list (nat * list ascii).

Definition group (i : nat) (cs : caps) : list ascii :=
  match find (fun p => (fst p =? i)%nat) cs with
  | Some p => snd p
  | None => []
  end.

Definition word_before (prev : option ascii) : bool :=
  match prev with Some c => is_word c | None => false end.

Definition word_at (s : list ascii) : bool :=
  match s with c :: _ => is_word c | [] => false end.

(** [rmatch r prev s cs k]: match [r] at the head of [s] ([prev] is the
    character before it), then continue with [k]; [None] backtracks. *)
Fixpoint rmatch {R : Type} (r : regex) (prev : option ascii) (s : list ascii)
    (cs : caps) (k : option ascii -> list ascii -> caps -> option R) : option R :=
  match r with
  | Cls p =>
      match s with
      | c :: s' => if p c then k (Some c) s' cs else None
      | [] => None
      end
  | Eps => k prev s cs
  | Cat r1 r2 =>
      rmatch r1 prev s cs (fun prev' s' cs' => rmatch r2 prev' s' cs' k)
  | Alt r1 r2 =>
      match rmatch r1 prev s cs k with
      | Some x => Some x
      | None => rmatch r2 prev s cs k
      end
  | Star r1 =>
      (fix loop (n : nat) (prev : option ascii) (s : list ascii) (cs : caps)
         : option R :=
         match n with
         | O => k prev s cs
         | S n' =>
             match rmatch r1 prev s cs
                     (fun prev' s' cs' =>
                        if (length s' <? length s)%nat
                        then loop n' prev' s' cs' else None) with
             | Some x => Some x
             | None => k prev s cs
             end
         end) (length s) prev s cs
  | Grp i r1 =>
      rmatch r1 prev s cs
        (fun prev' s' cs' =>
           k prev' s' ((i, take (length s - length s') s) :: cs'))
  | Bnd =>
      if xorb (word_before prev) (word_at s) then k prev s cs else None
  end.

(** One match attempt at a position: the rest of the text and the groups. *)
Definition match_at (r : regex) (prev : option ascii) (s : list ascii)
  : option (list ascii * caps) :=
  rmatch r prev s [] (fun _ s' cs => Some (s', cs)).

(** [re.finditer]: leftmost matches, scanning on after each one; group 0
    of a match is the text matched. *)
Fixpoint finditer_from (r : regex) (prev : option ascii) (s : list ascii)
    (skip : nat) : list caps :=
  match s with
  | [] => []
  | c :: s' =>
      match skip with
      | S n => finditer_from r (Some c) s' n
      | O =>
          match match_at r prev s with
          | Some (rest, cs) =>
              ((0%nat, take (length s - length rest) s) :: cs)
              :: finditer_from r (Some c) s' (length s - length rest - 1)
          | None => finditer_from r (Some c) s' 0
          end
      end
  end.

Definition finditer (r : regex) (text : string) : list caps :=
  finditer_from r None (chars text) 0.

(** [re.sub(r, repl, s)] *)
Fixpoint sub_from (r : regex) (repl : list ascii) (prev : option ascii)
    (s : list ascii) (skip : nat) : list ascii :=
  match s with
  | [] => []
  | c :: s' =>
      match skip with
      | S n => sub_from r repl (Some c) s' n
      | O =>
          match match_at r prev s with
          | Some (rest, _) =>
              repl ++ sub_from r repl (Some c) s' (length s - length rest - 1)
          | None => c :: sub_from r repl (Some c) s' 0
          end
      end
  end.

Definition sub (r : regex) (repl : string) (s : string) : string :=
  str (sub_from r (chars repl) None (chars s) 0).

(** Pattern combinators *)
Definition chr (c : ascii) : regex := Cls (Ascii.eqb c).
Definition chr_i (c : ascii) : regex :=
  Cls (fun x => Ascii.eqb (lower_char x) (lower_char c)).
Definition plus (r : regex) : regex := Cat r (Star r).
Definition seq (l : list regex) : regex := foldr Cat Eps l.
Definition alt (l : list regex) : regex :=
  match l with
  | [] => Eps
  | r :: l' => foldl Alt r l'
  end.
Definition word_i (w : string) : regex := seq (map chr_i (chars w)).

Definition digits : regex := plus (Cls is_digit).
Definition spaces : regex := plus (Cls is_space).
Definition paren (r : regex) : regex := seq [chr "("; r; chr ")"].

End Re.

(** ** Scores *)

Module Score.

Definition ltb (a b : Q) : bool := negb (Qle_bool b a).
Definition leb (a b : Q) : bool := Qle_bool a b.

(** [max(xs)] and [min(a, b)] of Python: the first extremal element wins. *)
Definition py_max (x : Q) (xs : list Q) : Q :=
  foldl (fun m y => if ltb m y then y else m) x xs.

Definition py_min (a b : Q) : Q := if ltb b a then b else a.

End Score.

(** ** Binary64 evaluation of a cosine similarity

    The quotient of [semantic_similarity_search], evaluated with the
    kernel's IEEE 754 binary64 operations, and the rational a finite float
    stands for.  The linker below takes the computed similarity as an
    input; these definitions show which rationals such an input can be. *)

Module Binary64.

Definition dot (u v : list float) : float :=
  foldl (fun acc p => (acc + fst p * snd p)%float) 0%float (zip u v).

Definition norm (u : list float) : float := PrimFloat.sqrt (dot u u).

Definition cosine (u v : list float) : float :=
  (dot u v / (norm u * norm v))%float.

Definition to_Q (x : float) : option Q :=
  match Prim2SF x with
  | S754_zero _ => Some 0%Q
  | S754_finite sign m e =>
      let n := if sign then Z.neg m else Z.pos m in
      Some (match e with
            | Z0 => n # 1
            | Z.pos k => (n * Z.pow_pos 2 k) # 1
            | Z.neg k => n # Pos.pow 2 k
            end)
  | S754_infinity _ => None
  | S754_nan => None
  end.

End Binary64.

(** ** Exceptions

    The outcome of a block that may raise: a value, or the text of the
    exception ([str(e)]). *)

Inductive exc (A : Type) : Type :=
| Ok (a : A)
| Raised (e : string).
Arguments Ok {A} a.
Arguments Raised {A} e.

(** ** The clause linker ([app/tools/clause_linker/main.py]) *)

Module Clause.
(** The dictionaries built by [get_draft_clauses]; [ref] and [text] are
    [NOT NULL] columns, [embedding] is a nullable array of floats. *)
Record t : Type := mk {
  ref : string;
  text : string;
  embedding : option (list Q)
}.
End Clause.

Module ClauseLinker.
Import Text Re Score.

Inductive MatchType : Type := exact | semantic | fuzzy.

Record ClauseCandidate : Type := {
  clause_ref : string;
  clause_text : string;
  similarity_score : Q;
  match_type : MatchType
}.

Record LinkResponse : Type := {
  clause_candidates : list string;
  detailed_matches : list ClauseCandidate;
  confidence : Q
}.

(** The attributes set by [__init__]; a pattern comes with its number of
    capture groups ([len(match.groups())]). *)
Record Linker : Type := {
  similarity_threshold : Q;
  max_candidates : nat;
  clause_patterns : list (regex * nat)
}.

Definition pattern_section : regex :=
  seq [alt [word_i "section"; word_i "rule"; word_i "chapter"; word_i "part"];
       spaces;
       Grp 1 (seq [digits; Star (paren digits);
                   Star (paren (plus (Cls is_alpha)))])].

Definition pattern_clause : regex :=
  seq [alt [word_i "clause"; word_i "para"; word_i "paragraph"];
       spaces;
       Grp 1 (seq [digits; Star (seq [chr "."; digits])])].

Definition pattern_dotted : regex :=
  seq [Bnd;
       Grp 1 (seq [digits; chr "."; digits; Star (seq [chr "."; digits])]);
       Bnd].

Definition pattern_sub_sub : regex :=
  seq [paren (Grp 1 digits); paren (Grp 2 (plus (Cls is_lower)))].

Definition pattern_sub : regex :=
  seq [Bnd; Grp 1 digits; paren (plus (Cls is_lower))].

(** [clause_linker = ClauseLinker()] *)
Definition clause_linker : Linker := {|
  similarity_threshold := 3 # 10;
  max_candidates := 5;
  clause_patterns :=
    [(pattern_section, 1%nat); (pattern_clause, 1%nat); (pattern_dotted, 1%nat);
     (pattern_sub_sub, 2%nat); (pattern_sub, 1%nat)]
|}.

Definition normalize_reference (ref : string) : string :=
  if String.eqb ref "" then ""
  else
    let ref := sub spaces " " (strip ref) in
    let ref := sub (seq [word_i "section"; spaces]) "Section " ref in
    let ref := sub (seq [word_i "rule"; spaces]) "Rule " ref in
    let ref := sub (seq [word_i "chapter"; spaces]) "Chapter " ref in
    let ref := sub (seq [word_i "part"; spaces]) "Part " ref in
    ref.

(** The mention read off one match. *)
Definition mention_of (ngroups : nat) (cs : caps) : string :=
  match ngroups with
  | 1%nat => str (group 1 cs)
  | 2%nat => String.append (str (group 1 cs))
               (String.append "(" (String.append (str (group 2 cs)) ")"))
  | _ => str (group 0 cs)
  end.

Definition add_mention (mentions : list string) (m : string) : list string :=
  let mention := normalize_reference m in
  if negb (String.eqb mention "") && negb (mem mention mentions)
  then mentions ++ [mention] else mentions.

Definition find_direct_mentions (self : Linker) (text : string) : list string :=
  foldl (fun mentions (p : regex * nat) =>
           foldl (fun mentions cs => add_mention mentions (mention_of (snd p) cs))
                 mentions (finditer (fst p) text))
        [] (clause_patterns self).

Definition mk_candidate (c : Clause.t) (score : Q) (ty : MatchType)
  : ClauseCandidate := {|
  clause_ref := Clause.ref c;
  clause_text := preview (Clause.text c);
  similarity_score := score;
  match_type := ty
|}.

(** [candidates.sort(key=lambda x: x.similarity_score, reverse=True)]:
    a stable sort, highest score first. *)
Fixpoint insert_desc (x : ClauseCandidate) (l : list ClauseCandidate)
  : list ClauseCandidate :=
  match l with
  | [] => [x]
  | y :: l' =>
      if ltb (similarity_score x) (similarity_score y)
      then y :: insert_desc x l'
      else x :: l
  end.

Definition sort_desc (l : list ClauseCandidate) : list ClauseCandidate :=
  foldr insert_desc [] l.

(** The tiers of the cascade, as they are entered. *)
Inductive Tier : Type := ExactTier | SemanticTier | FuzzyTier.

Definition empty_response : LinkResponse := {|
  clause_candidates := [];
  detailed_matches := [];
  confidence := 0
|}.

(** The [except Exception] clause of [link_comment_to_clauses]. *)
Definition on_exception (r : list Tier * exc LinkResponse)
  : LinkResponse * list Tier :=
  match r with
  | (ts, Ok response) => (response, ts)
  | (ts, Raised _) => (empty_response, ts)
  end.

Section Environment.

(** The module-level [embedding_model]: [None] when loading it failed;
    the function is [encode], [None] when it raises. *)
Variable embedding_model : option (string -> option (list Q)).

(** The value numpy computes for
    [np.dot(q, c) / (np.linalg.norm(q) * np.linalg.norm(c))], [None] when
    it raises (vectors of different lengths). *)
Variable cosine_similarity : list Q -> list Q -> option Q.

(** The [clauses] table: the rows of a draft, [None] when the query
    raises. *)
Variable database : string -> option (list Clause.t).

Definition get_draft_clauses (draft_id : string) : list Clause.t :=
  match database draft_id with
  | Some rows => rows
  | None => []
  end.

(** The loop of [semantic_similarity_search]; [None] when an iteration
    raises. *)
Fixpoint semantic_scan (self : Linker) (query_embedding : list Q)
    (clauses : list Clause.t) : option (list ClauseCandidate) :=
  match clauses with
  | [] => Some []
  | clause :: rest =>
      match Clause.embedding clause with
      | Some ((_ :: _) as clause_embedding) =>
          match cosine_similarity query_embedding clause_embedding with
          | Some similarity =>
              match semantic_scan self query_embedding rest with
              | Some candidates =>
                  Some (if ltb (similarity_threshold self) similarity
                        then mk_candidate clause similarity semantic :: candidates
                        else candidates)
              | None => None
              end
          | None => None
          end
      | _ => semantic_scan self query_embedding rest
      end
  end.

Definition semantic_similarity_search (self : Linker) (query_text : string)
    (clauses : list Clause.t) : list ClauseCandidate :=
  match embedding_model, clauses with
  | None, _ | _, [] => []
  | Some encode, _ =>
      match encode query_text with
      | Some query_embedding =>
          match semantic_scan self query_embedding clauses with
          | Some candidates => take (max_candidates self) (sort_desc candidates)
          | None => []
          end
      | None => []
      end
  end.

(** [set(s.lower().split())] *)
Definition words (s : string) : gset string := list_to_set (split (lower s)).

(** The Jaccard similarity of two word sets, when their union is not
    empty. *)
Definition jaccard (query_words clause_words : gset string) : option Q :=
  let intersection := size (query_words ∩ clause_words) in
  let union := size (query_words ∪ clause_words) in
  if (0 <? union)%nat
  then Some (Z.of_nat intersection # Pos.of_nat union)
  else None.

Definition fuzzy_candidate (query_words : gset string) (clause : Clause.t)
  : option ClauseCandidate :=
  match jaccard query_words (words (Clause.text clause)) with
  | Some jaccard_sim =>
      if ltb (1 # 10) jaccard_sim
      then Some (mk_candidate clause jaccard_sim fuzzy)
      else None
  | None => None
  end.

Definition fuzzy_text_matching (self : Linker) (query_text : string)
    (clauses : list Clause.t) : list ClauseCandidate :=
  take (max_candidates self)
       (sort_desc (omap (fuzzy_candidate (words query_text)) clauses)).

(** The state of the cascade in [link_comment_to_clauses]. *)
Record Cascade : Type := {
  all_candidates : list ClauseCandidate;
  final_clause_refs : list string;
  tiers : list Tier
}.

Definition add_ref (refs : list string) (r : string) : list string :=
  if mem r refs then refs else refs ++ [r].

Definition extend (st : Cascade) (found : list ClauseCandidate) (t : Tier)
  : Cascade := {|
  all_candidates := all_candidates st ++ found;
  final_clause_refs := foldl add_ref (final_clause_refs st) (map clause_ref found);
  tiers := tiers st ++ [t]
|}.

Definition exact_match (mention : string) (clause : Clause.t) : bool :=
  contains (lower mention) (lower (Clause.ref clause))
  || contains (lower (Clause.ref clause)) (lower mention).

Definition exact_candidates (direct_mentions : list string)
    (clauses : list Clause.t) : list ClauseCandidate :=
  flat_map (fun mention =>
              map (fun clause => mk_candidate clause 1 exact)
                  (List.filter (exact_match mention) clauses))
           direct_mentions.

(** [max(c.similarity_score for c in all_candidates)] *)
Definition max_score (l : list ClauseCandidate) : option Q :=
  match l with
  | [] => None
  | c :: l' => Some (py_max (similarity_score c) (map similarity_score l'))
  end.

(** Step 3 *)
Definition exact_step (direct_mentions : list string)
    (clauses : list Clause.t) (st : Cascade) : Cascade :=
  match direct_mentions with
  | [] => st
  | _ => extend st (exact_candidates direct_mentions clauses) ExactTier
  end.

(** Step 4 *)
Definition semantic_step (self : Linker) (text : string)
    (clauses : list Clause.t) (st : Cascade) : Cascade :=
  match all_candidates st with
  | [] => extend st (semantic_similarity_search self text clauses) SemanticTier
  | _ => st
  end.

(** The guard of step 5:
    [not all_candidates or max(...) < 0.5] *)
Definition weak (l : list ClauseCandidate) : bool :=
  match max_score l with
  | None => true
  | Some m => ltb m (1 # 2)
  end.

(** Step 5 *)
Definition fuzzy_step (self : Linker) (text : string)
    (clauses : list Clause.t) (st : Cascade) : Cascade :=
  if weak (all_candidates st)
  then extend st (fuzzy_text_matching self text clauses) FuzzyTier
  else st.

Definition overall_confidence (l : list ClauseCandidate) : Q :=
  match max_score l with
  | Some m => py_min m 1
  | None => 0
  end.

Definition start : Cascade :=
  {| all_candidates := []; final_clause_refs := []; tiers := [] |}.

Definition cascade (self : Linker) (text : string) (clauses : list Clause.t)
  : Cascade :=
  fuzzy_step self text clauses
    (semantic_step self text clauses
       (exact_step (find_direct_mentions self text) clauses start)).

(** The body of the [try] block: the tiers entered, and the response or
    the exception.  The two calls that can fail have handlers of their own
    ([get_draft_clauses], [semantic_similarity_search]), and the rows have
    a [ref] and a [text], so nothing in the body raises. *)
Definition link_body (self : Linker) (text draft_id : string)
  : list Tier * exc LinkResponse :=
  let clauses := get_draft_clauses draft_id in
  match clauses with
  | [] => ([], Ok empty_response)
  | _ =>
      let st := cascade self text clauses in
      (tiers st,
       Ok {| clause_candidates := take (max_candidates self) (final_clause_refs st);
             detailed_matches := take (max_candidates self) (all_candidates st);
             confidence := overall_confidence (all_candidates st) |})
  end.

(** [link_comment_to_clauses]: the response, with the tiers that ran. *)
Definition link_comment_to_clauses (self : Linker) (text draft_id : string)
  : LinkResponse * list Tier :=
  on_exception (link_body self text draft_id).

End Environment.

End ClauseLinker.

(** ** The coordinator ([app/services/coordinator.py])

    Storage is the set of tables the coordinator reads and writes, each a
    list of rows in table order; the generated keys and timestamps of the
    rows are left out.  A session works on its own view of the tables and
    makes it durable on [commit]: the repository's sessions are
    transactional ([sessionmaker(autocommit=False, ...)], and every writer
    calls [db.commit()] or [db.rollback()] itself). *)

Module CommentRaw.
Record t : Type := mk {
  id : string;
  draft_id : string;
  text_raw : string;
  lang : option string;
  pii_masked : option string
}.
End CommentRaw.

Module CommentProcessed.
Record t : Type := mk {
  comment_id : string;
  text_normalized : string;
  clause_guesses : list string;
  embedding : option (list Q)
}.
End CommentProcessed.

Module Prediction.
Record t : Type := mk {
  comment_id : string;
  sentiment_label : string;
  sentiment_score : Q;
  sentiment_intensity : Q;
  stance : string;
  aspects : list string;
  confidence : Q;
  model_version : string;
  ci_low : option Q;
  ci_high : option Q
}.
End Prediction.

Module Summary.
Record t : Type := mk {
  comment_id : string;
  summary_text : string;
  confidence : Q;
  model_version : string
}.
End Summary.

Module Audit.
Record t : Type := mk {
  entity : string;
  entity_id : string;
  change_type : string;
  change_data : list (string * Q);
  user_id : string
}.
End Audit.

(** The response models of the tools ([response_model=...] of each
    endpoint): a reply with status 200 carries every declared field, so the
    defaults of the coordinator's [.get(key, default)] are never used and a
    reply is never an empty dictionary. *)

Module IngestResponse.
Record t : Type := mk {
  pii_masked : string;
  language : option string;
  normalized_text : string;
  embedding : option (list Q);
  confidence : Q
}.
End IngestResponse.

Module ClassifyResponse.
Record t : Type := mk {
  sentiment_label : string;
  sentiment_score : Q;
  sentiment_intensity : Q;
  stance : string;
  aspects : list string;
  confidence : Q;
  model_version : string;
  ci_low : option Q;
  ci_high : option Q
}.
End ClassifyResponse.

Module SummarizeResponse.
Record t : Type := mk {
  summary : string;
  confidence : Q;
  model_version : string;
  word_count : nat;
  compression_ratio : Q
}.
End SummarizeResponse.

Module Coordinator.
Import Score.

Record Store : Type := {
  comments_raw : list CommentRaw.t;
  comments_processed : list CommentProcessed.t;
  predictions : list Prediction.t;
  summaries : list Summary.t;
  audits : list Audit.t
}.

(** What [client.post] gives: a response with status 200 and its JSON, a
    response with another status, or an exception (service unreachable,
    timeout). *)
Inductive reply (A : Type) : Type :=
| Status200 (json : A)
| StatusOther (status_code : nat)
| PostRaises (e : string).
Arguments Status200 {A} json.
Arguments StatusOther {A} status_code.
Arguments PostRaises {A} e.

(** The four tool services, as functions of the request. *)
Record Tools : Type := {
  ingest : string -> reply IngestResponse.t;
  clause_linker : string -> string -> reply ClauseLinker.LinkResponse;
  classify : string -> option string -> reply ClassifyResponse.t;
  summarize : string -> option string -> reply SummarizeResponse.t
}.

Inductive ToolCall : Type :=
| CallIngest (text : string)
| CallClauseLinker (text draft_id : string)
| CallClassify (text : string) (language : option string)
| CallSummarize (text : string) (clause_ref : option string).

(** The Celery tasks queued by [_trigger_post_processing]. *)
Inductive Job : Type :=
| deduplicate_comments (draft_id : string)
| extract_keywords (draft_id : string).

(** The dictionaries [process_comment] returns, by their ["status"]. *)
Inductive Outcome : Type :=
| already_processed (comment_id : string)
| success (comment_id : string) (confidence : Q) (sentiment stance : string)
    (clauses : list string)
| error (comment_id error_type details : string).

Record CoordinatorAgent : Type := {
  confidence_threshold : Q
}.

(** [settings.confidence_threshold] of [app/core/config.py] *)
Definition settings_confidence_threshold : Q := 7 # 10.

Definition coordinator : CoordinatorAgent :=
  {| confidence_threshold := settings_confidence_threshold |}.

(** *** The state a run works on *)

(** Modelled from the spec: the session factory [SessionLocal] of
    [app/core/database.py] is not among the sources.  The session is a
    transaction, as the commit rule of the specification has it (the row
    writes of a run become durable together at the commit that ends a
    successful run) and as the session factory of the clause linker is
    configured ([autocommit=False]): [session] is the view of the open
    transaction, [committed] is what storage holds.  [calls] and [jobs]
    record the tool calls made and the tasks queued. *)
Record World : Type := {
  committed : Store;
  session : Store;
  calls : list ToolCall;
  jobs : list Job
}.

(** How a statement of the [try] block ends: it goes on with a value, it
    returns from [process_comment], or it raises. *)
Inductive flow (A : Type) : Type :=
| Next (a : A)
| Return (o : Outcome)
| Raise (e : string).
Arguments Next {A} a.
Arguments Return {A} o.
Arguments Raise {A} e.

Definition M (A : Type) : Type := World -> flow A * World.

Definition ret {A : Type} (a : A) : M A := fun w => (Next a, w).

Definition bind {A B : Type} (m : M A) (k : A -> M B) : M B :=
  fun w =>
    match m w with
    | (Next a, w') => k a w'
    | (Return o, w') => (Return o, w')
    | (Raise e, w') => (Raise e, w')
    end.

Notation "'let*' x ':=' m 'in' k" := (bind m (fun x => k))
  (at level 10, x name, m at level 100, k at level 200).
Notation "m1 ';;' m2" := (bind m1 (fun _ => m2))
  (at level 100, m2 at level 200, right associativity).

Definition return_ {A : Type} (o : Outcome) : M A := fun w => (Return o, w).
Definition raise {A : Type} (e : string) : M A := fun w => (Raise e, w).

Definition get_session : M Store := fun w => (Next (session w), w).

Definition put_session (s : Store) : M unit :=
  fun w => (Next tt, {| committed := committed w; session := s;
                        calls := calls w; jobs := jobs w |}).

Definition log_call (c : ToolCall) : M unit :=
  fun w => (Next tt, {| committed := committed w; session := session w;
                        calls := calls w ++ [c]; jobs := jobs w |}).

Definition delay (j : Job) : M unit :=
  fun w => (Next tt, {| committed := committed w; session := session w;
                        calls := calls w; jobs := jobs w ++ [j] |}).

(** [db.flush()]: the pending rows go to the database inside the open
    transaction; nothing becomes durable. *)
Definition flush : M unit := ret tt.

(** [db.commit()] *)
Definition commit : M unit :=
  fun w => (Next tt, {| committed := session w; session := session w;
                        calls := calls w; jobs := jobs w |}).

(** [db.rollback()] *)
Definition rollback (w : World) : World :=
  {| committed := committed w; session := committed w;
     calls := calls w; jobs := jobs w |}.

(** *** Queries and writes of the session *)

(** [query.filter(...).first()] *)
Definition first {A : Type} (p : A -> bool) (rows : list A) : option A :=
  List.find p rows.

(** Assignment to the attributes of the row [first] returned. *)
Fixpoint update_first {A : Type} (p : A -> bool) (f : A -> A) (rows : list A)
  : list A :=
  match rows with
  | [] => []
  | r :: rows' => if p r then f r :: rows' else r :: update_first p f rows'
  end.

Definition is_comment (comment_id : string) (c : CommentRaw.t) : bool :=
  String.eqb (CommentRaw.id c) comment_id.
Definition processed_of (comment_id : string) (p : CommentProcessed.t) : bool :=
  String.eqb (CommentProcessed.comment_id p) comment_id.
Definition prediction_of (comment_id : string) (p : Prediction.t) : bool :=
  String.eqb (Prediction.comment_id p) comment_id.
Definition summary_of (comment_id : string) (s : Summary.t) : bool :=
  String.eqb (Summary.comment_id s) comment_id.

Definition set_comments_raw (f : list CommentRaw.t -> list CommentRaw.t)
    (s : Store) : Store :=
  {| comments_raw := f (comments_raw s);
     comments_processed := comments_processed s;
     predictions := predictions s; summaries := summaries s;
     audits := audits s |}.

Definition set_comments_processed
    (f : list CommentProcessed.t -> list CommentProcessed.t) (s : Store) : Store :=
  {| comments_raw := comments_raw s;
     comments_processed := f (comments_processed s);
     predictions := predictions s; summaries := summaries s;
     audits := audits s |}.

Definition set_predictions (f : list Prediction.t -> list Prediction.t)
    (s : Store) : Store :=
  {| comments_raw := comments_raw s;
     comments_processed := comments_processed s;
     predictions := f (predictions s); summaries := summaries s;
     audits := audits s |}.

Definition set_summaries (f : list Summary.t -> list Summary.t)
    (s : Store) : Store :=
  {| comments_raw := comments_raw s;
     comments_processed := comments_processed s;
     predictions := predictions s; summaries := f (summaries s);
     audits := audits s |}.

Definition set_audits (f : list Audit.t -> list Audit.t) (s : Store) : Store :=
  {| comments_raw := comments_raw s;
     comments_processed := comments_processed s;
     predictions := predictions s; summaries := summaries s;
     audits := f (audits s) |}.

Definition modify (f : Store -> Store) : M unit :=
  let* s := get_session in put_session (f s).

(** Create the row, or assign the new values to the one that exists. *)
Definition upsert {A : Type} (p : A -> bool) (assign : A -> A) (new : A)
    (rows : list A) : list A :=
  match first p rows with
  | Some _ => update_first p assign rows
  | None => rows ++ [new]
  end.

(** *** The tool clients *)

Definition received {A : Type} (r : reply A) : option A :=
  match r with
  | Status200 json => Some json
  | StatusOther _ => None
  | PostRaises _ => None
  end.

Definition _call_ingest_tool (tools : Tools) (text : string)
  : M (option IngestResponse.t) :=
  log_call (CallIngest text);; ret (received (ingest tools text)).

Definition _call_clause_linker (tools : Tools) (text draft_id : string)
  : M (option ClauseLinker.LinkResponse) :=
  log_call (CallClauseLinker text draft_id);;
  ret (received (clause_linker tools text draft_id)).

Definition _call_classify_tool (tools : Tools) (text : string)
    (language : option string) : M (option ClassifyResponse.t) :=
  log_call (CallClassify text language);;
  ret (received (classify tools text language)).

Definition _call_summarize_tool (tools : Tools) (text : string)
    (clause_ref : option string) : M (option SummarizeResponse.t) :=
  log_call (CallSummarize text clause_ref);;
  ret (received (summarize tools text clause_ref)).

Definition _trigger_post_processing (draft_id : string) : M unit :=
  delay (deduplicate_comments draft_id);; delay (extract_keywords draft_id).

Definition _audit_log (entity entity_id change_type : string)
    (data : list (string * Q)) : M unit :=
  modify (set_audits (fun rows =>
    rows ++ [Audit.mk entity entity_id change_type data "system"])).

Definition _create_error_result (comment_id error_type details : string)
  : Outcome := error comment_id error_type details.

(** *** [process_comment] *)

(** The body of the [try] block.  It ends by [return] or by [raise]. *)
Definition process_body (self : CoordinatorAgent) (tools : Tools)
    (comment_id : string) (force_reprocess : bool) : M Empty_set :=
  let* db := get_session in
  match first (is_comment comment_id) (comments_raw db) with
  | None => raise ("Comment " +:+ comment_id +:+ " not found")
  | Some comment =>
      (* Check if already processed and not forcing reprocess *)
      let existing_processed :=
        first (processed_of (CommentRaw.id comment)) (comments_processed db) in
      if bool_decide (is_Some existing_processed) && negb force_reprocess
      then return_ (already_processed comment_id)
      else
        (* Step 1: Ingest Tool *)
        let* ingest_result :=
          _call_ingest_tool tools (CommentRaw.text_raw comment) in
        match ingest_result with
        | None => return_ (_create_error_result comment_id "ingest_failed" "")
        | Some ingest_result =>
            (* Update comment with ingest results *)
            let pii_masked := IngestResponse.pii_masked ingest_result in
            let lang := IngestResponse.language ingest_result in
            modify (set_comments_raw
              (update_first (is_comment comment_id)
                 (fun c => CommentRaw.mk (CommentRaw.id c) (CommentRaw.draft_id c)
                             (CommentRaw.text_raw c) lang (Some pii_masked))));;
            (* Step 2: Clause Linking *)
            let* clause_result :=
              _call_clause_linker tools pii_masked (CommentRaw.draft_id comment) in
            let clause_guesses :=
              match clause_result with
              | Some r => ClauseLinker.clause_candidates r
              | None => []
              end in
            (* Create or update processed record *)
            let text_normalized := IngestResponse.normalized_text ingest_result in
            let processed :=
              match existing_processed with
              | Some p =>
                  CommentProcessed.mk (CommentProcessed.comment_id p)
                    text_normalized clause_guesses (CommentProcessed.embedding p)
              | None =>
                  CommentProcessed.mk (CommentRaw.id comment)
                    text_normalized clause_guesses
                    (IngestResponse.embedding ingest_result)
              end in
            modify (set_comments_processed
              (match existing_processed with
               | Some _ =>
                   update_first (processed_of (CommentRaw.id comment))
                     (fun _ => processed)
               | None => fun rows => rows ++ [processed]
               end));;
            flush;;
            (* Step 3: Classification *)
            let* classify_result :=
              _call_classify_tool tools
                (CommentProcessed.text_normalized processed) lang in
            match classify_result with
            | None =>
                return_ (_create_error_result comment_id "classify_failed" "")
            | Some classify_result =>
                let confidence := ClassifyResponse.confidence classify_result in
                (* Create or update prediction *)
                let prediction_data (cid : string) :=
                  Prediction.mk cid
                    (ClassifyResponse.sentiment_label classify_result)
                    (ClassifyResponse.sentiment_score classify_result)
                    (ClassifyResponse.sentiment_intensity classify_result)
                    (ClassifyResponse.stance classify_result)
                    (ClassifyResponse.aspects classify_result)
                    confidence
                    (ClassifyResponse.model_version classify_result)
                    (ClassifyResponse.ci_low classify_result)
                    (ClassifyResponse.ci_high classify_result) in
                modify (set_predictions
                  (upsert (prediction_of (CommentProcessed.comment_id processed))
                     (fun p => prediction_data (Prediction.comment_id p))
                     (prediction_data (CommentProcessed.comment_id processed))));;
                (* Step 4: Quality Check *)
                (if ltb confidence (confidence_threshold self)
                 then _audit_log "comment" comment_id "low_confidence"
                        [("confidence", confidence);
                         ("threshold", confidence_threshold self)]
                 else ret tt);;
                (* Step 5: Summarization (if confidence is OK or forced) *)
                (if leb (confidence_threshold self) confidence || force_reprocess
                 then
                   let* summary_result :=
                     _call_summarize_tool tools
                       (CommentProcessed.text_normalized processed)
                       (head clause_guesses) in
                   match summary_result with
                   | Some summary_result =>
                       (* Create or update summary *)
                       let summary_data (cid : string) :=
                         Summary.mk cid
                           (SummarizeResponse.summary summary_result)
                           (SummarizeResponse.confidence summary_result)
                           (SummarizeResponse.model_version summary_result) in
                       modify (set_summaries
                         (upsert (summary_of (CommentProcessed.comment_id processed))
                            (fun s => summary_data (Summary.comment_id s))
                            (summary_data (CommentProcessed.comment_id processed))))
                   | None => ret tt
                   end
                 else ret tt);;
                commit;;
                (* Step 6 & 7: Deduplication and Keywords (async) *)
                _trigger_post_processing (CommentRaw.draft_id comment);;
                return_ (success comment_id confidence
                           (ClassifyResponse.sentiment_label classify_result)
                           (ClassifyResponse.stance classify_result)
                           clause_guesses)
            end
        end
  end.

(** What a call of [process_comment] leaves behind. *)
Record Run : Type := {
  outcome : Outcome;
  storage : Store;
  tool_calls : list ToolCall;
  queued : list Job
}.

(** [process_comment]: a session is opened on the storage, the body runs,
    an exception rolls the session back and becomes the
    ["processing_failed"] result, and the session is closed on every path;
    what was not committed is lost with it. *)
Definition process_comment (self : CoordinatorAgent) (tools : Tools)
    (db : Store) (comment_id : string) (force_reprocess : bool) : Run :=
  let opened :=
    {| committed := db; session := db; calls := []; jobs := [] |} in
  let '(result, w) :=
    match process_body self tools comment_id force_reprocess opened with
    | (Return o, w) => (o, w)
    | (Raise e, w) =>
        (_create_error_result comment_id "processing_failed" e, rollback w)
    | (Next e, _) => match e with end
    end in
  {| outcome := result; storage := committed w;
     tool_calls := calls w; queued := jobs w |}.

End Coordinator.

(** ** The tool services

    The routes of the four tools the coordinator posts to.  Every route has
    the same frame: the body runs in a [try] whose handler
    [except Exception as e: raise HTTPException(status_code=500, ...)]
    catches the [HTTPException]s the body raises itself as well, since
    [HTTPException] is an [Exception].  The machine-learning models are
    inputs of the embedding, as the embedding model of the clause linker
    is; the texts of the error details are left out. *)

Module Route.
Import Coordinator.

(** How the body of a route ends: with its response, with an
    [HTTPException] of its own, or with another exception. *)
Inductive ending (A : Type) : Type :=
| Responds (json : A)
| RaisesHTTP (status_code : nat)
| Raises.
Arguments Responds {A} json.
Arguments RaisesHTTP {A} status_code.
Arguments Raises {A}.

(** The [try ... except Exception] frame, as the client sees its answer. *)
Definition route {A : Type} (body : ending A) : reply A :=
  match body with
  | Responds json => Status200 json
  | RaisesHTTP _ => StatusOther 500
  | Raises => StatusOther 500
  end.

(** [d.get(key)] on a dictionary given as its items. *)
Definition dict_get {K A : Type} (eqb : K -> K -> bool) (key : K)
    (d : list (K * A)) : option A :=
  match List.find (fun item => eqb (fst item) key) d with
  | Some item => Some (snd item)
  | None => None
  end.

(** [sum(1 for word in keywords if word in text)] *)
Definition count_present (keywords : list string) (text : string) : nat :=
  length (List.filter (fun word => Text.contains word text) keywords).

(** [t[:n]] *)
Definition prefix (n : nat) (t : string) : string :=
  Text.str (take n (Text.chars t)).

End Route.

(** *** [app/tools/clause_linker/main.py]: the route [/link] *)

Module LinkRoute.
Import Text ClauseLinker Coordinator Route.

Section Environment.

Variable embedding_model : option (string -> option (list Q)).
Variable cosine_similarity : list Q -> list Q -> option Q.
Variable database : string -> option (list Clause.t).

Definition link_comment (request_text request_draft_id : string)
  : reply LinkResponse :=
  route
    (let text := strip request_text in
     if String.eqb text "" then RaisesHTTP 400
     else if String.eqb request_draft_id "" then RaisesHTTP 400
     else
       Responds
         (fst (link_comment_to_clauses embedding_model cosine_similarity
                 database ClauseLinker.clause_linker text request_draft_id))).

End Environment.

End LinkRoute.

(** *** [app/tools/ingest/main.py] *)

Module Ingest.
Import Text Re Score Coordinator Route.

(** [lang_model = None]: language detection is switched off in the
    source.  A loaded model would map a text to its best label and the
    probability of that label, or raise. *)
Definition lang_model : option (string -> option (string * Q)) := None.

Definition detect_language (text : string) : option string * Q :=
  match lang_model with
  | None => (None, 0%Q)
  | Some predict =>
      let clean_text :=
        sub (Cls (fun c => negb (is_word c || is_space c))) " "
            (prefix 1000 text) in
      let clean_text := strip (sub spaces " " clean_text) in
      if (String.length clean_text <? 10)%nat then (None, 0%Q)
      else
        match predict clean_text with
        | Some (label, confidence) =>
            (Some (sub (seq (map chr (chars "__label__"))) "" label), confidence)
        | None => (None, 0%Q)
        end
  end.

Section Environment.

(** [PIIMasker.mask_text] and [TextNormalizer.normalize]: a chain of
    [re.sub] calls, and a Unicode normalisation followed by one; both map
    a text to a text and do not raise. *)
Variable mask_text : string -> string.
Variable normalize : string -> string.

(** The module-level [embedding_model]: [None] when loading it failed;
    the function is [encode], [None] when it raises. *)
Variable embedding_model : option (string -> option (list Q)).

Definition create_embedding (text : string) : option (list Q) :=
  match embedding_model with
  | None => None
  | Some encode => encode text
  end.

(** The route [/process] *)
Definition process_text (request_text : string) : reply IngestResponse.t :=
  route
    (let text := request_text in
     if String.eqb text "" || (String.length (strip text) <? 1)%nat
     then RaisesHTTP 400
     else
       (* Step 1: PII Masking *)
       let pii_masked := mask_text text in
       (* Step 2: Language Detection *)
       let '(language, lang_confidence) := detect_language pii_masked in
       (* Step 3: Text Normalization *)
       let normalized := normalize pii_masked in
       (* Step 4: Create Embedding *)
       let embedding := create_embedding normalized in
       (* Calculate overall confidence *)
       let confidence :=
         match language with
         | Some l => if String.eqb l "" then 1 # 2 else lang_confidence
         | None => 1 # 2
         end in
       Responds (IngestResponse.mk pii_masked language normalized embedding
                   confidence)).

End Environment.

End Ingest.

(** *** [app/tools/classify/main.py] *)

Module Classify.
Import Text Score Coordinator Route.

Definition MODEL_VERSION : string := "1.0.0".

Definition SENTIMENT_LABELS : list (nat * string) :=
  [(0%nat, "negative"); (1%nat, "neutral"); (2%nat, "positive")].

Definition STANCE_LABELS : list (string * string) :=
  [("positive", "supports"); ("negative", "opposes"); ("neutral", "neutral")].

Definition ASPECT_KEYWORDS : list (string * list string) :=
  [("clarity", ["clear"; "unclear"; "confusing"; "ambiguous"; "vague"; "specific"]);
   ("timelines", ["time"; "deadline"; "schedule"; "delay"; "urgent"; "timeline"]);
   ("compliance_cost",
    ["cost"; "expensive"; "affordable"; "budget"; "financial"; "burden"]);
   ("scope", ["scope"; "coverage"; "include"; "exclude"; "broad"; "narrow"]);
   ("definitions",
    ["define"; "definition"; "meaning"; "unclear"; "specific"; "terminology"]);
   ("enforcement",
    ["enforce"; "penalty"; "violation"; "compliance"; "monitoring"]);
   ("it_data", ["digital"; "online"; "data"; "technology"; "system"; "portal"]);
   ("forms_process",
    ["form"; "procedure"; "process"; "paperwork"; "documentation"]);
   ("legal_consistency",
    ["law"; "legal"; "constitution"; "conflict"; "consistent"]);
   ("msme_impact",
    ["small"; "medium"; "startup"; "msme"; "business"; "impact"])].

(** What [SentimentClassifier.predict] returns. *)
Record Sentiment : Type := {
  sentiment_label : string;
  sentiment_score : Q;
  sentiment_intensity : Q;
  probabilities : list Q;
  confidence : Q
}.

(** [np.argmax]: the index of the first maximum; it raises on an empty
    array. *)
Fixpoint argmax_from (best : nat) (best_value : Q) (i : nat) (probs : list Q)
  : nat :=
  match probs with
  | [] => best
  | x :: probs' =>
      if ltb best_value x then argmax_from i x (S i) probs'
      else argmax_from best best_value (S i) probs'
  end.

Definition argmax (probs : list Q) : option nat :=
  match probs with
  | [] => None
  | x :: probs' => Some (argmax_from 0 x 1 probs')
  end.

(** [StanceClassifier.predict] *)
Definition support_keywords : list string :=
  ["support"; "agree"; "good"; "excellent"; "approve"; "endorse";
   "welcome"; "appreciate"; "favor"; "positive"; "beneficial"].

Definition oppose_keywords : list string :=
  ["oppose"; "disagree"; "bad"; "terrible"; "reject"; "against";
   "object"; "protest"; "negative"; "harmful"; "problematic"].

Definition stance_predict (sentiment_label : string) (text : string) : string :=
  (* Basic mapping from sentiment to stance *)
  let base_stance :=
    match dict_get String.eqb sentiment_label STANCE_LABELS with
    | Some stance => stance
    | None => "neutral"
    end in
  (* Look for explicit support/opposition keywords *)
  let text_lower := lower text in
  let support_count := count_present support_keywords text_lower in
  let oppose_count := count_present oppose_keywords text_lower in
  if (oppose_count <? support_count)%nat && (0 <? support_count)%nat
  then "supports"
  else if (support_count <? oppose_count)%nat && (0 <? oppose_count)%nat
  then "opposes"
  else base_stance.

(** [AspectExtractor.extract] *)
Definition extract (text : string) : list string :=
  let text_lower := lower text in
  foldl (fun detected_aspects (item : string * list string) =>
           let matches := count_present (snd item) text_lower in
           if (0 <? matches)%nat then detected_aspects ++ [fst item]
           else detected_aspects)
        [] ASPECT_KEYWORDS.

Section Environment.

(** The module-level [tokenizer] and [model]: [None] when loading them
    failed; the function gives the probabilities
    [F.softmax(logits / temperature)[0]] of a text, [None] when the
    tokenizer or the model raises. *)
Variable model : option (string -> option (list Q)).

(** The value computed for [1.0 - neutral_prob]. *)
Variable one_minus : Q -> Q.

(** The values computed for [confidence - margin] and
    [confidence + margin], with
    [margin = 1.96 * np.sqrt(confidence * (1 - confidence) / n_samples)]. *)
Variable around : Q -> Q * Q.

(** [SentimentClassifier.predict]; [None] when it raises. *)
Definition predict (text : string) : option Sentiment :=
  match model with
  | None => None
  | Some probabilities_of =>
      match probabilities_of text with
      | None => None
      | Some probs =>
          match argmax probs with
          | None => None
          | Some predicted_idx =>
              match dict_get Nat.eqb predicted_idx SENTIMENT_LABELS,
                    probs !! predicted_idx, probs !! 1%nat with
              | Some label, Some score, Some neutral_prob =>
                  Some {| sentiment_label := label;
                          sentiment_score := score;
                          sentiment_intensity := one_minus neutral_prob;
                          probabilities := probs;
                          confidence := score |}
              | _, _, _ => None
              end
          end
      end
  end.

Definition calculate_confidence_interval (confidence : Q) : Q * Q :=
  let '(low, high) := around confidence in
  let ci_low := py_max 0 [low] in
  let ci_high := py_min 1 high in
  (ci_low, ci_high).

(** The route [/classify] *)
Definition classify_text (request_text : string)
    (request_language : option string) : reply ClassifyResponse.t :=
  route
    (let text := strip request_text in
     if String.eqb text "" then RaisesHTTP 400
     else
       (* Truncate very long texts *)
       let text :=
         if (5000 <? String.length text)%nat then prefix 5000 text else text in
       (* Step 1: Sentiment Classification *)
       match predict text with
       | None => Raises
       | Some sentiment_result =>
           (* Step 2: Stance Classification *)
           let stance :=
             stance_predict (sentiment_label sentiment_result) text in
           (* Step 3: Aspect Extraction *)
           let aspects := extract text in
           (* Step 4: Calculate confidence intervals *)
           let confidence := confidence sentiment_result in
           let '(ci_low, ci_high) := calculate_confidence_interval confidence in
           Responds
             (ClassifyResponse.mk (sentiment_label sentiment_result)
                (sentiment_score sentiment_result)
                (sentiment_intensity sentiment_result)
                stance aspects confidence MODEL_VERSION
                (Some ci_low) (Some ci_high))
       end).

End Environment.

End Classify.

(** *** [app/tools/summarize/main.py] *)

Module Summarize.
Import Text Score Coordinator Route.

Definition MODEL_VERSION : string := "1.0.0".

(** [self.template_patterns]; a template is the function [format] applies
    to its [clause] and [content]. *)
Definition template_patterns : list (string * (string -> string -> string)) :=
  [("supports",
    fun clause content =>
      "The commenter supports " +:+ clause +:+ " stating that " +:+ content);
   ("opposes",
    fun clause content =>
      "The commenter opposes " +:+ clause +:+ " arguing that " +:+ content);
   ("neutral",
    fun clause content =>
      "The commenter notes regarding " +:+ clause +:+ " that " +:+ content);
   ("general",
    fun clause content => "The comment states that " +:+ content)].

Definition support_keywords : list string :=
  ["support"; "agree"; "good"; "excellent"; "approve"; "endorse";
   "welcome"; "appreciate"; "favor"; "positive"; "beneficial"; "helpful"].

Definition oppose_keywords : list string :=
  ["oppose"; "disagree"; "bad"; "terrible"; "reject"; "against";
   "object"; "protest"; "negative"; "harmful"; "problematic"; "wrong"].

Definition detect_stance_keywords (text : string) : string :=
  let text_lower := lower text in
  let support_count := count_present support_keywords text_lower in
  let oppose_count := count_present oppose_keywords text_lower in
  if (oppose_count <? support_count)%nat && (0 <? support_count)%nat
  then "supports"
  else if (support_count <? oppose_count)%nat && (0 <? oppose_count)%nat
  then "opposes"
  else "neutral".

(** [re.split(r'[.!?]+', text)] *)
Definition is_stop (c : ascii) : bool :=
  Ascii.eqb c "." || Ascii.eqb c "!" || Ascii.eqb c "?".

Fixpoint split_sentences (cur : list ascii) (in_stop : bool) (l : list ascii)
  : list string :=
  match l with
  | [] => [str (rev cur)]
  | c :: l' =>
      if is_stop c
      then if in_stop then split_sentences [] true l'
           else str (rev cur) :: split_sentences [] true l'
      else split_sentences (c :: cur) false l'
  end.

Definition policy_keywords : list string :=
  ["should"; "must"; "recommend"; "suggest"; "propose"; "important";
   "necessary"; "required"; "mandatory"; "optional"; "clarify";
   "modify"; "change"; "improve"; "concern"; "issue"; "problem"].

Definition sentence_score (sentence : string) : Q :=
  let sentence_lower := lower sentence in
  (* Boost sentences with policy-relevant keywords *)
  let score := inject_Z (Z.of_nat (count_present policy_keywords sentence_lower)) in
  (* Boost sentences with numbers *)
  let score :=
    if existsb is_digit (chars sentence) then (score + (1 # 2))%Q else score in
  (* Penalize very short or very long sentences *)
  if (String.length sentence <? 20)%nat then (score - (1 # 2))%Q
  else if (200 <? String.length sentence)%nat then (score - (3 # 10))%Q
  else score.

(** [scored_sentences.sort(key=lambda x: x[1], reverse=True)]: a stable
    sort, highest score first. *)
Fixpoint insert_scored (x : string * Q) (l : list (string * Q))
  : list (string * Q) :=
  match l with
  | [] => [x]
  | y :: l' =>
      if ltb (snd x) (snd y) then y :: insert_scored x l' else x :: l
  end.

Definition sort_scored (l : list (string * Q)) : list (string * Q) :=
  foldr insert_scored [] l.

(** [" ".join(l)] *)
Fixpoint join (l : list string) : string :=
  match l with
  | [] => ""
  | [x] => x
  | x :: l' => x +:+ " " +:+ join l'
  end.

Definition extract_key_points (text : string) : string :=
  let sentences := split_sentences [] false (chars text) in
  let scored_sentences :=
    omap (fun sentence =>
            let sentence := strip sentence in
            if (String.length sentence <? 10)%nat then None
            else Some (sentence, sentence_score sentence))
         sentences in
  let top_sentences := map fst (take 3 (sort_scored scored_sentences)) in
  join top_sentences.

(** [bool(clause_ref)] *)
Definition given (clause_ref : option string) : bool :=
  match clause_ref with
  | Some ref => negb (String.eqb ref "")
  | None => false
  end.

(** The body of the [try] of [generate_template_summary]; nothing in it
    raises. *)
Definition generate_template_summary (text : string)
    (clause_ref : option string) : string * Q :=
  let stance := detect_stance_keywords text in
  let key_content := extract_key_points text in
  let key_content :=
    if String.eqb key_content "" then preview text else key_content in
  (* Choose template *)
  let general :=
    match dict_get String.eqb "general" template_patterns with
    | Some template => template "" (lower key_content)
    | None => ""
    end in
  let summary :=
    match clause_ref, dict_get String.eqb stance template_patterns with
    | Some ref, Some template =>
        if given clause_ref then template ref (lower key_content) else general
    | _, _ => general
    end in
  (* Ensure summary is not too long *)
  let summary :=
    if (200 <? String.length summary)%nat
    then prefix 197 summary +:+ "..." else summary in
  (* Calculate confidence based on content quality *)
  let confidence := 7 # 10 in
  let confidence :=
    if (50 <? String.length key_content)%nat
    then (confidence + (1 # 10))%Q else confidence in
  let confidence :=
    if given clause_ref then (confidence + (1 # 10))%Q else confidence in
  let confidence := py_min confidence (95 # 100) in
  (summary, confidence).

Section Environment.

(** The module-level [summarizer]: [None] when loading the model failed;
    the function gives the [summary_text] the pipeline returns for
    [clean_text_for_summarization(text)] with the default lengths, [None]
    when it raises. *)
Variable summarizer : option (string -> option string).

Definition generate_model_summary (text : string) : string * Q :=
  match summarizer with
  | None => (fst (generate_template_summary text None), 1 # 2)
  | Some pipeline =>
      match pipeline text with
      | Some summary =>
          (* Calculate confidence based on summary quality *)
          let confidence := 8 # 10 in
          let confidence :=
            if (String.length summary <? 10)%nat then (confidence - (3 # 10))%Q
            else if (length (split summary) <? 5)%nat then (confidence - (2 # 10))%Q
            else confidence in
          let confidence :=
            if negb (existsb (Ascii.eqb ".") (chars summary))
               && (50 <? String.length summary)%nat
            then (confidence - (1 # 10))%Q else confidence in
          let confidence := py_max (1 # 10) [py_min confidence (95 # 100)] in
          (summary, confidence)
      | None =>
          (* Fallback to template *)
          generate_template_summary text None
      end
  end.

(** [CommentSummarizer.summarize]: summary, confidence, word count and
    compression ratio. *)
Definition summarize (text : string) (clause_ref : option string)
  : string * Q * nat * Q :=
  let original_word_count := length (split text) in
  let '(summary, confidence) :=
    if bool_decide (is_Some summarizer) && (100 <? String.length text)%nat
    then generate_model_summary text
    else generate_template_summary text clause_ref in
  let summary_word_count := length (split summary) in
  let compression_ratio :=
    if (0 <? original_word_count)%nat
    then Z.of_nat summary_word_count # Pos.of_nat original_word_count
    else 1%Q in
  (summary, confidence, summary_word_count, compression_ratio).

(** The route [/summarize] *)
Definition summarize_comment (request_text : string)
    (request_clause_ref : option string) : reply SummarizeResponse.t :=
  route
    (let text := strip request_text in
     if String.eqb text "" then RaisesHTTP 400
     else if (String.length text <? 10)%nat then RaisesHTTP 400
     else
       let '(summary, confidence, word_count, compression_ratio) :=
         summarize text request_clause_ref in
       Responds
         (SummarizeResponse.mk summary confidence MODEL_VERSION word_count
            compression_ratio)).

End Environment.

End Summarize.

(** *** The coordinator's tools, when they are these four services and
    every request is answered *)

Module Deployment.
Import Coordinator.

Record Environment : Type := {
  linker_embedding_model : option (string -> option (list Q));
  cosine_similarity : list Q -> list Q -> option Q;
  database : string -> option (list Clause.t);
  mask_text : string -> string;
  normalize : string -> string;
  ingest_embedding_model : option (string -> option (list Q));
  sentiment_model : option (string -> option (list Q));
  one_minus : Q -> Q;
  around : Q -> Q * Q;
  summarizer : option (string -> option string)
}.

Definition services (env : Environment) : Tools := {|
  ingest :=
    Ingest.process_text (mask_text env) (normalize env)
      (ingest_embedding_model env);
  clause_linker :=
    LinkRoute.link_comment (linker_embedding_model env) (cosine_similarity env)
      (database env);
  classify :=
    Classify.classify_text (sentiment_model env) (one_minus env) (around env);
  summarize := Summarize.summarize_comment (summarizer env)
|}.

End Deployment.


(** ** Concrete drafts, comments and tool behaviours *)

Module Scenario.
Import ClauseLinker Coordinator.

(** A draft with two clauses, without stored embeddings. *)
Definition filing_rules : list Clause.t :=
  [Clause.mk "Section 8(2)(b)" "Appeals shall be filed within thirty days" None;
   Clause.mk "Rule 8(2)" "Filing deadline shall be 30 days" None].

Definition filing_db (draft_id : string) : option (list Clause.t) :=
  if String.eqb draft_id "draft-1" then Some filing_rules else Some [].

(** A database whose queries fail. *)
Definition broken_db (draft_id : string) : option (list Clause.t) := None.

(** No embedding model could be loaded. *)
Definition no_model : option (string -> option (list Q)) := None.

(** An embedding model whose [encode] raises. *)
Definition failing_model : option (string -> option (list Q)) :=
  Some (fun _ => None).

Definition no_cosine (u v : list Q) : option Q := None.

(** A clause stored with the embedding [1.0, 1.0, 1.0], and a model that
    embeds every text as that same vector.  For these two vectors binary64
    arithmetic gives [np.dot = 3.0], both norms [1.7320508075688772], their
    product [2.9999999999999996] and the quotient [1.0000000000000002],
    which is 1 + 2^-52. *)
Definition ones : list Q := [1%Q; 1%Q; 1%Q].

Definition appeals_db (draft_id : string) : option (list Clause.t) :=
  Some [Clause.mk "Rule 4" "Appeals shall be filed within thirty days"
          (Some ones)].

Definition ones_model : option (string -> option (list Q)) :=
  Some (fun _ => Some ones).

Definition rounded_cosine (u v : list Q) : option Q :=
  Some (4503599627370497 # 4503599627370496).

(** A draft with six sub-clauses of section 8. *)
Definition section_8 : list Clause.t :=
  map (fun n => Clause.mk (String.append "Section 8(" (String.append n ")"))
                 "Text of the sub-section" None)
      ["1"; "2"; "3"; "4"; "5"; "6"].

(** Storage holding one comment on the draft, not processed yet. *)
Definition deadline_comment : CommentRaw.t :=
  CommentRaw.mk "c1" "draft-1" "The deadline in Rule 8(2) is too short" None None.

Definition one_comment : Store := {|
  comments_raw := [deadline_comment];
  comments_processed := [];
  predictions := [];
  summaries := [];
  audits := []
|}.

(** The same comment after a first successful run. *)
Definition processed_comment : Store := {|
  comments_raw :=
    [CommentRaw.mk "c1" "draft-1" "The deadline in Rule 8(2) is too short"
       (Some "en") (Some "The deadline in Rule 8(2) is too short")];
  comments_processed :=
    [CommentProcessed.mk "c1" "The deadline in Rule 8(2) is too short"
       ["Rule 8(2)"] None];
  predictions :=
    [Prediction.mk "c1" "negative" (-1 # 2) (1 # 2) "oppose" [] (82 # 100)
       "v1" None None];
  summaries := [];
  audits := []
|}.

Definition empty_store : Store := {|
  comments_raw := []; comments_processed := []; predictions := [];
  summaries := []; audits := []
|}.

Definition ingest_ok (text : string) : reply IngestResponse.t :=
  Status200 (IngestResponse.mk text (Some "en") text None 1).

Definition link_ok (text draft_id : string) : reply LinkResponse :=
  Status200 {| clause_candidates := ["Rule 8(2)"]; detailed_matches := [];
               confidence := 1 |}.

(** A classification with the given confidence. *)
Definition classify_with (confidence : Q) (text : string)
    (language : option string) : reply ClassifyResponse.t :=
  Status200 (ClassifyResponse.mk "negative" (-1 # 2) (1 # 2) "oppose" []
               confidence "v1" None None).

Definition summarize_ok (text : string) (clause_ref : option string)
  : reply SummarizeResponse.t :=
  Status200 (SummarizeResponse.mk "The commenter finds the deadline too short"
               (9 # 10) "v1" 7 (7 # 8)).

(** All four services answer; the classifier reports the given confidence. *)
Definition tools_up (confidence : Q) : Tools := {|
  ingest := ingest_ok;
  clause_linker := link_ok;
  classify := classify_with confidence;
  summarize := summarize_ok
|}.

(** The classification service answers with status 503. *)
Definition classify_down : Tools := {|
  ingest := ingest_ok;
  clause_linker := link_ok;
  classify := fun _ _ => StatusOther 503;
  summarize := summarize_ok
|}.

(** The clause linker cannot be reached. *)
Definition link_down (confidence : Q) : Tools := {|
  ingest := ingest_ok;
  clause_linker := fun _ _ => PostRaises "connection refused";
  classify := classify_with confidence;
  summarize := summarize_ok
|}.

(** The summarization service times out. *)
Definition summarize_down (confidence : Q) : Tools := {|
  ingest := ingest_ok;
  clause_linker := link_ok;
  classify := classify_with confidence;
  summarize := fun _ _ => PostRaises "timeout"
|}.

End Scenario.

(** An installation of the four services, two more stores and a failing
    ingest service. *)
Module Installation.
Import ClauseLinker Coordinator Deployment.

(** Neither embedding model nor the summarization model is loaded; the
    sentiment model finds every text negative with probability 0.7. *)
Definition plain : Environment := {|
  linker_embedding_model := None;
  cosine_similarity := fun _ _ => None;
  database := Scenario.filing_db;
  mask_text := fun text => text;
  normalize := Text.strip;
  ingest_embedding_model := None;
  sentiment_model := Some (fun _ => Some [7 # 10; 2 # 10; 1 # 10]);
  one_minus := fun p => (1 - p)%Q;
  around := fun c => ((c - (1 # 10))%Q, (c + (1 # 10))%Q);
  summarizer := None
|}.

(** Storage holding one comment whose text is blank. *)
Definition blank_comment : CommentRaw.t :=
  CommentRaw.mk "c2" "draft-1" "   " None None.

Definition one_blank_comment : Store := {|
  comments_raw := [blank_comment];
  comments_processed := [];
  predictions := [];
  summaries := [];
  audits := []
|}.

(** Storage holding two comments: [c1] is new, [c2] has been processed. *)
Definition two_comments : Store := {|
  comments_raw :=
    [Scenario.deadline_comment;
     CommentRaw.mk "c2" "draft-1" "Rule 8(2) is clear" (Some "en")
       (Some "Rule 8(2) is clear")];
  comments_processed :=
    [CommentProcessed.mk "c2" "Rule 8(2) is clear" ["Rule 8(2)"] None];
  predictions :=
    [Prediction.mk "c2" "positive" (1 # 2) (1 # 2) "support" [] (8 # 10)
       "v1" None None];
  summaries := [Summary.mk "c2" "The commenter finds the rule clear" (9 # 10) "v1"];
  audits := []
|}.

(** Storage holding a processed comment with a stored embedding. *)
Definition embedded_comment : Store := {|
  comments_raw :=
    [CommentRaw.mk "c1" "draft-1" "The deadline in Rule 8(2) is too short"
       (Some "en") (Some "The deadline in Rule 8(2) is too short")];
  comments_processed :=
    [CommentProcessed.mk "c1" "The deadline in Rule 8(2) is too short" []
       (Some [1%Q; 0%Q])];
  predictions := [];
  summaries := [];
  audits := []
|}.

(** The ingest service answers with status 503. *)
Definition ingest_down : Tools := {|
  ingest := fun _ => StatusOther 503;
  clause_linker := Scenario.link_ok;
  classify := Scenario.classify_with (9 # 10);
  summarize := Scenario.summarize_ok
|}.

End Installation.

(** * Properties of the clause linker *)

Module LinkerFacts.
Import Text Re Score ClauseLinker.

Local Open Scope Q_scope.

Lemma ltb_lt (a b : Q) : ltb a b = true <-> a < b.
Proof.
  unfold ltb. rewrite negb_true_iff, <- not_true_iff_false, Qle_bool_iff.
  split; [apply Qnot_le_lt | apply Qlt_not_le].
Qed.

Lemma ltb_ge (a b : Q) : ltb a b = false <-> b <= a.
Proof.
  unfold ltb. rewrite negb_false_iff. apply Qle_bool_iff.
Qed.

Lemma leb_le (a b : Q) : leb a b = true <-> a <= b.
Proof. apply Qle_bool_iff. Qed.

(** [max] returns an element of the list that bounds all of them. *)
Lemma py_max_in (x : Q) (xs : list Q) : In (py_max x xs) (x :: xs).
Proof.
  unfold py_max. revert x. induction xs as [|y ys IH]; intros x; simpl.
  - now left.
  - destruct (ltb x y).
    + destruct (IH y) as [E | H]; [right; left; exact E | right; right; exact H].
    + destruct (IH x) as [E | H]; [left; exact E | right; right; exact H].
Qed.

Lemma py_max_ge_first (x : Q) (xs : list Q) : x <= py_max x xs.
Proof.
  unfold py_max. revert x. induction xs as [|y ys IH]; intros x; simpl.
  - apply Qle_refl.
  - destruct (ltb x y) eqn:E.
    + apply ltb_lt in E. eapply Qle_trans; [apply Qlt_le_weak, E | apply IH].
    + apply IH.
Qed.

Lemma py_max_upper (x : Q) (xs : list Q) (y : Q) :
  In y (x :: xs) -> y <= py_max x xs.
Proof.
  revert x. induction xs as [|z zs IH]; intros x [E | H].
  - subst. apply Qle_refl.
  - destruct H.
  - subst. apply py_max_ge_first.
  - unfold py_max. simpl. fold (py_max (if ltb x z then z else x) zs).
    destruct (ltb x z) eqn:E.
    + apply IH. exact H.
    + destruct H as [-> | H].
      * apply ltb_ge in E. eapply Qle_trans; [exact E | apply py_max_ge_first].
      * apply IH. right. exact H.
Qed.

Lemma py_min_cases (a b : Q) :
  (a <= b /\ py_min a b = a) \/ (b < a /\ py_min a b = b).
Proof.
  unfold py_min. destruct (ltb b a) eqn:E.
  - right. split; [now apply ltb_lt | reflexivity].
  - left. split; [now apply ltb_ge | reflexivity].
Qed.

(** Highest score first. *)
Definition desc (a b : ClauseCandidate) : Prop :=
  similarity_score b <= similarity_score a.

Lemma insert_desc_perm (x : ClauseCandidate) (l : list ClauseCandidate) :
  Permutation (insert_desc x l) (x :: l).
Proof.
  induction l as [|y l IH]; simpl.
  - reflexivity.
  - destruct (ltb _ _).
    + rewrite IH. apply perm_swap.
    + reflexivity.
Qed.

Lemma sort_desc_perm (l : list ClauseCandidate) : Permutation (sort_desc l) l.
Proof.
  induction l as [|x l IH]; simpl.
  - reflexivity.
  - rewrite insert_desc_perm. now apply perm_skip.
Qed.

Lemma insert_desc_sorted (x : ClauseCandidate) (l : list ClauseCandidate) :
  StronglySorted desc l -> StronglySorted desc (insert_desc x l).
Proof.
  induction 1 as [|y l Hs IH Hy]; simpl.
  - constructor; constructor.
  - destruct (ltb (similarity_score x) (similarity_score y)) eqn:E.
    + constructor; [exact IH|].
      apply (Permutation_Forall (Permutation_sym (insert_desc_perm x l))).
      constructor; [|exact Hy].
      apply ltb_lt in E. unfold desc. now apply Qlt_le_weak.
    + apply ltb_ge in E. constructor.
      * constructor; assumption.
      * constructor; [exact E|].
        eapply List.Forall_impl; [|exact Hy].
        intros z Hz. unfold desc in *. eapply Qle_trans; eassumption.
Qed.

Lemma sort_desc_sorted (l : list ClauseCandidate) :
  StronglySorted desc (sort_desc l).
Proof.
  induction l as [|x l IH]; simpl.
  - constructor.
  - now apply insert_desc_sorted.
Qed.

Lemma sorted_take (n : nat) (l : list ClauseCandidate) :
  StronglySorted desc l -> StronglySorted desc (take n l).
Proof.
  intros H. revert n. induction H as [|x l Hs IH Hx]; intros [|n]; simpl;
    try constructor.
  - apply IH.
  - apply Forall_take. exact Hx.
Qed.

Lemma sorted_app_desc (l1 l2 : list ClauseCandidate) (a b : ClauseCandidate) :
  StronglySorted desc (l1 ++ l2) -> In a l1 -> In b l2 -> desc a b.
Proof.
  induction l1 as [|x l1 IH]; simpl; intros Hs Ha Hb.
  - destruct Ha.
  - inversion Hs as [|? ? Hs' Hx]; subst.
    destruct Ha as [-> | Ha].
    + rewrite List.Forall_forall in Hx. apply Hx. apply in_or_app. now right.
    + now apply IH.
Qed.

(** *** The steps of the cascade *)

Lemma in_exact_candidates (ms : list string) (cls : list Clause.t)
    (c : ClauseCandidate) :
  In c (exact_candidates ms cls) <->
  exists m cl, In m ms /\ In cl cls /\ exact_match m cl = true
               /\ c = mk_candidate cl 1 exact.
Proof.
  unfold exact_candidates. rewrite in_flat_map. split.
  - intros (m & Hm & Hc). apply in_map_iff in Hc as (cl & <- & Hcl).
    apply filter_In in Hcl as [Hcl Hmatch]. now exists m, cl.
  - intros (m & cl & Hm & Hcl & Hmatch & ->). exists m. split; [exact Hm|].
    apply in_map_iff. exists cl. split; [reflexivity|].
    apply filter_In. now split.
Qed.

Lemma exact_candidates_scores (ms : list string) (cls : list Clause.t) :
  Forall (fun c => similarity_score c = 1 /\ match_type c = exact)
         (exact_candidates ms cls).
Proof.
  apply List.Forall_forall. intros c Hc.
  apply in_exact_candidates in Hc as (m & cl & _ & _ & _ & ->). now split.
Qed.

Lemma py_max_all_one (xs : list Q) :
  Forall (fun x => x = 1) xs -> py_max 1 xs = 1.
Proof.
  unfold py_max. induction 1 as [|x xs -> _ IH]; simpl; [reflexivity | exact IH].
Qed.

Lemma max_score_all_one (l : list ClauseCandidate) :
  l <> [] -> Forall (fun c => similarity_score c = 1) l -> max_score l = Some 1.
Proof.
  destruct l as [|c l]; [congruence|]. intros _ H.
  inversion H as [|? ? Hc Hl]; subst. simpl. rewrite Hc. f_equal.
  apply py_max_all_one. clear - Hl.
  induction Hl; simpl; constructor; assumption.
Qed.

Lemma in_add_refs (refs : list string) (l : list string) (r : string) :
  In r (foldl add_ref refs l) <-> In r refs \/ In r l.
Proof.
  revert refs. induction l as [|x l IH]; intros refs; simpl.
  - tauto.
  - rewrite IH. unfold add_ref. destruct (mem x refs) eqn:E.
    + split; [tauto|]. intros [H | [<- | H]]; try tauto.
      left. unfold mem in E. apply existsb_exists in E as (y & Hy & Eq).
      apply String.eqb_eq in Eq. now subst.
    + rewrite in_app_iff. simpl. tauto.
Qed.

Lemma take_all {A : Type} (n : nat) (l : list A) :
  (length l <= n)%nat -> take n l = l.
Proof. apply firstn_all2. Qed.

Lemma in_take {A : Type} (n : nat) (l : list A) (x : A) :
  In x (take n l) -> In x l.
Proof.
  revert n. induction l as [|y l IH]; intros [|n]; simpl; try tauto.
  intros [E | H]; [now left | right; eapply IH; exact H].
Qed.

Lemma exact_candidates_nil (ms : list string) : exact_candidates ms [] = [].
Proof.
  unfold exact_candidates. induction ms as [|m ms IH]; simpl; [reflexivity|].
  exact IH.
Qed.

Lemma max_score_none (l : list ClauseCandidate) :
  max_score l = None <-> l = [].
Proof. destruct l; simpl; split; congruence. Qed.

Lemma max_score_spec (l : list ClauseCandidate) (m : Q) :
  max_score l = Some m ->
  exists c, In c l /\ similarity_score c = m
            /\ forall c', In c' l -> similarity_score c' <= m.
Proof.
  destruct l as [|c0 l]; simpl; [discriminate|]. intros [= <-].
  pose proof (py_max_in (similarity_score c0) (map similarity_score l)) as Hin.
  change (similarity_score c0 :: map similarity_score l)
    with (map similarity_score (c0 :: l)) in Hin.
  apply in_map_iff in Hin as (c & Hc & Hin). exists c.
  split; [exact Hin|]. split; [exact Hc|].
  intros c' Hc'. apply py_max_upper.
  change (In (similarity_score c') (map similarity_score (c0 :: l))).
  now apply in_map.
Qed.

(** The guard of step 5, in words. *)
Lemma weak_spec (l : list ClauseCandidate) :
  weak l = true <->
  l = [] \/ exists c, In c l
                 /\ (forall c', In c' l -> similarity_score c' <= similarity_score c)
                 /\ similarity_score c < 1 # 2.
Proof.
  unfold weak. destruct (max_score l) as [m|] eqn:E.
  - apply max_score_spec in E as (c & Hc & <- & Hmax). rewrite ltb_lt. split.
    + intros H. right. now exists c.
    + intros [-> | (c' & Hc' & Hmax' & Hlt)]; [destruct Hc|].
      eapply Qle_lt_trans; [apply Hmax', Hc | exact Hlt].
  - apply max_score_none in E. split; [now left | reflexivity].
Qed.

Lemma in_omap {A B : Type} (f : A -> option B) (l : list A) (y : B) :
  In y (omap f l) <-> exists x, In x l /\ f x = Some y.
Proof.
  rewrite <- list_elem_of_In, list_elem_of_omap.
  split; intros (x & H1 & H2); exists x; (split; [|exact H2]);
    now apply list_elem_of_In.
Qed.

Lemma fuzzy_candidate_spec (qw : gset string) (clause : Clause.t)
    (c : ClauseCandidate) :
  fuzzy_candidate qw clause = Some c <->
  exists j, jaccard qw (words (Clause.text clause)) = Some j
            /\ 1 # 10 < j /\ c = mk_candidate clause j fuzzy.
Proof.
  unfold fuzzy_candidate.
  destruct (jaccard qw (words (Clause.text clause))) as [j|].
  - destruct (ltb (1 # 10) j) eqn:E.
    + apply ltb_lt in E. split.
      * intros [= <-]. now exists j.
      * intros (j' & [= <-] & _ & ->). reflexivity.
    + apply ltb_ge in E. split; [discriminate|].
      intros (j' & [= <-] & H & _). exfalso. eapply Qlt_not_le; eassumption.
  - split; [discriminate|]. intros (j & H & _). discriminate.
Qed.

(** What the fuzzy tier keeps: candidates tagged [fuzzy] for clauses whose
    Jaccard similarity with the query exceeds 0.1, highest first, at most
    [max_candidates]; a clause above 0.1 is left out only when
    [max_candidates] candidates scoring at least as much are kept. *)
Lemma fuzzy_text_matching_spec (self : Linker) (query_text : string)
    (clauses : list Clause.t) :
  let fz := fuzzy_text_matching self query_text clauses in
  (length fz <= max_candidates self)%nat
  /\ StronglySorted desc fz
  /\ (forall c, In c fz ->
        match_type c = fuzzy
        /\ exists clause,
             In clause clauses
             /\ c = mk_candidate clause (similarity_score c) fuzzy
             /\ jaccard (words query_text) (words (Clause.text clause))
                = Some (similarity_score c)
             /\ 1 # 10 < similarity_score c)
  /\ (forall clause j,
        In clause clauses ->
        jaccard (words query_text) (words (Clause.text clause)) = Some j ->
        1 # 10 < j ->
        In (mk_candidate clause j fuzzy) fz
        \/ (length fz = max_candidates self
            /\ forall c, In c fz -> j <= similarity_score c)).
Proof.
  intros fz. subst fz. unfold fuzzy_text_matching.
  set (L := omap (fuzzy_candidate (words query_text)) clauses).
  set (n := max_candidates self).
  split; [rewrite length_take; lia|].
  split; [apply sorted_take, sort_desc_sorted|].
  split.
  - intros c Hc. apply in_take in Hc.
    apply (Permutation_in _ (sort_desc_perm L)) in Hc.
    apply in_omap in Hc as (clause & Hcl & Hf).
    apply fuzzy_candidate_spec in Hf as (j & Hj & Hlt & ->).
    split; [reflexivity|]. exists clause. simpl. now repeat split.
  - intros clause j Hcl Hj Hlt.
    assert (Hx : In (mk_candidate clause j fuzzy) (sort_desc L)).
    { apply (Permutation_in _ (Permutation_sym (sort_desc_perm L))).
      apply in_omap. exists clause. split; [exact Hcl|].
      apply fuzzy_candidate_spec. now exists j. }
    pose proof (sort_desc_sorted L) as Hs.
    rewrite <- (take_drop n (sort_desc L)) in Hx, Hs.
    apply in_app_or in Hx as [Hx | Hx]; [now left | right].
    split.
    + rewrite length_take. destruct (le_lt_dec (length (sort_desc L)) n) as [Hle | Hgt].
      * rewrite drop_ge in Hx by exact Hle. destruct Hx.
      * lia.
    + intros c Hc.
      exact (sorted_app_desc _ _ c _ Hs Hc Hx).
Qed.

Lemma clauses_nil_or_not (l : list Clause.t) : l = [] \/ l <> [].
Proof. destruct l; [now left | right; discriminate]. Qed.

Lemma semantic_search_nil
    (embedding_model : option (string -> option (list Q)))
    (cosine_similarity : list Q -> list Q -> option Q)
    (self : Linker) (query_text : string) :
  semantic_similarity_search embedding_model cosine_similarity
    self query_text [] = [].
Proof.
  unfold semantic_similarity_search. now destruct embedding_model.
Qed.

Section Cascade.

Variable embedding_model : option (string -> option (list Q)).
Variable cosine_similarity : list Q -> list Q -> option Q.
Variable database : string -> option (list Clause.t).

Abbreviation semantic_search :=
  (semantic_similarity_search embedding_model cosine_similarity).
Abbreviation run_cascade := (cascade embedding_model cosine_similarity).

(** A direct match settles the cascade in its first step. *)
Lemma cascade_direct_match (self : Linker) (text : string)
    (clauses : list Clause.t) :
  exact_candidates (find_direct_mentions self text) clauses <> [] ->
  run_cascade self text clauses =
  {| all_candidates := exact_candidates (find_direct_mentions self text) clauses;
     final_clause_refs :=
       foldl add_ref []
         (map clause_ref
            (exact_candidates (find_direct_mentions self text) clauses));
     tiers := [ExactTier] |}.
Proof.
  intros Hne. unfold cascade, exact_step.
  destruct (find_direct_mentions self text) as [|m ms] eqn:Em;
    [exfalso; apply Hne; reflexivity|].
  set (hits := exact_candidates (m :: ms) clauses) in *.
  unfold semantic_step, extend, start. simpl.
  destruct hits as [|h hits'] eqn:Eh; [congruence|]. rewrite <- Eh.
  unfold fuzzy_step, weak. simpl.
  rewrite (max_score_all_one hits).
  - reflexivity.
  - rewrite Eh. discriminate.
  - eapply List.Forall_impl; [|apply exact_candidates_scores].
    intros c [H _]. exact H.
Qed.

Lemma link_direct_match (self : Linker) (text draft_id : string) :
  let hits := exact_candidates (find_direct_mentions self text)
                (get_draft_clauses database draft_id) in
  hits <> [] ->
  link_comment_to_clauses embedding_model cosine_similarity database
    self text draft_id
  = ({| clause_candidates :=
          take (max_candidates self) (foldl add_ref [] (map clause_ref hits));
        detailed_matches := take (max_candidates self) hits;
        confidence := 1 |}, [ExactTier]).
Proof.
  intros hits Hne. subst hits. unfold link_comment_to_clauses, link_body.
  destruct (get_draft_clauses database draft_id) as [|cl cls] eqn:Ecl.
  - rewrite exact_candidates_nil in Hne. congruence.
  - rewrite (cascade_direct_match self text (cl :: cls) Hne). simpl.
    unfold overall_confidence.
    rewrite (max_score_all_one _ Hne); [reflexivity|].
    eapply List.Forall_impl; [|apply exact_candidates_scores].
    intros c [H _]. exact H.
Qed.

(** The candidates when step 5 is reached. *)
Definition before_fuzzy (self : Linker) (text : string)
    (clauses : list Clause.t) : Cascade :=
  semantic_step embedding_model cosine_similarity self text clauses
    (exact_step (find_direct_mentions self text) clauses start).

Lemma tiers_before_fuzzy (self : Linker) (text : string)
    (clauses : list Clause.t) :
  ~ In FuzzyTier (tiers (before_fuzzy self text clauses)).
Proof.
  unfold before_fuzzy, exact_step.
  destruct (find_direct_mentions self text) as [|m ms].
  - unfold semantic_step, extend, start. cbn. intros [E | []]. discriminate.
  - generalize (exact_candidates (m :: ms) clauses).
    intros [|h hs]; unfold semantic_step, extend, start; cbn.
    + intros [E | [E | []]]; discriminate.
    + intros [E | []]. discriminate.
Qed.

Lemma cascade_fuzzy (self : Linker) (text : string) (clauses : list Clause.t) :
  let early := before_fuzzy self text clauses in
  let fz := fuzzy_text_matching self text clauses in
  (weak (all_candidates early) = true ->
     all_candidates (run_cascade self text clauses) = all_candidates early ++ fz
     /\ tiers (run_cascade self text clauses) = tiers early ++ [FuzzyTier])
  /\ (weak (all_candidates early) = false ->
        run_cascade self text clauses = early).
Proof.
  intros early fz. unfold cascade. fold (before_fuzzy self text clauses).
  fold early. unfold fuzzy_step. split; intros ->; [split|]; reflexivity.
Qed.

Lemma before_fuzzy_no_clauses (self : Linker) (text : string) :
  all_candidates (before_fuzzy self text []) = [].
Proof.
  unfold before_fuzzy, exact_step, semantic_step.
  destruct (find_direct_mentions self text) as [|m ms]; simpl.
  - rewrite semantic_search_nil. reflexivity.
  - rewrite exact_candidates_nil. simpl. rewrite semantic_search_nil.
    reflexivity.
Qed.

Lemma link_response (self : Linker) (text draft_id : string) :
  get_draft_clauses database draft_id <> [] ->
  let st := run_cascade self text (get_draft_clauses database draft_id) in
  link_comment_to_clauses embedding_model cosine_similarity database
    self text draft_id
  = ({| clause_candidates := take (max_candidates self) (final_clause_refs st);
        detailed_matches := take (max_candidates self) (all_candidates st);
        confidence := overall_confidence (all_candidates st) |}, tiers st).
Proof.
  intros Hne st. subst st. unfold link_comment_to_clauses, link_body.
  destruct (get_draft_clauses database draft_id); [congruence | reflexivity].
Qed.

(** The confidence of a response is the confidence of its candidates. *)
Lemma link_confidence (self : Linker) (text draft_id : string) :
  confidence (fst (link_comment_to_clauses embedding_model cosine_similarity
                     database self text draft_id))
  = overall_confidence
      (all_candidates (run_cascade self text (get_draft_clauses database draft_id))).
Proof.
  destruct (get_draft_clauses database draft_id) as [|cl cls] eqn:E.
  - unfold link_comment_to_clauses, link_body. rewrite E. simpl.
    unfold cascade, fuzzy_step.
    fold (before_fuzzy self text []). unfold weak.
    rewrite before_fuzzy_no_clauses. cbn [max_score]. unfold extend.
    cbn [all_candidates]. rewrite before_fuzzy_no_clauses.
    unfold fuzzy_text_matching. cbn [omap sort_desc foldr list_omap].
    rewrite take_nil. reflexivity.
  - rewrite <- E. rewrite link_response by (rewrite E; discriminate).
    reflexivity.
Qed.

Lemma link_fuzzy_tier (self : Linker) (text draft_id : string) :
  let clauses := get_draft_clauses database draft_id in
  In FuzzyTier
     (snd (link_comment_to_clauses embedding_model cosine_similarity database
             self text draft_id))
  <-> clauses <> []
      /\ weak (all_candidates (before_fuzzy self text clauses)) = true.
Proof.
  intros clauses. subst clauses.
  destruct (get_draft_clauses database draft_id) as [|cl cls] eqn:E.
  - unfold link_comment_to_clauses, link_body. rewrite E. simpl.
    split; [intros [] | intros [H _]; congruence].
  - rewrite <- E. rewrite link_response by (rewrite E; discriminate). simpl.
    destruct (cascade_fuzzy self text (get_draft_clauses database draft_id))
      as [Hw Hs].
    destruct (weak (all_candidates
                (before_fuzzy self text (get_draft_clauses database draft_id))))
      eqn:W.
    + destruct (Hw eq_refl) as [_ ->]. split.
      * intros _. split; [rewrite E; discriminate | reflexivity].
      * intros _. apply in_or_app. right. now left.
    + rewrite (Hs eq_refl). split.
      * intros H. exfalso. eapply tiers_before_fuzzy, H.
      * intros [_ H]. discriminate.
Qed.

End Cascade.

(** C7. A draft without clauses: for every text the linker answers with the
    empty candidate list and confidence 0.0, as the ordinary result of the
    [try] block and not through its exception handler, and no matching
    tier is entered. *)
Theorem link_empty_clause_set
    (embedding_model : option (string -> option (list Q)))
    (cosine_similarity : list Q -> list Q -> option Q)
    (database : string -> option (list Clause.t))
    (self : Linker) (text draft_id : string) :
  get_draft_clauses database draft_id = [] ->
  link_body embedding_model cosine_similarity database self text draft_id
    = ([], Ok empty_response)
  /\ link_comment_to_clauses embedding_model cosine_similarity database
       self text draft_id
     = ({| clause_candidates := []; detailed_matches := []; confidence := 0 |},
        []).
Proof.
  intros H. unfold link_comment_to_clauses, link_body. rewrite H.
  split; reflexivity.
Qed.

(** C5. When a reference extracted from the text matches the ref of a
    clause of the draft (one contains the other, letter case ignored), the
    linker returns the matching clauses, each scored 1.0 and tagged
    [exact]: the detailed matches are the matches in order and the
    candidate refs are their refs without repetition, both cut at
    [max_candidates] = 5 as for every response, so that every matching
    clause is returned when there are at most five.  The confidence is
    1.0, and only the exact tier is entered: neither the semantic nor the
    fuzzy one runs. *)
Theorem link_direct_mention
    (embedding_model : option (string -> option (list Q)))
    (cosine_similarity : list Q -> list Q -> option Q)
    (database : string -> option (list Clause.t))
    (text draft_id : string) :
  let clauses := get_draft_clauses database draft_id in
  let mentions := find_direct_mentions clause_linker text in
  let hits := exact_candidates mentions clauses in
  let res := link_comment_to_clauses embedding_model cosine_similarity
               database clause_linker text draft_id in
  (exists mention clause,
      In mention mentions /\ In clause clauses
      /\ exact_match mention clause = true) ->
  snd res = [ExactTier]
  /\ ~ In SemanticTier (snd res) /\ ~ In FuzzyTier (snd res)
  /\ confidence (fst res) = 1
  /\ detailed_matches (fst res) = take 5 hits
  /\ detailed_matches (fst res) <> []
  /\ clause_candidates (fst res) = take 5 (foldl add_ref [] (map clause_ref hits))
  /\ clause_candidates (fst res) <> []
  /\ (forall c, In c (detailed_matches (fst res)) ->
        similarity_score c = 1 /\ match_type c = exact
        /\ exists mention clause,
             In mention mentions /\ In clause clauses
             /\ exact_match mention clause = true
             /\ c = mk_candidate clause 1 exact)
  /\ (forall r, In r (clause_candidates (fst res)) ->
        exists mention clause,
          In mention mentions /\ In clause clauses
          /\ exact_match mention clause = true /\ r = Clause.ref clause)
  /\ ((length hits <= 5)%nat ->
        forall mention clause,
          In mention mentions -> In clause clauses ->
          exact_match mention clause = true ->
          In (mk_candidate clause 1 exact) (detailed_matches (fst res)))
  /\ ((length (foldl add_ref [] (map clause_ref hits)) <= 5)%nat ->
        forall mention clause,
          In mention mentions -> In clause clauses ->
          exact_match mention clause = true ->
          In (Clause.ref clause) (clause_candidates (fst res))).
Proof.
  intros clauses mentions hits res (m0 & cl0 & Hm0 & Hcl0 & Hmatch0).
  assert (Hin0 : In (mk_candidate cl0 1 exact) hits)
    by (apply in_exact_candidates; now exists m0, cl0).
  assert (Hne : hits <> []) by (intros E; rewrite E in Hin0; destruct Hin0).
  assert (Hres : res = ({| clause_candidates :=
                             take 5 (foldl add_ref [] (map clause_ref hits));
                           detailed_matches := take 5 hits;
                           confidence := 1 |}, [ExactTier])).
  { exact (link_direct_match embedding_model cosine_similarity database
             clause_linker text draft_id Hne). }
  rewrite Hres. simpl.
  assert (Hdet : forall c, In c (take 5 hits) -> In c hits)
    by (intros c; apply in_take).
  assert (Hrefs : forall r, In r (foldl add_ref [] (map clause_ref hits)) <->
                            exists c, In c hits /\ clause_ref c = r).
  { intros r. rewrite in_add_refs, in_map_iff. simpl. split.
    - intros [[] | (c & E & H)]. now exists c.
    - intros (c & H & E). right. now exists c. }
  assert (Hgrow : forall l acc,
             (length acc <= length (foldl add_ref acc l))%nat).
  { induction l as [|x l IH]; intros acc; simpl; [lia|].
    etransitivity; [|apply IH]. unfold add_ref.
    destruct (mem x acc); [lia|]. rewrite length_app. lia. }
  split; [reflexivity|].
  split; [intros [E | []]; discriminate|].
  split; [intros [E | []]; discriminate|].
  split; [reflexivity|].
  split; [reflexivity|].
  split; [destruct hits; [congruence | discriminate]|].
  split; [reflexivity|].
  split.
  { destruct hits as [|h hs]; [congruence|]. simpl.
    specialize (Hgrow (map clause_ref hs) (add_ref [] (clause_ref h))).
    destruct (foldl add_ref (add_ref [] (clause_ref h)) (map clause_ref hs));
      [simpl in Hgrow; lia | discriminate]. }
  split.
  { intros c H. apply Hdet in H.
    apply in_exact_candidates in H as (m & cl & Hm & Hcl & Hx & ->).
    split; [reflexivity|]. split; [reflexivity|]. now exists m, cl. }
  split.
  { intros r H. apply in_take in H. apply Hrefs in H as (c & Hc & <-).
    apply in_exact_candidates in Hc as (m & cl & Hm & Hcl & Hx & ->).
    now exists m, cl. }
  split; intros Hlen mention clause Hm Hcl Hx.
  - rewrite take_all by assumption.
    apply in_exact_candidates. now exists mention, clause.
  - rewrite take_all by assumption.
    apply Hrefs. exists (mk_candidate clause 1 exact). split; [|reflexivity].
    apply in_exact_candidates. now exists mention, clause.
Qed.

(** C6, as the code has it.  The fuzzy tier runs exactly when the draft has
    clauses and the exact and semantic tiers produced no candidate or their
    best score is below 0.5; it keeps the clauses whose word-level Jaccard
    similarity with the comment exceeds 0.1, highest first, at most 5; and
    the confidence of the response is the maximum candidate score over the
    tiers that ran clamped to at most 1.0 ([min(max_score, 1.0)]): it
    equals that maximum whenever the maximum is at most 1.0, it is 1.0
    otherwise, and it is 0.0 when no tier produced a candidate. *)
Theorem fuzzy_tier_and_clamped_confidence
    (embedding_model : option (string -> option (list Q)))
    (cosine_similarity : list Q -> list Q -> option Q)
    (database : string -> option (list Clause.t))
    (text draft_id : string) :
  let clauses := get_draft_clauses database draft_id in
  let early :=
    all_candidates
      (before_fuzzy embedding_model cosine_similarity clause_linker text clauses) in
  let fz := fuzzy_text_matching clause_linker text clauses in
  let all :=
    all_candidates
      (cascade embedding_model cosine_similarity clause_linker text clauses) in
  let res := link_comment_to_clauses embedding_model cosine_similarity
               database clause_linker text draft_id in
  (* when the fuzzy tier runs *)
  (In FuzzyTier (snd res) <->
     clauses <> []
     /\ (early = []
         \/ exists c, In c early
              /\ (forall c', In c' early ->
                    similarity_score c' <= similarity_score c)
              /\ similarity_score c < 1 # 2))
  (* what it keeps *)
  /\ (length fz <= 5)%nat
  /\ StronglySorted desc fz
  /\ (forall c, In c fz ->
        match_type c = fuzzy
        /\ exists clause,
             In clause clauses
             /\ c = mk_candidate clause (similarity_score c) fuzzy
             /\ jaccard (words text) (words (Clause.text clause))
                = Some (similarity_score c)
             /\ 1 # 10 < similarity_score c)
  /\ (forall clause j,
        In clause clauses ->
        jaccard (words text) (words (Clause.text clause)) = Some j ->
        1 # 10 < j ->
        In (mk_candidate clause j fuzzy) fz
        \/ (length fz = 5%nat /\ forall c, In c fz -> j <= similarity_score c))
  (* the candidates of the tiers that ran *)
  /\ (In FuzzyTier (snd res) -> all = early ++ fz)
  /\ (~ In FuzzyTier (snd res) -> all = early)
  (* the confidence *)
  /\ (all = [] -> confidence (fst res) = 0)
  /\ (all <> [] ->
        exists c, In c all
          /\ (forall c', In c' all -> similarity_score c' <= similarity_score c)
          /\ (similarity_score c <= 1 -> confidence (fst res) = similarity_score c)
          /\ (1 < similarity_score c -> confidence (fst res) = 1)).
Proof.
  intros clauses early fz all res.
  pose proof (link_fuzzy_tier embedding_model cosine_similarity database
                clause_linker text draft_id) as Hrun.
  cbv zeta in Hrun. fold clauses in Hrun. fold res in Hrun. fold early in Hrun.
  rewrite weak_spec in Hrun.
  destruct (fuzzy_text_matching_spec clause_linker text clauses)
    as (Hlen & Hsorted & Hsound & Hcomplete).
  destruct (cascade_fuzzy embedding_model cosine_similarity clause_linker
              text clauses) as [Hweak Hstrong].
  fold early in Hweak, Hstrong. fold fz in Hweak. fold all in Hweak.
  assert (Hconf : confidence (fst res) = overall_confidence all)
    by apply link_confidence.
  split; [exact Hrun|].
  split; [exact Hlen|].
  split; [exact Hsorted|].
  split; [exact Hsound|].
  split; [exact Hcomplete|].
  split.
  { intros H. apply Hrun in H as [_ H]. apply weak_spec in H.
    now apply Hweak. }
  split.
  { intros H. destruct (weak early) eqn:W.
    - destruct (clauses_nil_or_not clauses) as [-> | Hne].
      + subst all early. unfold cascade, fuzzy_step.
        fold (before_fuzzy embedding_model cosine_similarity clause_linker text []).
        rewrite before_fuzzy_no_clauses. cbn [weak max_score]. unfold extend.
        cbn [all_candidates]. rewrite before_fuzzy_no_clauses.
        unfold fuzzy_text_matching. cbn [omap sort_desc foldr list_omap].
        rewrite take_nil. reflexivity.
      + exfalso. apply H, Hrun. split; [exact Hne|]. now apply weak_spec.
    - subst all. now rewrite (Hstrong eq_refl). }
  split.
  { intros E. rewrite Hconf, E. reflexivity. }
  intros Hne. rewrite Hconf. unfold overall_confidence.
  destruct (max_score all) as [m|] eqn:Em;
    [|apply max_score_none in Em; congruence].
  apply max_score_spec in Em as (c & Hc & <- & Hmax).
  exists c. split; [exact Hc|]. split; [exact Hmax|].
  destruct (py_min_cases (similarity_score c) 1) as [[Hle ->] | [Hlt ->]].
  - split; [reflexivity|]. intros H. exfalso. eapply Qlt_not_le; eassumption.
  - split; [|reflexivity]. intros H. exfalso. eapply Qlt_not_le; eassumption.
Qed.

(** The clamp is not vacuous: with the quotient numpy computes for two
    equal vectors, the only candidate scores above 1.0 and the confidence
    returned is 1.0, which is not the maximum candidate score. *)
Lemma confidence_is_not_the_maximum_score :
  let res := link_comment_to_clauses Scenario.ones_model Scenario.rounded_cosine
               Scenario.appeals_db clause_linker
               "Appeals shall be filed within thirty days" "draft-1" in
  let all := all_candidates
               (cascade Scenario.ones_model Scenario.rounded_cosine clause_linker
                  "Appeals shall be filed within thirty days"
                  (get_draft_clauses Scenario.appeals_db "draft-1")) in
  ~ (exists c, In c all
       /\ (forall c', In c' all -> similarity_score c' <= similarity_score c)
       /\ confidence (fst res) == similarity_score c).
Proof.
  intros res all (c & Hc & _ & Heq).
  assert (Hall : all = [mk_candidate
                          (Clause.mk "Rule 4"
                             "Appeals shall be filed within thirty days"
                             (Some Scenario.ones))
                          (4503599627370497 # 4503599627370496) semantic])
    by (vm_compute; reflexivity).
  assert (Hconf : confidence (fst res) = 1) by (vm_compute; reflexivity).
  rewrite Hall in Hc. destruct Hc as [<- | []].
  rewrite Hconf in Heq. simpl in Heq. vm_compute in Heq. discriminate.
Qed.

(** *** Failures inside the linker *)

(** The embedding of the comment cannot be used: no model was loaded,
    [encode] raises, or a similarity computation raises. *)
Definition embedding_fails
    (embedding_model : option (string -> option (list Q)))
    (cosine_similarity : list Q -> list Q -> option Q)
    (self : Linker) (text : string) (clauses : list Clause.t) : Prop :=
  match embedding_model with
  | None => True
  | Some encode =>
      match encode text with
      | None => True
      | Some query_embedding =>
          semantic_scan cosine_similarity self query_embedding clauses = None
      end
  end.

Lemma semantic_search_fails
    (embedding_model : option (string -> option (list Q)))
    (cosine_similarity : list Q -> list Q -> option Q)
    (self : Linker) (text : string) (clauses : list Clause.t) :
  embedding_fails embedding_model cosine_similarity self text clauses ->
  semantic_similarity_search embedding_model cosine_similarity self text clauses
  = [].
Proof.
  unfold embedding_fails, semantic_similarity_search.
  destruct embedding_model as [encode|]; [|reflexivity].
  destruct clauses as [|cl cls]; [reflexivity|].
  destruct (encode text) as [qe|]; [|reflexivity].
  now intros ->.
Qed.

Lemma cascade_semantic_ext
    (em em' : option (string -> option (list Q)))
    (cos : list Q -> list Q -> option Q)
    (self : Linker) (text : string) (clauses : list Clause.t) :
  semantic_similarity_search em cos self text clauses
  = semantic_similarity_search em' cos self text clauses ->
  cascade em cos self text clauses = cascade em' cos self text clauses.
Proof.
  intros H. unfold cascade, semantic_step. now rewrite H.
Qed.

Lemma link_body_ok
    (em : option (string -> option (list Q)))
    (cos : list Q -> list Q -> option Q)
    (db : string -> option (list Clause.t))
    (self : Linker) (text draft_id : string) :
  exists ts response, link_body em cos db self text draft_id = (ts, Ok response).
Proof.
  unfold link_body. destruct (get_draft_clauses db draft_id); eauto.
Qed.

(** C10, as the code has it.  The link operation always ends with a
    response: its body raises nothing, and an exception reaching the outer
    handler would become the empty response.  A failing clause query is
    caught in [get_draft_clauses] and gives the empty response, confidence
    0.0.  A failing embedding is caught in the semantic tier, which then
    contributes no candidate: the response is the one obtained without an
    embedding model, and when no direct mention matched it is the result of
    the fuzzy tier, which is entered. *)
Theorem linker_absorbs_failures
    (embedding_model : option (string -> option (list Q)))
    (cosine_similarity : list Q -> list Q -> option Q)
    (database : string -> option (list Clause.t))
    (self : Linker) (text draft_id : string) :
  let clauses := get_draft_clauses database draft_id in
  let fz := fuzzy_text_matching self text clauses in
  let res := link_comment_to_clauses embedding_model cosine_similarity
               database self text draft_id in
  link_body embedding_model cosine_similarity database self text draft_id
    = (snd res, Ok (fst res))
  /\ (forall ts e, on_exception (ts, Raised e) = (empty_response, ts))
  /\ (database draft_id = None -> res = (empty_response, []))
  /\ (embedding_fails embedding_model cosine_similarity self text clauses ->
        semantic_similarity_search embedding_model cosine_similarity
          self text clauses = []
        /\ res = link_comment_to_clauses None cosine_similarity database
                   self text draft_id
        /\ (clauses <> [] ->
            exact_candidates (find_direct_mentions self text) clauses = [] ->
            In FuzzyTier (snd res)
            /\ detailed_matches (fst res) = fz
            /\ confidence (fst res) = overall_confidence fz)).
Proof.
  intros clauses fz res.
  split.
  { subst res. unfold link_comment_to_clauses.
    destruct (link_body_ok embedding_model cosine_similarity database self
                text draft_id) as (ts & response & ->). reflexivity. }
  split; [reflexivity|].
  split.
  { intros Hdb. subst res. unfold link_comment_to_clauses, link_body,
      get_draft_clauses. rewrite Hdb. reflexivity. }
  intros Hfail.
  pose proof (semantic_search_fails _ _ _ _ _ Hfail) as Hsem.
  split; [exact Hsem|].
  split.
  { subst res. unfold link_comment_to_clauses, link_body. fold clauses.
    rewrite (cascade_semantic_ext embedding_model None cosine_similarity
               self text clauses); [reflexivity|].
    rewrite Hsem. reflexivity. }
  intros Hne Hexact.
  assert (Hearly : all_candidates
                     (before_fuzzy embedding_model cosine_similarity self text
                        clauses) = []).
  { unfold before_fuzzy, exact_step.
    destruct (find_direct_mentions self text) as [|m ms].
    - unfold semantic_step, extend, start. cbn. exact Hsem.
    - rewrite Hexact. unfold semantic_step, extend, start. cbn. exact Hsem. }
  destruct (cascade_fuzzy embedding_model cosine_similarity self text clauses)
    as [Hweak _].
  rewrite Hearly in Hweak. destruct (Hweak eq_refl) as [Hall Htiers].
  subst res. rewrite link_response by exact Hne. fold clauses. simpl.
  rewrite Htiers, Hall. simpl. fold fz.
  split; [apply in_or_app; right; now left|].
  split; [|reflexivity].
  apply take_all. apply (fuzzy_text_matching_spec self text clauses).
Qed.

(** An embedding failure does not give the empty response: the fuzzy tier
    still finds the clause that shares two words out of ten with the
    comment. *)
Lemma embedding_failure_is_not_the_empty_response :
  ~ (embedding_fails Scenario.failing_model Scenario.no_cosine clause_linker
       "The filing deadline is too short"
       (get_draft_clauses Scenario.filing_db "draft-1") ->
     fst (link_comment_to_clauses Scenario.failing_model Scenario.no_cosine
            Scenario.filing_db clause_linker
            "The filing deadline is too short" "draft-1")
     = {| clause_candidates := []; detailed_matches := []; confidence := 0 |}).
Proof.
  intros H. specialize (H I).
  apply (f_equal clause_candidates) in H. vm_compute in H. discriminate.
Qed.

(** *** The theorems at work *)

(** A draft without clauses ([filing_db] knows no clause of ["draft-2"]). *)
Lemma link_empty_clause_set_witness :
  link_comment_to_clauses Scenario.no_model Scenario.no_cosine
    Scenario.filing_db clause_linker "Section 8(2)(b) is unclear" "draft-2"
  = ({| clause_candidates := []; detailed_matches := []; confidence := 0 |}, []).
Proof.
  apply (link_empty_clause_set Scenario.no_model Scenario.no_cosine
           Scenario.filing_db clause_linker "Section 8(2)(b) is unclear"
           "draft-2").
  reflexivity.
Defined.

(** The comment of the end-to-end scenario: [8(2)] is extracted, it occurs
    in both refs of the draft, and the exact tier alone answers. *)
Lemma link_direct_mention_witness :
  let res := link_comment_to_clauses Scenario.no_model Scenario.no_cosine
               Scenario.filing_db clause_linker
               "The deadline in Rule 8(2) is too short" "draft-1" in
  snd res = [ExactTier] /\ confidence (fst res) = 1
  /\ clause_candidates (fst res) = ["Section 8(2)(b)"; "Rule 8(2)"].
Proof.
  destruct (link_direct_mention Scenario.no_model Scenario.no_cosine
              Scenario.filing_db "The deadline in Rule 8(2) is too short"
              "draft-1")
    as (Htiers & _ & _ & Hconf & _ & _ & Hrefs & _).
  - exists "8(2)", (Clause.mk "Rule 8(2)" "Filing deadline shall be 30 days" None).
    split; [vm_compute; now left|].
    split; [vm_compute; right; now left | reflexivity].
  - split; [exact Htiers|]. split; [exact Hconf|].
    rewrite Hrefs. reflexivity.
Defined.

(** With an [encode] that raises, the response is the one of the fuzzy
    tier; with a failing clause query it is empty. *)
Lemma linker_absorbs_failures_witness :
  fst (link_comment_to_clauses Scenario.failing_model Scenario.no_cosine
         Scenario.filing_db clause_linker "The filing deadline is too short"
         "draft-1")
  = fst (link_comment_to_clauses Scenario.no_model Scenario.no_cosine
           Scenario.filing_db clause_linker "The filing deadline is too short"
           "draft-1")
  /\ link_comment_to_clauses Scenario.failing_model Scenario.no_cosine
       Scenario.broken_db clause_linker "The filing deadline is too short"
       "draft-1"
     = (empty_response, []).
Proof.
  split.
  - destruct (linker_absorbs_failures Scenario.failing_model Scenario.no_cosine
                Scenario.filing_db clause_linker
                "The filing deadline is too short" "draft-1")
      as (_ & _ & _ & Hemb).
    destruct (Hemb I) as (_ & -> & _). reflexivity.
  - destruct (linker_absorbs_failures Scenario.failing_model Scenario.no_cosine
                Scenario.broken_db clause_linker
                "The filing deadline is too short" "draft-1")
      as (_ & _ & Hdb & _).
    apply Hdb. reflexivity.
Defined.

(** The similarity of the scenario is the binary64 quotient for the vector
    [1.0, 1.0, 1.0] taken twice, and it exceeds 1. *)
Example rounded_cosine_is_binary64 :
  Scenario.rounded_cosine Scenario.ones Scenario.ones
  = Binary64.to_Q (Binary64.cosine [1; 1; 1]%float [1; 1; 1]%float)
  /\ PrimFloat.ltb 1 (Binary64.cosine [1; 1; 1]%float [1; 1; 1]%float) = true.
Proof. vm_compute. split; reflexivity. Qed.

(** Six sub-clauses match the mention [8]; the first five are returned. *)
Example link_caps_direct_matches :
  map clause_ref
    (detailed_matches
       (fst (link_comment_to_clauses Scenario.no_model Scenario.no_cosine
               (fun _ => Some Scenario.section_8) clause_linker
               "Section 8 is too strict" "draft-1")))
  = ["Section 8(1)"; "Section 8(2)"; "Section 8(3)"; "Section 8(4)";
     "Section 8(5)"].
Proof. vm_compute. reflexivity. Qed.

(** The references the patterns extract, as Python's [re] gives them. *)
Example mentions_of_a_section_reference :
  find_direct_mentions clause_linker "I object to Section 8(2)(b) strongly"
  = ["8(2)(b)"; "2(b)"].
Proof. vm_compute. reflexivity. Qed.

Example mentions_of_mixed_references :
  find_direct_mentions clause_linker
    "see para 3.1.4 and clause 7, also 8.2.1 and 10(b) PART  12(A)(bc)"
  = ["12(A)(bc)"; "3.1.4"; "7"; "8.2.1"; "10"].
Proof. vm_compute. reflexivity. Qed.

End LinkerFacts.

(** * Properties of the coordinator *)

Module CoordinatorFacts.
Import Score Coordinator.
Import LinkerFacts.

Local Open Scope Q_scope.

Lemma first_Some {A : Type} (p : A -> bool) (rows : list A) (x : A) :
  first p rows = Some x -> In x rows /\ p x = true.
Proof. apply find_some. Qed.

Lemma first_None {A : Type} (p : A -> bool) (rows : list A) :
  first p rows = None <-> forall x, In x rows -> p x = false.
Proof.
  split.
  - intros H x Hx. exact (find_none p rows H x Hx).
  - induction rows as [|r rows IH]; simpl; intros H; [reflexivity|].
    rewrite (H r) by now left. apply IH. intros x Hx. apply H. now right.
Qed.

Lemma is_comment_eq (comment_id : string) (c : CommentRaw.t) :
  is_comment comment_id c = true <-> CommentRaw.id c = comment_id.
Proof. apply String.eqb_eq. Qed.

Lemma processed_of_eq (comment_id : string) (p : CommentProcessed.t) :
  processed_of comment_id p = true <-> CommentProcessed.comment_id p = comment_id.
Proof. apply String.eqb_eq. Qed.

Lemma update_first_found {A : Type} (p : A -> bool) (f : A -> A)
    (rows : list A) (x : A) :
  first p rows = Some x ->
  update_first p (fun _ => f x) rows = update_first p f rows.
Proof.
  induction rows as [|r rows IH]; simpl; [discriminate|].
  destruct (p r); [now intros [= ->] | intros H; now rewrite IH].
Qed.

(** A tool call fails when the service answers with another status than
    200 or [client.post] raises (no connection, timeout). *)
Lemma received_None {A : Type} (r : reply A) :
  received r = None <->
  (exists status_code, r = StatusOther status_code) \/ (exists e, r = PostRaises e).
Proof.
  destruct r as [json | status_code | e]; simpl; split;
    try discriminate; try (intros [[x H] | [x H]]; discriminate); eauto.
Qed.

(** No entry of a list of calls written out in full is the given call. *)
Ltac absent_call H :=
  simpl in H; repeat (destruct H as [H | H]; [discriminate|]); destruct H.

(** *** The ways a run ends *)

(** Unknown comment: the [ValueError] is caught by the handler. *)
Lemma run_not_found (self : CoordinatorAgent) (tools : Tools) (db : Store)
    (comment_id : string) (force_reprocess : bool) :
  first (is_comment comment_id) (comments_raw db) = None ->
  process_comment self tools db comment_id force_reprocess
  = {| outcome := error comment_id "processing_failed"
                    ("Comment " +:+ comment_id +:+ " not found");
       storage := db; tool_calls := []; queued := [] |}.
Proof.
  intros H. unfold process_comment, process_body, bind, get_session. simpl.
  rewrite H. reflexivity.
Qed.

Lemma run_already_processed (self : CoordinatorAgent) (tools : Tools)
    (db : Store) (comment_id : string) (comment : CommentRaw.t)
    (p : CommentProcessed.t) :
  first (is_comment comment_id) (comments_raw db) = Some comment ->
  first (processed_of (CommentRaw.id comment)) (comments_processed db) = Some p ->
  process_comment self tools db comment_id false
  = {| outcome := already_processed comment_id;
       storage := db; tool_calls := []; queued := [] |}.
Proof.
  intros Hc Hp. unfold process_comment, process_body, bind, get_session. simpl.
  rewrite Hc, Hp. reflexivity.
Qed.

(** The run goes past the idempotency check. *)
Definition proceeds (db : Store) (comment : CommentRaw.t)
    (force_reprocess : bool) : Prop :=
  first (processed_of (CommentRaw.id comment)) (comments_processed db) = None
  \/ force_reprocess = true.

Lemma proceeds_guard (db : Store) (comment : CommentRaw.t)
    (force_reprocess : bool) :
  proceeds db comment force_reprocess ->
  bool_decide
    (is_Some (first (processed_of (CommentRaw.id comment)) (comments_processed db)))
  && negb force_reprocess = false.
Proof.
  intros [-> | ->]; [reflexivity | apply andb_false_r].
Qed.

Lemma run_ingest_failed (self : CoordinatorAgent) (tools : Tools) (db : Store)
    (comment_id : string) (force_reprocess : bool) (comment : CommentRaw.t) :
  first (is_comment comment_id) (comments_raw db) = Some comment ->
  proceeds db comment force_reprocess ->
  received (ingest tools (CommentRaw.text_raw comment)) = None ->
  process_comment self tools db comment_id force_reprocess
  = {| outcome := error comment_id "ingest_failed" "";
       storage := db;
       tool_calls := [CallIngest (CommentRaw.text_raw comment)];
       queued := [] |}.
Proof.
  intros Hc Hp Hi. apply proceeds_guard in Hp.
  unfold process_comment, process_body, bind, get_session. simpl.
  rewrite Hc, Hp. unfold _call_ingest_tool, bind, log_call, ret. simpl.
  rewrite Hi. reflexivity.
Qed.

(** What the clause-link step leaves in [clause_guesses]. *)
Definition guesses (tools : Tools) (text draft_id : string) : list string :=
  match received (clause_linker tools text draft_id) with
  | Some r => ClauseLinker.clause_candidates r
  | None => []
  end.

Lemma run_classify_failed (self : CoordinatorAgent) (tools : Tools) (db : Store)
    (comment_id : string) (force_reprocess : bool) (comment : CommentRaw.t)
    (ir : IngestResponse.t) :
  first (is_comment comment_id) (comments_raw db) = Some comment ->
  proceeds db comment force_reprocess ->
  received (ingest tools (CommentRaw.text_raw comment)) = Some ir ->
  received (classify tools (IngestResponse.normalized_text ir)
              (IngestResponse.language ir)) = None ->
  process_comment self tools db comment_id force_reprocess
  = {| outcome := error comment_id "classify_failed" "";
       storage := db;
       tool_calls :=
         [CallIngest (CommentRaw.text_raw comment);
          CallClauseLinker (IngestResponse.pii_masked ir)
            (CommentRaw.draft_id comment);
          CallClassify (IngestResponse.normalized_text ir)
            (IngestResponse.language ir)];
       queued := [] |}.
Proof.
  intros Hc Hp Hi Hk. apply proceeds_guard in Hp.
  unfold process_comment, process_body, bind, get_session. simpl.
  rewrite Hc, Hp.
  unfold _call_ingest_tool, _call_clause_linker, _call_classify_tool,
    modify, flush, bind, log_call, ret, get_session, put_session. simpl.
  rewrite Hi. simpl.
  destruct (first (processed_of (CommentRaw.id comment)) (comments_processed db));
    simpl; rewrite Hk; reflexivity.
Qed.

(** The rows a classified run writes. *)
Definition prediction_row (cid : string) (cr : ClassifyResponse.t)
  : Prediction.t :=
  Prediction.mk cid
    (ClassifyResponse.sentiment_label cr) (ClassifyResponse.sentiment_score cr)
    (ClassifyResponse.sentiment_intensity cr) (ClassifyResponse.stance cr)
    (ClassifyResponse.aspects cr) (ClassifyResponse.confidence cr)
    (ClassifyResponse.model_version cr)
    (ClassifyResponse.ci_low cr) (ClassifyResponse.ci_high cr).

Definition summary_row (cid : string) (sr : SummarizeResponse.t) : Summary.t :=
  Summary.mk cid (SummarizeResponse.summary sr)
    (SummarizeResponse.confidence sr) (SummarizeResponse.model_version sr).

Definition low_confidence_audit (self : CoordinatorAgent) (comment_id : string)
    (confidence : Q) : Audit.t :=
  Audit.mk "comment" comment_id "low_confidence"
    [("confidence", confidence); ("threshold", confidence_threshold self)]
    "system".

(** The condition of step 5. *)
Definition summarizes (self : CoordinatorAgent) (confidence : Q)
    (force_reprocess : bool) : bool :=
  leb (confidence_threshold self) confidence || force_reprocess.

(** A run whose ingest and classify calls succeed. *)
Lemma run_classified (self : CoordinatorAgent) (tools : Tools) (db : Store)
    (comment_id : string) (force_reprocess : bool) (comment : CommentRaw.t)
    (ir : IngestResponse.t) (cr : ClassifyResponse.t) :
  first (is_comment comment_id) (comments_raw db) = Some comment ->
  proceeds db comment force_reprocess ->
  received (ingest tools (CommentRaw.text_raw comment)) = Some ir ->
  received (classify tools (IngestResponse.normalized_text ir)
              (IngestResponse.language ir)) = Some cr ->
  let run := process_comment self tools db comment_id force_reprocess in
  let clause_guesses :=
    guesses tools (IngestResponse.pii_masked ir) (CommentRaw.draft_id comment) in
  let confidence := ClassifyResponse.confidence cr in
  let text_normalized := IngestResponse.normalized_text ir in
  let summary_result :=
    received (summarize tools text_normalized (head clause_guesses)) in
  outcome run
    = success comment_id confidence (ClassifyResponse.sentiment_label cr)
        (ClassifyResponse.stance cr) clause_guesses
  /\ tool_calls run
     = [CallIngest (CommentRaw.text_raw comment);
        CallClauseLinker (IngestResponse.pii_masked ir)
          (CommentRaw.draft_id comment);
        CallClassify text_normalized (IngestResponse.language ir)]
       ++ (if summarizes self confidence force_reprocess
           then [CallSummarize text_normalized (head clause_guesses)]
           else [])
  /\ queued run
     = [deduplicate_comments (CommentRaw.draft_id comment);
        extract_keywords (CommentRaw.draft_id comment)]
  /\ audits (storage run)
     = audits db
       ++ (if ltb confidence (confidence_threshold self)
           then [low_confidence_audit self comment_id confidence]
           else [])
  /\ predictions (storage run)
     = upsert (prediction_of comment_id)
         (fun p => prediction_row (Prediction.comment_id p) cr)
         (prediction_row comment_id cr) (predictions db)
  /\ summaries (storage run)
     = (if summarizes self confidence force_reprocess
        then match summary_result with
             | Some sr =>
                 upsert (summary_of comment_id)
                   (fun s => summary_row (Summary.comment_id s) sr)
                   (summary_row comment_id sr) (summaries db)
             | None => summaries db
             end
        else summaries db)
  /\ comments_processed (storage run)
     = match first (processed_of comment_id) (comments_processed db) with
       | Some _ =>
           update_first (processed_of comment_id)
             (fun p => CommentProcessed.mk (CommentProcessed.comment_id p)
                         text_normalized clause_guesses
                         (CommentProcessed.embedding p))
             (comments_processed db)
       | None =>
           comments_processed db
           ++ [CommentProcessed.mk comment_id text_normalized clause_guesses
                 (IngestResponse.embedding ir)]
       end
  /\ comments_raw (storage run)
     = update_first (is_comment comment_id)
         (fun c => CommentRaw.mk (CommentRaw.id c) (CommentRaw.draft_id c)
                     (CommentRaw.text_raw c) (IngestResponse.language ir)
                     (Some (IngestResponse.pii_masked ir)))
         (comments_raw db).
Proof.
  intros Hc Hp Hi Hk run clause_guesses confidence text_normalized summary_result.
  pose proof (first_Some _ _ _ Hc) as [_ Hid]. apply is_comment_eq in Hid.
  apply proceeds_guard in Hp.
  subst run. unfold process_comment, process_body, bind, get_session. simpl.
  rewrite Hc, Hp.
  unfold _call_ingest_tool, _call_clause_linker, _call_classify_tool,
    _call_summarize_tool, _trigger_post_processing, _audit_log, commit, delay,
    modify, flush, bind, log_call, ret, return_, get_session, put_session.
  simpl. rewrite Hi. simpl.
  fold (guesses tools (IngestResponse.pii_masked ir) (CommentRaw.draft_id comment)).
  fold clause_guesses. fold text_normalized. fold text_normalized in Hk.
  subst comment_id. unfold summarizes. subst summary_result confidence.
  clearbody clause_guesses text_normalized.
  destruct (first (processed_of (CommentRaw.id comment)) (comments_processed db))
    as [p|] eqn:Hex; simpl; rewrite Hk; simpl.
  - pose proof (first_Some _ _ _ Hex) as [_ E1]. apply processed_of_eq in E1.
    assert (Hupd :
      update_first (processed_of (CommentRaw.id comment))
        (fun _ => CommentProcessed.mk (CommentRaw.id comment)
                    text_normalized clause_guesses (CommentProcessed.embedding p))
        (comments_processed db)
      = update_first (processed_of (CommentRaw.id comment))
          (fun q => CommentProcessed.mk (CommentProcessed.comment_id q)
                      text_normalized clause_guesses
                      (CommentProcessed.embedding q))
          (comments_processed db)).
    { rewrite <- (update_first_found _
               (fun q => CommentProcessed.mk (CommentProcessed.comment_id q)
                           text_normalized clause_guesses
                           (CommentProcessed.embedding q)) _ _ Hex).
      rewrite E1. reflexivity. }
    rewrite E1.
    destruct (ltb (ClassifyResponse.confidence cr) (confidence_threshold self));
      simpl;
      destruct (leb (confidence_threshold self) (ClassifyResponse.confidence cr));
      simpl;
      try (destruct force_reprocess; simpl);
      try (destruct (received (summarize tools text_normalized (head clause_guesses)));
           simpl);
      repeat split; try reflexivity; try exact Hupd;
      symmetry; apply app_nil_r.
  - destruct (ltb (ClassifyResponse.confidence cr) (confidence_threshold self));
      simpl;
      destruct (leb (confidence_threshold self) (ClassifyResponse.confidence cr));
      simpl;
      try (destruct force_reprocess; simpl);
      try (destruct (received (summarize tools text_normalized (head clause_guesses)));
           simpl);
      repeat split; try reflexivity; symmetry; apply app_nil_r.
Qed.

(** *** Which way a run goes *)

Lemma process_comment_cases (tools : Tools) (db : Store) (comment_id : string)
    (force_reprocess : bool) :
  first (is_comment comment_id) (comments_raw db) = None
  \/ exists comment,
       first (is_comment comment_id) (comments_raw db) = Some comment
       /\ ((exists p,
              first (processed_of (CommentRaw.id comment)) (comments_processed db)
                = Some p
              /\ force_reprocess = false)
           \/ (proceeds db comment force_reprocess
               /\ (received (ingest tools (CommentRaw.text_raw comment)) = None
                   \/ exists ir,
                        received (ingest tools (CommentRaw.text_raw comment))
                          = Some ir
                        /\ (received
                              (classify tools (IngestResponse.normalized_text ir)
                                 (IngestResponse.language ir)) = None
                            \/ exists cr,
                                 received
                                   (classify tools
                                      (IngestResponse.normalized_text ir)
                                      (IngestResponse.language ir))
                                   = Some cr)))).
Proof.
  destruct (first (is_comment comment_id) (comments_raw db)) as [comment|];
    [right; exists comment; split; [reflexivity|] | now left].
  assert (Hgo : (exists p,
                   first (processed_of (CommentRaw.id comment))
                     (comments_processed db) = Some p
                   /\ force_reprocess = false)
                \/ proceeds db comment force_reprocess).
  { unfold proceeds.
    destruct (first (processed_of (CommentRaw.id comment)) (comments_processed db))
      as [p|]; [|right; now left].
    destruct force_reprocess; [right; now right | left; now exists p]. }
  destruct Hgo as [H | H]; [now left | right]. split; [exact H|].
  destruct (received (ingest tools (CommentRaw.text_raw comment))) as [ir|];
    [right; exists ir; split; [reflexivity|] | now left].
  destruct (received (classify tools (IngestResponse.normalized_text ir)
                        (IngestResponse.language ir))) as [cr|];
    [right; now exists cr | now left].
Qed.

(** The successful runs are the runs whose ingest and classify calls
    succeed. *)
Lemma success_inv (self : CoordinatorAgent) (tools : Tools) (db : Store)
    (comment_id : string) (force_reprocess : bool)
    (cid : string) (conf : Q) (sentiment stance : string)
    (clauses : list string) :
  outcome (process_comment self tools db comment_id force_reprocess)
    = success cid conf sentiment stance clauses ->
  exists comment ir cr,
    first (is_comment comment_id) (comments_raw db) = Some comment
    /\ proceeds db comment force_reprocess
    /\ received (ingest tools (CommentRaw.text_raw comment)) = Some ir
    /\ received (classify tools (IngestResponse.normalized_text ir)
                   (IngestResponse.language ir)) = Some cr
    /\ cid = comment_id
    /\ conf = ClassifyResponse.confidence cr
    /\ clauses = guesses tools (IngestResponse.pii_masked ir)
                   (CommentRaw.draft_id comment).
Proof.
  intros Hs.
  destruct (process_comment_cases tools db comment_id force_reprocess)
    as [Hn | (comment & Hc & [(p & Hp & ->) | (Hgo & [Hi | (ir & Hi & [Hk | (cr & Hk)])])])].
  - rewrite (run_not_found self tools db comment_id force_reprocess Hn) in Hs.
    discriminate.
  - rewrite (run_already_processed self tools db comment_id comment p Hc Hp) in Hs.
    discriminate.
  - rewrite (run_ingest_failed self tools db comment_id force_reprocess comment
               Hc Hgo Hi) in Hs. discriminate.
  - rewrite (run_classify_failed self tools db comment_id force_reprocess comment
               ir Hc Hgo Hi Hk) in Hs. discriminate.
  - destruct (run_classified self tools db comment_id force_reprocess comment
                ir cr Hc Hgo Hi Hk) as (Ho & _).
    rewrite Ho in Hs. injection Hs as <- <- _ _ <-.
    exists comment, ir, cr. now repeat split.
Qed.

Lemma already_processed_inv (self : CoordinatorAgent) (tools : Tools)
    (db : Store) (comment_id : string) (force_reprocess : bool) (cid : string) :
  outcome (process_comment self tools db comment_id force_reprocess)
    = already_processed cid ->
  exists p, In p (comments_processed db)
            /\ CommentProcessed.comment_id p = comment_id.
Proof.
  intros Hs.
  destruct (process_comment_cases tools db comment_id force_reprocess)
    as [Hn | (comment & Hc & [(p & Hp & ->) | (Hgo & [Hi | (ir & Hi & [Hk | (cr & Hk)])])])].
  - rewrite (run_not_found self tools db comment_id force_reprocess Hn) in Hs.
    discriminate.
  - apply first_Some in Hc as [_ Hc]. apply is_comment_eq in Hc.
    apply first_Some in Hp as [Hin Hp]. apply processed_of_eq in Hp.
    exists p. split; [exact Hin | congruence].
  - rewrite (run_ingest_failed self tools db comment_id force_reprocess comment
               Hc Hgo Hi) in Hs. discriminate.
  - rewrite (run_classify_failed self tools db comment_id force_reprocess comment
               ir Hc Hgo Hi Hk) in Hs. discriminate.
  - destruct (run_classified self tools db comment_id force_reprocess comment
                ir cr Hc Hgo Hi Hk) as (Ho & _).
    rewrite Ho in Hs. discriminate.
Qed.

Lemma first_exists {A : Type} (p : A -> bool) (rows : list A) (x : A) :
  In x rows -> p x = true -> exists y, first p rows = Some y.
Proof.
  intros Hx Hp. destruct (first p rows) as [y|] eqn:E; [now exists y|].
  rewrite first_None in E. rewrite (E x Hx) in Hp. discriminate.
Qed.

(** *** Idempotent re-entry *)

(** The constraint [fk_comments_processed_comment_id_comments_raw] of the
    schema: a processed row belongs to a stored comment. *)
Definition foreign_keys (db : Store) : Prop :=
  forall p, In p (comments_processed db) ->
    exists c, In c (comments_raw db)
              /\ CommentRaw.id c = CommentProcessed.comment_id p.

(** C1. When storage holds a processed row for the comment, processing it
    without [force_reprocess] returns the already-processed outcome, calls
    none of the four tools, queues nothing and leaves storage as it was. *)
Theorem already_processed_is_a_no_op (self : CoordinatorAgent) (tools : Tools)
    (db : Store) (comment_id : string) :
  foreign_keys db ->
  (exists p, In p (comments_processed db)
             /\ CommentProcessed.comment_id p = comment_id) ->
  process_comment self tools db comment_id false
  = {| outcome := already_processed comment_id;
       storage := db; tool_calls := []; queued := [] |}.
Proof.
  intros Hfk (p & Hp & Hid).
  destruct (Hfk p Hp) as (c & Hc & Hcid).
  destruct (first_exists (is_comment comment_id) (comments_raw db) c Hc)
    as (comment & Hcomment); [apply is_comment_eq; congruence|].
  pose proof (first_Some _ _ _ Hcomment) as [_ Hcomment_id].
  apply is_comment_eq in Hcomment_id.
  destruct (first_exists (processed_of (CommentRaw.id comment))
              (comments_processed db) p Hp) as (p' & Hp');
    [apply processed_of_eq; congruence|].
  exact (run_already_processed self tools db comment_id comment p' Hcomment Hp').
Qed.

(** *** Failure of the classify stage *)

(** C2, as the code has it.  When ingest and clause linking complete and
    the classify call fails, the run returns the error naming the classify
    stage; the processed row of step 4 was only flushed inside the
    transaction of the run and goes with it when the session is closed:
    storage is exactly as before the run and nothing is queued.  A later run
    without [force_reprocess] therefore reports already-processed only if a
    processed row existed before the failed run. *)
Theorem classify_failure_leaves_storage_unchanged
    (self : CoordinatorAgent) (tools : Tools) (db : Store)
    (comment_id : string) (force_reprocess : bool)
    (comment : CommentRaw.t) (ir : IngestResponse.t) :
  first (is_comment comment_id) (comments_raw db) = Some comment ->
  proceeds db comment force_reprocess ->
  received (ingest tools (CommentRaw.text_raw comment)) = Some ir ->
  received (classify tools (IngestResponse.normalized_text ir)
              (IngestResponse.language ir)) = None ->
  let run := process_comment self tools db comment_id force_reprocess in
  outcome run = error comment_id "classify_failed" ""
  /\ In (CallClauseLinker (IngestResponse.pii_masked ir)
           (CommentRaw.draft_id comment)) (tool_calls run)
  /\ storage run = db
  /\ queued run = []
  /\ forall (self' : CoordinatorAgent) (tools' : Tools),
       outcome (process_comment self' tools' (storage run) comment_id false)
         = already_processed comment_id
       <-> exists p, In p (comments_processed db)
                     /\ CommentProcessed.comment_id p = comment_id.
Proof.
  intros Hc Hgo Hi Hk run. subst run.
  rewrite (run_classify_failed self tools db comment_id force_reprocess comment
             ir Hc Hgo Hi Hk). simpl.
  split; [reflexivity|]. split; [right; now left|].
  split; [reflexivity|]. split; [reflexivity|].
  intros self' tools'. split.
  - apply already_processed_inv.
  - intros (p & Hp & Hid).
    pose proof (first_Some _ _ _ Hc) as [_ Hcid]. apply is_comment_eq in Hcid.
    destruct (first_exists (processed_of (CommentRaw.id comment))
                (comments_processed db) p Hp) as (p' & Hp');
      [apply processed_of_eq; congruence|].
    now rewrite (run_already_processed self' tools' db comment_id comment p'
                   Hc Hp').
Qed.

(** On a comment that was never processed, with ingest and clause linking
    answering and the classifier down, the run ends with the classify error
    and no processed row is in storage afterwards; the next run without
    [force_reprocess] does not find the comment already processed. *)
Lemma classify_failure_keeps_no_processed_row :
  let run := process_comment coordinator Scenario.classify_down
               Scenario.one_comment "c1" false in
  ~ (outcome run = error "c1" "classify_failed" ""
     /\ (exists p, In p (comments_processed (storage run))
                   /\ CommentProcessed.comment_id p = "c1")
     /\ outcome (process_comment coordinator Scenario.classify_down
                   (storage run) "c1" false)
        = already_processed "c1").
Proof.
  intros run (_ & (p & Hp & _) & _). vm_compute in Hp. exact Hp.
Qed.

(** *** Unknown comments *)

(** C8, as the code has it.  For a comment id that storage does not know,
    the run ends with the generic ["processing_failed"] error and the
    details text ["Comment <id> not found"]; it calls no tool and changes
    nothing.  The error type differs from ["ingest_failed"] and
    ["classify_failed"], and it is the type of every other caught
    exception: only the details tell a missing comment apart. *)
Theorem unknown_comment_is_processing_failed
    (self : CoordinatorAgent) (tools : Tools) (db : Store)
    (comment_id : string) (force_reprocess : bool) :
  (forall c, In c (comments_raw db) -> CommentRaw.id c <> comment_id) ->
  let run := process_comment self tools db comment_id force_reprocess in
  run = {| outcome := error comment_id "processing_failed"
                        ("Comment " +:+ comment_id +:+ " not found");
           storage := db; tool_calls := []; queued := [] |}
  /\ (forall error_type details,
        outcome run = error comment_id error_type details ->
        error_type = "processing_failed"
        /\ error_type <> "ingest_failed" /\ error_type <> "classify_failed").
Proof.
  intros Hnone run. subst run.
  rewrite run_not_found.
  - split; [reflexivity|]. simpl. intros et d [= <- <-].
    split; [reflexivity|]. split; discriminate.
  - apply first_None. intros c Hc. apply not_true_iff_false.
    rewrite is_comment_eq. now apply Hnone.
Qed.

(** The error for an unknown comment has no type of its own: it is the
    generic one. *)
Lemma unknown_comment_error_is_not_distinct :
  ~ (exists error_type details,
       outcome (process_comment coordinator (Scenario.tools_up (9 # 10))
                  Scenario.empty_store "c9" false)
         = error "c9" error_type details
       /\ error_type <> "ingest_failed"
       /\ error_type <> "classify_failed"
       /\ error_type <> "processing_failed").
Proof.
  intros (et & d & H & _ & _ & Hne). vm_compute in H.
  injection H as <- _. now apply Hne.
Qed.

(** *** Rows written by an upsert *)

Lemma update_first_In {A : Type} (p : A -> bool) (f : A -> A) (rows : list A)
    (x : A) :
  first p rows = Some x -> In (f x) (update_first p f rows).
Proof.
  induction rows as [|r rows IH]; simpl; [discriminate|].
  destruct (p r); [intros [= ->]; now left | intros H; right; now apply IH].
Qed.

Lemma upsert_row {A : Type} (p : A -> bool) (assign : A -> A) (new : A)
    (rows : list A) :
  exists r, In r (upsert p assign new rows)
            /\ (r = new \/ exists r0, p r0 = true /\ r = assign r0).
Proof.
  unfold upsert. destruct (first p rows) as [x|] eqn:E.
  - exists (assign x). split; [now apply update_first_In|].
    right. exists x. split; [|reflexivity]. now apply first_Some in E.
  - exists new. split; [apply in_or_app; right; now left | now left].
Qed.

Lemma run_ext (r1 r2 : Run) :
  outcome r1 = outcome r2 -> tool_calls r1 = tool_calls r2 ->
  queued r1 = queued r2 ->
  comments_raw (storage r1) = comments_raw (storage r2) ->
  comments_processed (storage r1) = comments_processed (storage r2) ->
  predictions (storage r1) = predictions (storage r2) ->
  summaries (storage r1) = summaries (storage r2) ->
  audits (storage r1) = audits (storage r2) ->
  r1 = r2.
Proof.
  destruct r1 as [o1 [a1 b1 c1 d1 e1] t1 q1], r2 as [o2 [a2 b2 c2 d2 e2] t2 q2].
  simpl. now intros -> -> -> -> -> -> -> ->.
Qed.

Lemma first_update_first {A : Type} (p : A -> bool) (f : A -> A)
    (rows : list A) (x : A) :
  first p rows = Some x -> p (f x) = true ->
  first p (update_first p f rows) = Some (f x).
Proof.
  induction rows as [|r rows IH]; simpl; [discriminate|].
  destruct (p r) eqn:E.
  - intros [= ->] Hf. simpl. now rewrite Hf.
  - intros H Hf. simpl. rewrite E. now apply IH.
Qed.

Lemma first_upsert {A : Type} (p : A -> bool) (assign : A -> A) (new : A)
    (rows : list A) :
  (forall r, p r = true -> p (assign r) = true) -> p new = true ->
  exists r, first p (upsert p assign new rows) = Some r.
Proof.
  intros Hassign Hnew. unfold upsert. destruct (first p rows) as [x|] eqn:E.
  - exists (assign x). apply first_update_first; [exact E|].
    apply Hassign. now apply first_Some in E.
  - exists new. unfold first in *. induction rows as [|r rows IH]; simpl in *.
    + now rewrite Hnew.
    + destruct (p r); [discriminate | now apply IH].
Qed.

(** After a successful run the comment counts as processed: the next run
    without [force_reprocess] is a no-op. *)
Lemma success_then_already_processed (self self' : CoordinatorAgent)
    (tools tools' : Tools) (db : Store) (comment_id : string)
    (force_reprocess : bool) (conf : Q) (sentiment stance : string)
    (clauses : list string) :
  let run := process_comment self tools db comment_id force_reprocess in
  outcome run = success comment_id conf sentiment stance clauses ->
  process_comment self' tools' (storage run) comment_id false
  = {| outcome := already_processed comment_id; storage := storage run;
       tool_calls := []; queued := [] |}.
Proof.
  intros run Hs.
  destruct (success_inv _ _ _ _ _ _ _ _ _ _ Hs)
    as (comment & ir & cr & Hc & Hgo & Hi & Hk & _).
  destruct (run_classified self tools db comment_id force_reprocess comment
              ir cr Hc Hgo Hi Hk)
    as (_ & _ & _ & _ & _ & _ & Hproc & Hraw).
  fold run in Hproc, Hraw.
  pose proof (first_Some _ _ _ Hc) as [_ Hid]. apply is_comment_eq in Hid.
  set (comment' := CommentRaw.mk (CommentRaw.id comment)
                     (CommentRaw.draft_id comment) (CommentRaw.text_raw comment)
                     (IngestResponse.language ir)
                     (Some (IngestResponse.pii_masked ir))).
  assert (Hc' : first (is_comment comment_id) (comments_raw (storage run))
                = Some comment').
  { rewrite Hraw.
    apply (first_update_first (is_comment comment_id)
             (fun c => CommentRaw.mk (CommentRaw.id c) (CommentRaw.draft_id c)
                         (CommentRaw.text_raw c) (IngestResponse.language ir)
                         (Some (IngestResponse.pii_masked ir)))
             (comments_raw db) comment Hc).
    apply is_comment_eq. exact Hid. }
  destruct (first_upsert (processed_of comment_id)
              (fun p => CommentProcessed.mk (CommentProcessed.comment_id p)
                          (IngestResponse.normalized_text ir)
                          (guesses tools (IngestResponse.pii_masked ir)
                             (CommentRaw.draft_id comment))
                          (CommentProcessed.embedding p))
              (CommentProcessed.mk comment_id (IngestResponse.normalized_text ir)
                 (guesses tools (IngestResponse.pii_masked ir)
                    (CommentRaw.draft_id comment))
                 (IngestResponse.embedding ir))
              (comments_processed db)) as (p & Hp).
  { intros r Hr. exact Hr. }
  { apply processed_of_eq. reflexivity. }
  unfold upsert in Hp. rewrite <- Hproc in Hp.
  apply (run_already_processed self' tools' (storage run) comment_id comment' p
           Hc').
  simpl. rewrite Hid. exact Hp.
Qed.

(** *** The quality gate *)

(** C3. In a successful run a confidence equal to the threshold passes the
    gate: no audit row is added and the summarize tool is called.  A
    confidence strictly below the threshold appends the ["low_confidence"]
    audit row, the prediction row of the comment is in storage with that
    confidence, and without [force_reprocess] the summarize tool is not
    called. *)
Theorem quality_gate_boundary (self : CoordinatorAgent) (tools : Tools)
    (db : Store) (comment_id : string) (force_reprocess : bool)
    (conf : Q) (sentiment stance : string) (clauses : list string) :
  let run := process_comment self tools db comment_id force_reprocess in
  outcome run = success comment_id conf sentiment stance clauses ->
  (conf == confidence_threshold self ->
     audits (storage run) = audits db
     /\ exists text clause_ref, In (CallSummarize text clause_ref) (tool_calls run))
  /\ (conf < confidence_threshold self ->
        audits (storage run)
          = audits db
            ++ [Audit.mk "comment" comment_id "low_confidence"
                  [("confidence", conf);
                   ("threshold", confidence_threshold self)] "system"]
        /\ (exists q, In q (predictions (storage run))
                      /\ Prediction.comment_id q = comment_id
                      /\ Prediction.confidence q = conf)
        /\ (force_reprocess = false ->
            forall text clause_ref,
              ~ In (CallSummarize text clause_ref) (tool_calls run))).
Proof.
  intros run Hs.
  destruct (success_inv _ _ _ _ _ _ _ _ _ _ Hs)
    as (comment & ir & cr & Hc & Hgo & Hi & Hk & _ & -> & ->).
  destruct (run_classified self tools db comment_id force_reprocess comment
              ir cr Hc Hgo Hi Hk)
    as (_ & Hcalls & _ & Haud & Hpred & _).
  fold run in Hcalls, Haud, Hpred. split.
  - intros Heq.
    assert (Hno : ltb (ClassifyResponse.confidence cr) (confidence_threshold self)
                  = false).
    { apply ltb_ge. rewrite Heq. apply Qle_refl. }
    assert (Hyes : summarizes self (ClassifyResponse.confidence cr) force_reprocess
                   = true).
    { unfold summarizes. apply orb_true_iff. left. apply leb_le.
      rewrite Heq. apply Qle_refl. }
    rewrite Hno in Haud. rewrite Hyes in Hcalls. split.
    + rewrite Haud. apply app_nil_r.
    + eexists _, _. rewrite Hcalls. apply in_or_app. right. now left.
  - intros Hlt.
    assert (Hlow : ltb (ClassifyResponse.confidence cr) (confidence_threshold self)
                   = true) by now apply ltb_lt.
    rewrite Hlow in Haud. split; [exact Haud|]. split.
    + destruct (upsert_row (prediction_of comment_id)
                  (fun p => prediction_row (Prediction.comment_id p) cr)
                  (prediction_row comment_id cr) (predictions db))
        as (q & Hq & Hwhich).
      exists q. rewrite Hpred. split; [exact Hq|].
      destruct Hwhich as [-> | (r0 & Hr0 & ->)]; simpl; [now split|].
      split; [|reflexivity]. now apply String.eqb_eq in Hr0.
    + intros -> text clause_ref Hin.
      assert (Hskip : summarizes self (ClassifyResponse.confidence cr) false
                      = false).
      { unfold summarizes. rewrite orb_false_r. apply not_true_iff_false.
        rewrite leb_le. now apply Qlt_not_le. }
      rewrite Hcalls, Hskip in Hin. absent_call Hin.
Qed.

(** *** Summarization *)

(** C4. In a run that reaches step 5 the summarize tool is called exactly
    when the confidence is at least the threshold or [force_reprocess] is
    set.  When that call fails, no summary row is written; the run still
    commits the processed row and the prediction row, queues the
    post-processing jobs and returns the success outcome. *)
Theorem summarize_is_best_effort (self : CoordinatorAgent) (tools : Tools)
    (db : Store) (comment_id : string) (force_reprocess : bool)
    (comment : CommentRaw.t) (ir : IngestResponse.t) (cr : ClassifyResponse.t) :
  first (is_comment comment_id) (comments_raw db) = Some comment ->
  proceeds db comment force_reprocess ->
  received (ingest tools (CommentRaw.text_raw comment)) = Some ir ->
  received (classify tools (IngestResponse.normalized_text ir)
              (IngestResponse.language ir)) = Some cr ->
  let run := process_comment self tools db comment_id force_reprocess in
  let conf := ClassifyResponse.confidence cr in
  let text_normalized := IngestResponse.normalized_text ir in
  let clause_guesses :=
    guesses tools (IngestResponse.pii_masked ir) (CommentRaw.draft_id comment) in
  ((exists text clause_ref, In (CallSummarize text clause_ref) (tool_calls run))
   <-> confidence_threshold self <= conf \/ force_reprocess = true)
  /\ (In (CallSummarize text_normalized (head clause_guesses)) (tool_calls run) ->
      received (summarize tools text_normalized (head clause_guesses)) = None ->
      outcome run
        = success comment_id conf (ClassifyResponse.sentiment_label cr)
            (ClassifyResponse.stance cr) clause_guesses
      /\ summaries (storage run) = summaries db
      /\ (exists p, In p (comments_processed (storage run))
                    /\ CommentProcessed.comment_id p = comment_id
                    /\ CommentProcessed.text_normalized p = text_normalized
                    /\ CommentProcessed.clause_guesses p = clause_guesses)
      /\ (exists q, In q (predictions (storage run))
                    /\ Prediction.comment_id q = comment_id
                    /\ Prediction.confidence q = conf)
      /\ audits (storage run)
         = audits db
           ++ (if ltb conf (confidence_threshold self)
               then [low_confidence_audit self comment_id conf]
               else [])
      /\ queued run
         = [deduplicate_comments (CommentRaw.draft_id comment);
            extract_keywords (CommentRaw.draft_id comment)]).
Proof.
  intros Hc Hgo Hi Hk run conf text_normalized clause_guesses.
  destruct (run_classified self tools db comment_id force_reprocess comment
              ir cr Hc Hgo Hi Hk)
    as (Hout & Hcalls & Hq & Haud & Hpred & Hsum & Hproc & _).
  fold run conf text_normalized clause_guesses
    in Hout, Hcalls, Hq, Haud, Hpred, Hsum, Hproc.
  assert (Hgate : summarizes self conf force_reprocess = true
                  <-> confidence_threshold self <= conf \/ force_reprocess = true).
  { unfold summarizes. rewrite orb_true_iff, leb_le. reflexivity. }
  split.
  - rewrite <- Hgate. rewrite Hcalls. split.
    + intros (text & clause_ref & Hin).
      destruct (summarizes self conf force_reprocess); [reflexivity|].
      absent_call Hin.
    + intros ->. eexists _, _. apply in_or_app. right. now left.
  - intros Hin Hfail.
    assert (Hyes : summarizes self conf force_reprocess = true).
    { rewrite Hcalls in Hin.
      destruct (summarizes self conf force_reprocess); [reflexivity|].
      absent_call Hin. }
    rewrite Hyes, Hfail in Hsum.
    split; [exact Hout|]. split; [exact Hsum|].
    split; [|split; [|split; [exact Haud | exact Hq]]].
    + rewrite Hproc.
      destruct (upsert_row (processed_of comment_id)
                  (fun p => CommentProcessed.mk (CommentProcessed.comment_id p)
                              text_normalized clause_guesses
                              (CommentProcessed.embedding p))
                  (CommentProcessed.mk comment_id text_normalized clause_guesses
                     (IngestResponse.embedding ir))
                  (comments_processed db)) as (p & Hp & Hwhich).
      exists p. split; [exact Hp|].
      destruct Hwhich as [-> | (r0 & Hr0 & ->)]; simpl; [now repeat split|].
      split; [now apply String.eqb_eq in Hr0 | now split].
    + destruct (upsert_row (prediction_of comment_id)
                  (fun p => prediction_row (Prediction.comment_id p) cr)
                  (prediction_row comment_id cr) (predictions db))
        as (q & Hq' & Hwhich).
      exists q. rewrite Hpred. split; [exact Hq'|].
      destruct Hwhich as [-> | (r0 & Hr0 & ->)]; simpl; [now split|].
      split; [|reflexivity]. now apply String.eqb_eq in Hr0.
Qed.

(** *** Failure of the clause linker *)

(** The same services, with a clause linker that answers every request with
    the given response. *)
Definition answering (tools : Tools) (r : ClauseLinker.LinkResponse) : Tools := {|
  ingest := ingest tools;
  clause_linker := fun _ _ => Status200 r;
  classify := classify tools;
  summarize := summarize tools
|}.

(** C9. When the clause-link call of a run fails (no connection, a timeout
    or a status other than 200), the run is the run in which the linker
    answered with an empty candidate list: same outcome, same storage, same
    calls, same queued jobs.  The failure ends nothing: an error outcome of
    such a run is the classify error, and when classification succeeds the
    run is a success with no clauses, and the processed row of the comment
    is stored with an empty [clause_guesses]. *)
Theorem clause_link_failure_is_an_empty_list
    (self : CoordinatorAgent) (tools : Tools) (db : Store)
    (comment_id : string) (force_reprocess : bool)
    (comment : CommentRaw.t) (ir : IngestResponse.t) :
  first (is_comment comment_id) (comments_raw db) = Some comment ->
  received (ingest tools (CommentRaw.text_raw comment)) = Some ir ->
  received (clause_linker tools (IngestResponse.pii_masked ir)
              (CommentRaw.draft_id comment)) = None ->
  let run := process_comment self tools db comment_id force_reprocess in
  run = process_comment self (answering tools ClauseLinker.empty_response)
          db comment_id force_reprocess
  /\ (forall error_type details,
        outcome run = error comment_id error_type details ->
        error_type = "classify_failed")
  /\ (proceeds db comment force_reprocess ->
      forall cr,
        received (classify tools (IngestResponse.normalized_text ir)
                    (IngestResponse.language ir)) = Some cr ->
        outcome run
          = success comment_id (ClassifyResponse.confidence cr)
              (ClassifyResponse.sentiment_label cr)
              (ClassifyResponse.stance cr) []
        /\ exists p, In p (comments_processed (storage run))
                     /\ CommentProcessed.comment_id p = comment_id
                     /\ CommentProcessed.clause_guesses p = []).
Proof.
  intros Hc Hi Hlink run.
  set (tools' := answering tools ClauseLinker.empty_response).
  assert (Hg : guesses tools (IngestResponse.pii_masked ir)
                 (CommentRaw.draft_id comment) = [])
    by (unfold guesses; now rewrite Hlink).
  assert (Hg' : guesses tools' (IngestResponse.pii_masked ir)
                  (CommentRaw.draft_id comment) = []) by reflexivity.
  destruct (process_comment_cases tools db comment_id force_reprocess)
    as [Hn | (comment' & Hc' & Hcases)]; [congruence|].
  assert (comment' = comment) by congruence. subst comment'. clear Hc'.
  destruct Hcases as [(p & Hp & ->) | (Hgo & [Hi' | (ir' & Hi' & Hkc)])].
  - subst run.
    rewrite (run_already_processed self tools db comment_id comment p Hc Hp).
    rewrite (run_already_processed self tools' db comment_id comment p Hc Hp).
    split; [reflexivity|]. split; [intros et d; discriminate|].
    intros [Hnone | Hforce]; congruence.
  - congruence.
  - assert (ir' = ir) by congruence. subst ir'. clear Hi'.
    destruct Hkc as [Hk | (cr & Hk)].
    + subst run.
      rewrite (run_classify_failed self tools db comment_id force_reprocess
                 comment ir Hc Hgo Hi Hk).
      rewrite (run_classify_failed self tools' db comment_id force_reprocess
                 comment ir Hc Hgo Hi Hk).
      split; [reflexivity|]. split; [now intros et d [= <- _]|].
      intros _ cr Hcr. congruence.
    + destruct (run_classified self tools db comment_id force_reprocess comment
                  ir cr Hc Hgo Hi Hk)
        as (Hout & Hcalls & Hq & Haud & Hpred & Hsum & Hproc & Hraw).
      destruct (run_classified self tools' db comment_id force_reprocess comment
                  ir cr Hc Hgo Hi Hk)
        as (Hout' & Hcalls' & Hq' & Haud' & Hpred' & Hsum' & Hproc' & Hraw').
      fold run in Hout, Hcalls, Hq, Haud, Hpred, Hsum, Hproc, Hraw.
      rewrite Hg in Hout, Hcalls, Hsum, Hproc.
      rewrite Hg' in Hout', Hcalls', Hsum', Hproc'.
      change (summarize tools') with (summarize tools) in Hsum'.
      split; [|split].
      * apply run_ext; congruence.
      * intros et d He. rewrite Hout in He. discriminate.
      * intros _ cr' Hcr'. assert (cr' = cr) by congruence. subst cr'.
        split; [exact Hout|]. rewrite Hproc.
        destruct (upsert_row (processed_of comment_id)
                    (fun p => CommentProcessed.mk (CommentProcessed.comment_id p)
                                (IngestResponse.normalized_text ir) []
                                (CommentProcessed.embedding p))
                    (CommentProcessed.mk comment_id
                       (IngestResponse.normalized_text ir) []
                       (IngestResponse.embedding ir))
                    (comments_processed db)) as (p & Hp & Hwhich).
        exists p. split; [exact Hp|].
        destruct Hwhich as [-> | (r0 & Hr0 & ->)]; simpl; [now split|].
        split; [now apply String.eqb_eq in Hr0 | reflexivity].
Qed.

(** *** The theorems at work *)

Lemma already_processed_is_a_no_op_witness :
  process_comment coordinator (Scenario.tools_up (9 # 10))
    Scenario.processed_comment "c1" false
  = {| outcome := already_processed "c1";
       storage := Scenario.processed_comment;
       tool_calls := []; queued := [] |}.
Proof.
  apply (already_processed_is_a_no_op coordinator (Scenario.tools_up (9 # 10))
           Scenario.processed_comment "c1").
  - intros p [<- | []]. eexists. split; [left; reflexivity | reflexivity].
  - eexists. split; [left; reflexivity | reflexivity].
Defined.

Lemma classify_failure_leaves_storage_unchanged_witness :
  let run := process_comment coordinator Scenario.classify_down
               Scenario.one_comment "c1" false in
  outcome run = error "c1" "classify_failed" ""
  /\ storage run = Scenario.one_comment
  /\ queued run = [].
Proof.
  destruct (classify_failure_leaves_storage_unchanged coordinator
              Scenario.classify_down Scenario.one_comment "c1" false
              Scenario.deadline_comment
              (IngestResponse.mk "The deadline in Rule 8(2) is too short"
                 (Some "en") "The deadline in Rule 8(2) is too short" None 1))
    as (Hout & _ & Hstore & Hq & _).
  - reflexivity.
  - left. reflexivity.
  - reflexivity.
  - reflexivity.
  - split; [exact Hout|]. split; [exact Hstore | exact Hq].
Defined.

Lemma unknown_comment_is_processing_failed_witness :
  outcome (process_comment coordinator (Scenario.tools_up (9 # 10))
             Scenario.one_comment "c9" false)
  = error "c9" "processing_failed" "Comment c9 not found".
Proof.
  destruct (unknown_comment_is_processing_failed coordinator
              (Scenario.tools_up (9 # 10)) Scenario.one_comment "c9" false)
    as (Hrun & _).
  - intros c [<- | []]. discriminate.
  - rewrite Hrun. reflexivity.
Defined.

(** At the threshold 0.7 itself, and just below it. *)
Lemma quality_gate_boundary_witness :
  (let run := process_comment coordinator (Scenario.tools_up (7 # 10))
                Scenario.one_comment "c1" false in
   audits (storage run) = []
   /\ exists text clause_ref, In (CallSummarize text clause_ref) (tool_calls run))
  /\ (let run := process_comment coordinator (Scenario.tools_up (69 # 100))
                   Scenario.one_comment "c1" false in
      audits (storage run)
        = [Audit.mk "comment" "c1" "low_confidence"
             [("confidence", 69 # 100); ("threshold", 7 # 10)] "system"]
      /\ forall text clause_ref,
           ~ In (CallSummarize text clause_ref) (tool_calls run)).
Proof.
  split.
  - destruct (quality_gate_boundary coordinator (Scenario.tools_up (7 # 10))
                Scenario.one_comment "c1" false (7 # 10) "negative" "oppose"
                ["Rule 8(2)"]) as (Heq & _); [reflexivity|].
    apply Heq. reflexivity.
  - destruct (quality_gate_boundary coordinator (Scenario.tools_up (69 # 100))
                Scenario.one_comment "c1" false (69 # 100) "negative" "oppose"
                ["Rule 8(2)"]) as (_ & Hlt); [reflexivity|].
    destruct Hlt as (Haud & _ & Hskip); [reflexivity|].
    split; [exact Haud | now apply Hskip].
Defined.

Lemma summarize_is_best_effort_witness :
  let run := process_comment coordinator (Scenario.summarize_down (9 # 10))
               Scenario.one_comment "c1" false in
  outcome run = success "c1" (9 # 10) "negative" "oppose" ["Rule 8(2)"]
  /\ summaries (storage run) = [].
Proof.
  destruct (summarize_is_best_effort coordinator
              (Scenario.summarize_down (9 # 10)) Scenario.one_comment "c1" false
              Scenario.deadline_comment
              (IngestResponse.mk "The deadline in Rule 8(2) is too short"
                 (Some "en") "The deadline in Rule 8(2) is too short" None 1)
              (ClassifyResponse.mk "negative" (-1 # 2) (1 # 2) "oppose" []
                 (9 # 10) "v1" None None))
    as (_ & Hfail).
  - reflexivity.
  - left. reflexivity.
  - reflexivity.
  - reflexivity.
  - destruct Hfail as (Hout & Hsum & _).
    + vm_compute. right. right. right. now left.
    + reflexivity.
    + split; [exact Hout | exact Hsum].
Defined.

Lemma clause_link_failure_is_an_empty_list_witness :
  let run := process_comment coordinator (Scenario.link_down (9 # 10))
               Scenario.one_comment "c1" false in
  outcome run = success "c1" (9 # 10) "negative" "oppose" []
  /\ comments_processed (storage run)
     = [CommentProcessed.mk "c1" "The deadline in Rule 8(2) is too short" []
          None].
Proof.
  destruct (clause_link_failure_is_an_empty_list coordinator
              (Scenario.link_down (9 # 10)) Scenario.one_comment "c1" false
              Scenario.deadline_comment
              (IngestResponse.mk "The deadline in Rule 8(2) is too short"
                 (Some "en") "The deadline in Rule 8(2) is too short" None 1))
    as (_ & _ & Hok).
  - reflexivity.
  - reflexivity.
  - reflexivity.
  - destruct (Hok (or_introl eq_refl)
                (ClassifyResponse.mk "negative" (-1 # 2) (1 # 2) "oppose" []
                   (9 # 10) "v1" None None) eq_refl) as (Hout & _).
    split; [exact Hout | reflexivity].
Defined.

(** The end-to-end scenario: the comment on Rule 8(2), classified with
    confidence 0.82 against the threshold 0.7, is summarized and stored. *)
Example end_to_end :
  let run := process_comment coordinator (Scenario.tools_up (82 # 100))
               Scenario.one_comment "c1" false in
  outcome run = success "c1" (82 # 100) "negative" "oppose" ["Rule 8(2)"]
  /\ tool_calls run
     = [CallIngest "The deadline in Rule 8(2) is too short";
        CallClauseLinker "The deadline in Rule 8(2) is too short" "draft-1";
        CallClassify "The deadline in Rule 8(2) is too short" (Some "en");
        CallSummarize "The deadline in Rule 8(2) is too short" (Some "Rule 8(2)")]
  /\ length (summaries (storage run)) = 1%nat
  /\ outcome (process_comment coordinator (Scenario.tools_up (82 # 100))
                (storage run) "c1" false)
     = already_processed "c1".
Proof. vm_compute. repeat split; reflexivity. Qed.

End CoordinatorFacts.

(** * Further properties of the coordinator *)

Module CoordinatorExtras.
Import Score Coordinator.
Import LinkerFacts CoordinatorFacts.

Local Open Scope Q_scope.

(** The five ways of [process_comment_cases], each with its run. *)
Ltac run_cases self tools db comment_id force :=
  let Hn := fresh "Hn" in
  let comment := fresh "comment" in
  let Hc := fresh "Hc" in
  let p := fresh "p" in
  let Hp := fresh "Hp" in
  let Hgo := fresh "Hgo" in
  let Hi := fresh "Hi" in
  let ir := fresh "ir" in
  let Hk := fresh "Hk" in
  let cr := fresh "cr" in
  destruct (process_comment_cases tools db comment_id force)
    as [Hn | (comment & Hc & [(p & Hp & ->) | (Hgo & [Hi | (ir & Hi & [Hk | (cr & Hk)])])])];
  [ rewrite (run_not_found self tools db comment_id force Hn)
  | rewrite (run_already_processed self tools db comment_id comment p Hc Hp)
  | rewrite (run_ingest_failed self tools db comment_id force comment Hc Hgo Hi)
  | rewrite (run_classify_failed self tools db comment_id force comment ir
               Hc Hgo Hi Hk)
  | pose proof (run_classified self tools db comment_id force comment ir cr
                  Hc Hgo Hi Hk) ].

(** *** Rows and lists *)

Lemma filter_update_first {A : Type} (p q : A -> bool) (f : A -> A)
    (rows : list A) :
  (forall r, p r = true -> q r = false) ->
  (forall r, p r = true -> q (f r) = false) ->
  List.filter q (update_first p f rows) = List.filter q rows.
Proof.
  intros Hq Hf. induction rows as [|r rows IH]; simpl; [reflexivity|].
  destruct (p r) eqn:E; simpl.
  - now rewrite (Hq r E), (Hf r E).
  - now rewrite IH.
Qed.

Lemma filter_upsert {A : Type} (p q : A -> bool) (assign : A -> A) (new : A)
    (rows : list A) :
  (forall r, p r = true -> q r = false) ->
  (forall r, p r = true -> q (assign r) = false) ->
  q new = false ->
  List.filter q (upsert p assign new rows) = List.filter q rows.
Proof.
  intros Hq Hf Hnew. unfold upsert. destruct (first p rows).
  - now apply filter_update_first.
  - rewrite List.filter_app. simpl. rewrite Hnew. apply app_nil_r.
Qed.

Lemma map_update_first {A B : Type} (p : A -> bool) (f : A -> A) (g : A -> B)
    (rows : list A) :
  (forall r, g (f r) = g r) -> map g (update_first p f rows) = map g rows.
Proof.
  intros Hg. induction rows as [|r rows IH]; simpl; [reflexivity|].
  destruct (p r); simpl; [now rewrite Hg | now rewrite IH].
Qed.

Lemma eqb_other (a b c : string) :
  a <> b -> String.eqb c a = true -> String.eqb c b = false.
Proof.
  intros Hne Ha. apply String.eqb_eq in Ha. subst c.
  now apply String.eqb_neq.
Qed.


Lemma first_app_new {A : Type} (p : A -> bool) (rows : list A) (new : A) :
  first p rows = None -> p new = true -> first p (rows ++ [new]) = Some new.
Proof.
  unfold first. induction rows as [|r rows IH]; simpl; intros H Hnew.
  - now rewrite Hnew.
  - destruct (p r); [discriminate | now apply IH].
Qed.

Lemma first_upsert_value {A : Type} (p : A -> bool) (assign : A -> A) (new : A)
    (rows : list A) :
  (forall r, p r = true -> p (assign r) = true) -> p new = true ->
  first p (upsert p assign new rows)
  = Some (match first p rows with Some x => assign x | None => new end).
Proof.
  intros Hassign Hnew. unfold upsert. destruct (first p rows) as [x|] eqn:E.
  - apply first_update_first; [exact E|]. apply Hassign. now apply first_Some in E.
  - now apply first_app_new.
Qed.

(** The number of rows of a table that satisfy [p]. *)
Definition count {A : Type} (p : A -> bool) (rows : list A) : nat :=
  length (List.filter p rows).

Lemma count_update_first {A : Type} (p : A -> bool) (f : A -> A)
    (rows : list A) :
  (forall r, p r = true -> p (f r) = true) ->
  count p (update_first p f rows) = count p rows.
Proof.
  intros Hf. unfold count. induction rows as [|r rows IH]; simpl; [reflexivity|].
  destruct (p r) eqn:E; simpl.
  - now rewrite (Hf r E).
  - rewrite E. exact IH.
Qed.

Lemma count_first_None {A : Type} (p : A -> bool) (rows : list A) :
  first p rows = None <-> count p rows = 0%nat.
Proof.
  unfold first, count. induction rows as [|r rows IH]; simpl; [tauto|].
  destruct (p r); simpl; [split; discriminate | exact IH].
Qed.

Lemma count_upsert {A : Type} (p : A -> bool) (assign : A -> A) (new : A)
    (rows : list A) :
  (forall r, p r = true -> p (assign r) = true) -> p new = true ->
  count p (upsert p assign new rows) = Nat.max 1 (count p rows).
Proof.
  intros Hassign Hnew. unfold upsert. destruct (first p rows) as [x|] eqn:E.
  - rewrite count_update_first by exact Hassign.
    destruct (count p rows) as [|n] eqn:En; [|reflexivity].
    apply count_first_None in En. congruence.
  - pose proof (proj1 (count_first_None p rows) E) as E0.
    unfold count in *. rewrite List.filter_app, length_app, E0. simpl.
    now rewrite Hnew.
Qed.

(** *** Failed runs *)

(** X1. When the ingest service does not answer with status 200 (another
    status, or the request raises), the run ends with the error
    [ingest_failed] after that single call: no other tool is called, nothing
    is queued and storage is left as it was. *)
Theorem ingest_failure_stops_the_run (self : CoordinatorAgent) (tools : Tools)
    (db : Store) (comment_id : string) (force_reprocess : bool)
    (comment : CommentRaw.t) :
  first (is_comment comment_id) (comments_raw db) = Some comment ->
  proceeds db comment force_reprocess ->
  (forall json, ingest tools (CommentRaw.text_raw comment) <> Status200 json) ->
  process_comment self tools db comment_id force_reprocess
  = {| outcome := error comment_id "ingest_failed" "";
       storage := db;
       tool_calls := [CallIngest (CommentRaw.text_raw comment)];
       queued := [] |}.
Proof.
  intros Hc Hgo Hi. apply run_ingest_failed; [exact Hc | exact Hgo |].
  destruct (ingest tools (CommentRaw.text_raw comment)) as [json | |] eqn:E;
    [now destruct (Hi json) | reflexivity | reflexivity].
Qed.




(** *** What a run writes *)

(** The rows of another comment, table by table. *)
Lemma rows_of_another_comment (self : CoordinatorAgent) (tools : Tools)
    (db : Store) (comment_id : string) (force_reprocess : bool)
    (other : string) :
  other <> comment_id ->
  let after := storage (process_comment self tools db comment_id force_reprocess) in
  List.filter (is_comment other) (comments_raw after)
    = List.filter (is_comment other) (comments_raw db)
  /\ List.filter (processed_of other) (comments_processed after)
     = List.filter (processed_of other) (comments_processed db)
  /\ List.filter (prediction_of other) (predictions after)
     = List.filter (prediction_of other) (predictions db)
  /\ List.filter (summary_of other) (summaries after)
     = List.filter (summary_of other) (summaries db).
Proof.
  intros Hne. cbv zeta.
  assert (Hne' : comment_id <> other) by congruence.
  run_cases self tools db comment_id force_reprocess;
    try (simpl; now repeat split).
  destruct H as (_ & _ & _ & _ & Hpred & Hsum & Hproc & Hraw).
  rewrite Hraw, Hproc, Hpred, Hsum.
  split; [|split; [|split]].
  - apply filter_update_first; intros r Hr; simpl;
      exact (eqb_other _ _ _ Hne' Hr).
  - destruct (first (processed_of comment_id) (comments_processed db)).
    + apply filter_update_first; intros r Hr; simpl;
        exact (eqb_other _ _ _ Hne' Hr).
    + rewrite List.filter_app. simpl. unfold processed_of at 2. simpl.
      rewrite (proj2 (String.eqb_neq comment_id other) Hne'). apply app_nil_r.
  - apply filter_upsert; try (intros r Hr; simpl; exact (eqb_other _ _ _ Hne' Hr)).
    unfold prediction_of. simpl. now apply String.eqb_neq.
  - destruct (summarizes self (ClassifyResponse.confidence cr) force_reprocess);
      [|reflexivity].
    destruct (received (summarize _ _ _)) as [sr|]; [|reflexivity].
    apply filter_upsert; try (intros r Hr; simpl; exact (eqb_other _ _ _ Hne' Hr)).
    unfold summary_of. simpl. now apply String.eqb_neq.
Qed.

(** X4. A run touches the rows of its own comment only: for any other
    comment id, the comment rows, processed rows, predictions and summaries
    with that id are the same after the run as before. *)
Theorem other_comments_are_untouched (self : CoordinatorAgent) (tools : Tools)
    (db : Store) (comment_id : string) (force_reprocess : bool)
    (other : string) :
  other <> comment_id ->
  let after := storage (process_comment self tools db comment_id force_reprocess) in
  List.filter (is_comment other) (comments_raw after)
    = List.filter (is_comment other) (comments_raw db)
  /\ List.filter (processed_of other) (comments_processed after)
     = List.filter (processed_of other) (comments_processed db)
  /\ List.filter (prediction_of other) (predictions after)
     = List.filter (prediction_of other) (predictions db)
  /\ List.filter (summary_of other) (summaries after)
     = List.filter (summary_of other) (summaries db).
Proof.
  intros Hne. exact (rows_of_another_comment self tools db comment_id
                       force_reprocess other Hne).
Qed.

(** X5. No run adds, removes or reorders comments, and none changes a
    comment's id, draft or raw text.  A successful run records the language
    and the masked text of the ingest answer on the comment's row. *)
Theorem comment_rows_keep_their_identity (self : CoordinatorAgent)
    (tools : Tools) (db : Store) (comment_id : string) (force_reprocess : bool) :
  let run := process_comment self tools db comment_id force_reprocess in
  let identity c :=
    (CommentRaw.id c, CommentRaw.draft_id c, CommentRaw.text_raw c) in
  map identity (comments_raw (storage run)) = map identity (comments_raw db)
  /\ forall confidence sentiment stance clauses,
       outcome run = success comment_id confidence sentiment stance clauses ->
       exists comment ir,
         first (is_comment comment_id) (comments_raw db) = Some comment
         /\ ingest tools (CommentRaw.text_raw comment) = Status200 ir
         /\ first (is_comment comment_id) (comments_raw (storage run))
            = Some (CommentRaw.mk (CommentRaw.id comment)
                      (CommentRaw.draft_id comment) (CommentRaw.text_raw comment)
                      (IngestResponse.language ir)
                      (Some (IngestResponse.pii_masked ir))).
Proof.
  cbv zeta.
  run_cases self tools db comment_id force_reprocess;
    try (simpl; split; [reflexivity | intros; discriminate]).
  destruct H as (_ & _ & _ & _ & _ & _ & _ & Hraw). rewrite Hraw. split.
  - now apply map_update_first.
  - intros _ _ _ _ _. exists comment, ir. split; [exact Hc|]. split.
    + destruct (ingest tools (CommentRaw.text_raw comment)); simpl in Hi;
        congruence.
    + apply (first_update_first (is_comment comment_id)
               (fun c => CommentRaw.mk (CommentRaw.id c) (CommentRaw.draft_id c)
                           (CommentRaw.text_raw c) (IngestResponse.language ir)
                           (Some (IngestResponse.pii_masked ir)))
               (comments_raw db) comment Hc).
      apply first_Some in Hc as [_ Hc]. exact Hc.
Qed.

(** The tables hold at most one processed row, one prediction and one
    summary for the comment. *)
Definition one_row_per_comment (db : Store) (comment_id : string) : Prop :=
  (count (processed_of comment_id) (comments_processed db) <= 1)%nat
  /\ (count (prediction_of comment_id) (predictions db) <= 1)%nat
  /\ (count (summary_of comment_id) (summaries db) <= 1)%nat.

(** X6. Processing again overwrites, it does not duplicate: if storage
    holds at most one processed row, one prediction and one summary for a
    comment, it still does after any run on any comment, forced or not; and
    after a successful run the processed comment has exactly one processed
    row and exactly one prediction. *)
Theorem reprocessing_does_not_duplicate_rows (self : CoordinatorAgent)
    (tools : Tools) (db : Store) (comment_id : string) (force_reprocess : bool)
    (cid : string) :
  one_row_per_comment db cid ->
  let run := process_comment self tools db comment_id force_reprocess in
  one_row_per_comment (storage run) cid
  /\ (forall confidence sentiment stance clauses,
        cid = comment_id ->
        outcome run = success comment_id confidence sentiment stance clauses ->
        count (processed_of cid) (comments_processed (storage run)) = 1%nat
        /\ count (prediction_of cid) (predictions (storage run)) = 1%nat).
Proof.
  intros Hone. cbv zeta.
  destruct (String.eqb_spec cid comment_id) as [-> | Hne].
  - destruct Hone as (Hp1 & Hp2 & Hp3).
    run_cases self tools db comment_id force_reprocess;
      try (simpl; split; [now repeat split | intros; discriminate]).
    destruct H as (_ & _ & _ & _ & Hpred & Hsum & Hproc & _).
    assert (Hproc' : count (processed_of comment_id)
                       (comments_processed
                          (storage (process_comment self tools db comment_id
                                      force_reprocess)))
                     = Nat.max 1 (count (processed_of comment_id)
                                    (comments_processed db))).
    { rewrite Hproc.
      destruct (first (processed_of comment_id) (comments_processed db)) eqn:E.
      - rewrite count_update_first by (intros r Hr; exact Hr).
        destruct (count (processed_of comment_id) (comments_processed db)) eqn:En;
          [|reflexivity].
        apply count_first_None in En. congruence.
      - apply count_first_None in E. unfold count in *.
        rewrite List.filter_app, length_app, E. simpl.
        unfold processed_of. simpl. now rewrite String.eqb_refl. }
    assert (Hpred' : count (prediction_of comment_id)
                       (predictions
                          (storage (process_comment self tools db comment_id
                                      force_reprocess)))
                     = Nat.max 1 (count (prediction_of comment_id)
                                    (predictions db))).
    { rewrite Hpred. apply count_upsert; [intros r Hr; exact Hr|].
      unfold prediction_of. simpl. apply String.eqb_refl. }
    assert (Hsum' : (count (summary_of comment_id)
                       (summaries
                          (storage (process_comment self tools db comment_id
                                      force_reprocess))) <= 1)%nat).
    { rewrite Hsum.
      destruct (summarizes self (ClassifyResponse.confidence cr) force_reprocess);
        [|exact Hp3].
      destruct (received (summarize _ _ _)) as [sr|]; [|exact Hp3].
      rewrite count_upsert; [lia | intros r Hr; exact Hr |].
      unfold summary_of. simpl. apply String.eqb_refl. }
    split; [split; [|split]; [lia | lia | exact Hsum'] |].
    intros _ _ _ _ _ _. lia.
  - destruct (rows_of_another_comment self tools db comment_id
                force_reprocess cid Hne) as (_ & H2 & H3 & H4).
    destruct Hone as (Hp1 & Hp2 & Hp3).
    split; [|intros ? ? ? ? Heq; now destruct Hne].
    unfold one_row_per_comment, count. now rewrite H2, H3, H4.
Qed.


Lemma summary_of_eq (comment_id : string) (s : Summary.t) :
  summary_of comment_id s = true <-> Summary.comment_id s = comment_id.
Proof. apply String.eqb_eq. Qed.

Lemma prediction_of_eq (comment_id : string) (p : Prediction.t) :
  prediction_of comment_id p = true <-> Prediction.comment_id p = comment_id.
Proof. apply String.eqb_eq. Qed.

Lemma received_Some {A : Type} (r : reply A) (json : A) :
  received r = Some json <-> r = Status200 json.
Proof.
  destruct r; simpl; split; intros H; try discriminate; congruence.
Qed.

(** X7. After a successful run the comment's processed row holds the
    normalized text of the ingest answer and the clause references the run
    returns.  Its embedding is the one of the ingest answer only when the
    row is new: a forced run on a comment that has a processed row keeps the
    embedding stored before. *)
Theorem reprocessing_keeps_the_stored_embedding (self : CoordinatorAgent)
    (tools : Tools) (db : Store) (comment_id : string) (force_reprocess : bool)
    (confidence : Q) (sentiment stance : string) (clauses : list string) :
  let run := process_comment self tools db comment_id force_reprocess in
  outcome run = success comment_id confidence sentiment stance clauses ->
  exists comment ir,
    first (is_comment comment_id) (comments_raw db) = Some comment
    /\ ingest tools (CommentRaw.text_raw comment) = Status200 ir
    /\ first (processed_of comment_id) (comments_processed (storage run))
       = Some (CommentProcessed.mk comment_id
                 (IngestResponse.normalized_text ir) clauses
                 (match first (processed_of comment_id) (comments_processed db)
                  with
                  | Some before => CommentProcessed.embedding before
                  | None => IngestResponse.embedding ir
                  end)).
Proof.
  cbv zeta. intros Hs.
  destruct (success_inv _ _ _ _ _ _ _ _ _ _ Hs)
    as (comment & ir & cr & Hc & Hgo & Hi & Hk & _ & _ & Hcl).
  destruct (run_classified self tools db comment_id force_reprocess comment
              ir cr Hc Hgo Hi Hk) as (_ & _ & _ & _ & _ & _ & Hproc & _).
  exists comment, ir. split; [exact Hc|]. split; [now apply received_Some|].
  rewrite Hproc, <- Hcl.
  destruct (first (processed_of comment_id) (comments_processed db))
    as [before|] eqn:E.
  - pose proof (proj2 (first_Some _ _ _ E)) as Hb. apply processed_of_eq in Hb.
    rewrite (first_update_first (processed_of comment_id)
               (fun p => CommentProcessed.mk (CommentProcessed.comment_id p)
                           (IngestResponse.normalized_text ir) clauses
                           (CommentProcessed.embedding p))
               (comments_processed db) before E).
    + now rewrite Hb.
    + unfold processed_of. simpl. rewrite Hb. apply String.eqb_refl.
  - apply first_app_new; [exact E|]. unfold processed_of. simpl.
    apply String.eqb_refl.
Qed.

(** X8. What a successful run returns is what it stored: the comment's
    prediction row, new or overwritten, holds the answer the classification
    service gave for the normalized text, and the confidence, sentiment
    label and stance of the returned outcome are the ones of that row. *)
Theorem outcome_is_the_stored_prediction (self : CoordinatorAgent)
    (tools : Tools) (db : Store) (comment_id : string) (force_reprocess : bool)
    (confidence : Q) (sentiment stance : string) (clauses : list string) :
  let run := process_comment self tools db comment_id force_reprocess in
  outcome run = success comment_id confidence sentiment stance clauses ->
  exists comment ir cr,
    first (is_comment comment_id) (comments_raw db) = Some comment
    /\ ingest tools (CommentRaw.text_raw comment) = Status200 ir
    /\ classify tools (IngestResponse.normalized_text ir)
         (IngestResponse.language ir) = Status200 cr
    /\ first (prediction_of comment_id) (predictions (storage run))
       = Some (prediction_row comment_id cr)
    /\ Prediction.confidence (prediction_row comment_id cr) = confidence
    /\ Prediction.sentiment_label (prediction_row comment_id cr) = sentiment
    /\ Prediction.stance (prediction_row comment_id cr) = stance.
Proof.
  cbv zeta. intros Hs.
  destruct (success_inv _ _ _ _ _ _ _ _ _ _ Hs)
    as (comment & ir & cr & Hc & Hgo & Hi & Hk & _).
  destruct (run_classified self tools db comment_id force_reprocess comment
              ir cr Hc Hgo Hi Hk) as (Ho & _ & _ & _ & Hpred & _).
  rewrite Ho in Hs. injection Hs as Hconf Hsent Hstance _.
  exists comment, ir, cr. split; [exact Hc|].
  split; [now apply received_Some|]. split; [now apply received_Some|].
  split; [|now repeat split].
  rewrite Hpred, first_upsert_value.
  - destruct (first (prediction_of comment_id) (predictions db)) as [x|] eqn:E;
      [|reflexivity].
    apply first_Some in E as [_ E]. apply prediction_of_eq in E. now rewrite E.
  - intros r Hr. exact Hr.
  - unfold prediction_of. simpl. apply String.eqb_refl.
Qed.

(** X9. When a successful run calls the summarization service and it
    answers, the comment's summary row, new or overwritten, holds that
    answer; when the run does not call it, the summaries are left as they
    were. *)
Theorem summary_row_is_the_service_answer (self : CoordinatorAgent)
    (tools : Tools) (db : Store) (comment_id : string) (force_reprocess : bool)
    (confidence : Q) (sentiment stance : string) (clauses : list string) :
  let run := process_comment self tools db comment_id force_reprocess in
  outcome run = success comment_id confidence sentiment stance clauses ->
  (forall text clause_ref sr,
     In (CallSummarize text clause_ref) (tool_calls run) ->
     summarize tools text clause_ref = Status200 sr ->
     first (summary_of comment_id) (summaries (storage run))
     = Some (summary_row comment_id sr))
  /\ ((forall text clause_ref,
         ~ In (CallSummarize text clause_ref) (tool_calls run)) ->
      summaries (storage run) = summaries db).
Proof.
  cbv zeta. intros Hs.
  destruct (success_inv _ _ _ _ _ _ _ _ _ _ Hs)
    as (comment & ir & cr & Hc & Hgo & Hi & Hk & _).
  destruct (run_classified self tools db comment_id force_reprocess comment
              ir cr Hc Hgo Hi Hk) as (_ & Hcalls & _ & _ & _ & Hsum & _).
  rewrite Hcalls, Hsum.
  destruct (summarizes self (ClassifyResponse.confidence cr) force_reprocess).
  - split.
    + intros text clause_ref sr Hin Hsr. simpl in Hin.
      destruct Hin as [Hin | [Hin | [Hin | [Hin | []]]]]; try discriminate.
      injection Hin as <- <-. apply received_Some in Hsr. rewrite Hsr.
      rewrite first_upsert_value.
      * destruct (first (summary_of comment_id) (summaries db)) as [x|] eqn:E;
          [|reflexivity].
        apply first_Some in E as [_ E]. apply summary_of_eq in E. now rewrite E.
      * intros r Hr. exact Hr.
      * unfold summary_of. simpl. apply String.eqb_refl.
    + intros Hno. exfalso. eapply Hno. simpl. do 3 right. left. reflexivity.
  - split; [|reflexivity].
    intros text clause_ref sr Hin _. simpl in Hin.
    destruct Hin as [Hin | [Hin | [Hin | []]]]; discriminate.
Qed.

End CoordinatorExtras.

(** * Further properties of the clause linker *)

Module LinkerExtras.
Import Text Re Score ClauseLinker.
Import LinkerFacts.

Local Open Scope Q_scope.

(** *** Lists of references *)

Lemma mem_In (x : string) (l : list string) : mem x l = true <-> In x l.
Proof.
  unfold mem. rewrite existsb_exists. split.
  - intros (y & Hy & E). apply String.eqb_eq in E. now subst.
  - intros H. exists x. split; [exact H | apply String.eqb_refl].
Qed.

Lemma mem_not_In (x : string) (l : list string) : mem x l = false <-> ~ In x l.
Proof.
  rewrite <- mem_In. destruct (mem x l); split; congruence.
Qed.

(** The mentions found so far are distinct and none is empty. *)
Definition distinct_mentions (l : list string) : Prop :=
  NoDup l /\ ~ In "" l.

Lemma add_mention_distinct (mentions : list string) (m : string) :
  distinct_mentions mentions -> distinct_mentions (add_mention mentions m).
Proof.
  intros [Hnd Hne]. unfold add_mention.
  destruct (String.eqb_spec (normalize_reference m) "") as [E | E]; simpl;
    [now split|].
  destruct (mem (normalize_reference m) mentions) eqn:M; simpl; [now split|].
  apply mem_not_In in M. split.
  - apply NoDup_app. split; [exact Hnd|]. split.
    + intros x Hx Hx'. apply list_elem_of_In in Hx.
      apply list_elem_of_singleton in Hx'. subst x. now apply M.
    + apply NoDup_singleton.
  - rewrite in_app_iff. simpl. intros [H | [H | []]]; [now apply Hne|].
    now apply E.
Qed.

Lemma foldl_invariant {A B : Type} (P : A -> Prop) (f : A -> B -> A)
    (l : list B) (a : A) :
  (forall a b, P a -> P (f a b)) -> P a -> P (foldl f a l).
Proof.
  intros Hf. revert a. induction l as [|b l IH]; intros a Ha; simpl;
    [exact Ha | apply IH, Hf, Ha].
Qed.

(** X10. The direct mentions found in a text are distinct and none of them
    is the empty string, whatever the patterns of the linker. *)
Theorem direct_mentions_are_distinct (self : Linker) (text : string) :
  NoDup (find_direct_mentions self text)
  /\ ~ In "" (find_direct_mentions self text).
Proof.
  unfold find_direct_mentions.
  apply (foldl_invariant distinct_mentions).
  - intros mentions p Hm. apply (foldl_invariant distinct_mentions).
    + intros a cs Ha. now apply add_mention_distinct.
    + exact Hm.
  - split; [apply NoDup_nil_2 | intros []].
Qed.


(** *** Texts without a digit *)











(** *** The semantic tier *)

Section Semantic.

Variable embedding_model : option (string -> option (list Q)).
Variable cosine_similarity : list Q -> list Q -> option Q.

(** The clause is stored with a non-empty embedding whose similarity with
    the query is [s], above the threshold. *)
Definition similar (self : Linker) (query_embedding : list Q)
    (clause : Clause.t) (s : Q) : Prop :=
  exists e, Clause.embedding clause = Some e /\ e <> []
            /\ cosine_similarity query_embedding e = Some s
            /\ similarity_threshold self < s.

Lemma semantic_scan_spec (self : Linker) (qe : list Q)
    (clauses : list Clause.t) (candidates : list ClauseCandidate) :
  semantic_scan cosine_similarity self qe clauses = Some candidates ->
  forall c, In c candidates <->
    exists clause s, In clause clauses /\ similar self qe clause s
                     /\ c = mk_candidate clause s semantic.
Proof.
  revert candidates. induction clauses as [|cl cls IH]; intros candidates; simpl.
  - intros [= <-] c. split; [intros [] | intros (? & ? & [] & _)].
  - destruct (Clause.embedding cl) as [[|x e]|] eqn:E.
    + intros H c. rewrite (IH _ H). split.
      * intros (clause & s & Hin & Hs & ->). exists clause, s. tauto.
      * intros (clause & s & [<- | Hin] & Hs & ->).
        -- destruct Hs as (e & He & Hne & _). congruence.
        -- now exists clause, s.
    + destruct (cosine_similarity qe (x :: e)) as [sim|] eqn:C; [|discriminate].
      destruct (semantic_scan cosine_similarity self qe cls) as [rest|];
        [|discriminate].
      intros [= <-] c. specialize (IH rest eq_refl).
      destruct (ltb (similarity_threshold self) sim) eqn:L.
      * apply ltb_lt in L. simpl. rewrite IH. split.
        -- intros [<- | (clause & s & Hin & Hs & ->)].
           ++ exists cl, sim. split; [now left|]. split; [|reflexivity].
              exists (x :: e). now repeat split.
           ++ exists clause, s. tauto.
        -- intros (clause & s & [<- | Hin] & Hs & ->).
           ++ left. destruct Hs as (e' & He & _ & Hc & _).
              rewrite E in He. injection He as <-. congruence.
           ++ right. now exists clause, s.
      * apply ltb_ge in L. rewrite IH. split.
        -- intros (clause & s & Hin & Hs & ->). exists clause, s. tauto.
        -- intros (clause & s & [<- | Hin] & Hs & ->).
           ++ destruct Hs as (e' & He & _ & Hc & Hlt).
              rewrite E in He. injection He as <-.
              rewrite C in Hc. injection Hc as <-.
              exfalso. eapply Qlt_not_le; eassumption.
           ++ now exists clause, s.
    + intros H c. rewrite (IH _ H). split.
      * intros (clause & s & Hin & Hs & ->). exists clause, s. tauto.
      * intros (clause & s & [<- | Hin] & Hs & ->).
        -- destruct Hs as (e & He & _). congruence.
        -- now exists clause, s.
Qed.

(** The scan raises only when a similarity does. *)
Lemma semantic_scan_total (self : Linker) (qe : list Q)
    (clauses : list Clause.t) :
  (forall clause e, In clause clauses -> Clause.embedding clause = Some e ->
     e <> [] -> is_Some (cosine_similarity qe e)) ->
  is_Some (semantic_scan cosine_similarity self qe clauses).
Proof.
  induction clauses as [|cl cls IH]; intros H; simpl; [now eexists|].
  assert (IH' : is_Some (semantic_scan cosine_similarity self qe cls)).
  { apply IH. intros clause e Hin. apply H. now right. }
  destruct (Clause.embedding cl) as [[|x e]|] eqn:E; try exact IH'.
  destruct (H cl (x :: e)) as [sim ->]; [now left | exact E | discriminate |].
  destruct IH' as [rest ->]. now eexists.
Qed.

Lemma semantic_search_sound (self : Linker) (query_text : string)
    (clauses : list Clause.t) (c : ClauseCandidate) :
  In c (semantic_similarity_search embedding_model cosine_similarity
          self query_text clauses) ->
  exists encode qe clause,
    embedding_model = Some encode /\ encode query_text = Some qe
    /\ In clause clauses /\ similar self qe clause (similarity_score c)
    /\ c = mk_candidate clause (similarity_score c) semantic.
Proof.
  unfold semantic_similarity_search.
  destruct embedding_model as [encode|]; [|intros []].
  destruct clauses as [|cl cls]; [intros []|].
  destruct (encode query_text) as [qe|] eqn:Q; [|intros []].
  destruct (semantic_scan cosine_similarity self qe (cl :: cls))
    as [candidates|] eqn:S; [|intros []].
  intros Hc. apply in_take in Hc.
  apply (Permutation_in _ (sort_desc_perm candidates)) in Hc.
  apply (semantic_scan_spec _ _ _ _ S) in Hc as (clause & s & Hin & Hs & ->).
  exists encode, qe, clause. now repeat split.
Qed.

End Semantic.

(** X11. What the semantic tier returns: at most [max_candidates]
    candidates, highest score first, each tagged [semantic] and built from
    a clause of the draft that is stored with a non-empty embedding and
    whose similarity with the embedding of the query exceeds the threshold
    of the linker; a clause without a stored embedding is never among them.
    When the model embeds the query and every similarity can be computed, a
    clause above the threshold is left out only when [max_candidates]
    candidates scoring at least as much are returned. *)
Theorem semantic_tier_candidates
    (embedding_model : option (string -> option (list Q)))
    (cosine_similarity : list Q -> list Q -> option Q)
    (self : Linker) (query_text : string) (clauses : list Clause.t) :
  let found := semantic_similarity_search embedding_model cosine_similarity
                 self query_text clauses in
  (length found <= max_candidates self)%nat
  /\ StronglySorted desc found
  /\ (forall c, In c found ->
        match_type c = semantic
        /\ exists encode qe clause,
             embedding_model = Some encode /\ encode query_text = Some qe
             /\ In clause clauses
             /\ similar cosine_similarity self qe clause (similarity_score c)
             /\ c = mk_candidate clause (similarity_score c) semantic)
  /\ (forall encode qe,
        embedding_model = Some encode -> encode query_text = Some qe ->
        (forall clause e, In clause clauses ->
           Clause.embedding clause = Some e -> e <> [] ->
           is_Some (cosine_similarity qe e)) ->
        forall clause s,
          In clause clauses -> similar cosine_similarity self qe clause s ->
          In (mk_candidate clause s semantic) found
          \/ (length found = max_candidates self
              /\ forall c, In c found -> s <= similarity_score c)).
Proof.
  cbv zeta. split; [|split; [|split]].
  - unfold semantic_similarity_search.
    destruct embedding_model as [encode|]; [|simpl; lia].
    destruct clauses as [|cl cls]; [simpl; lia|].
    destruct (encode query_text) as [qe|]; [|simpl; lia].
    destruct (semantic_scan cosine_similarity self qe (cl :: cls));
      [rewrite length_take; lia | simpl; lia].
  - unfold semantic_similarity_search.
    destruct embedding_model as [encode|]; [|constructor].
    destruct clauses as [|cl cls]; [constructor|].
    destruct (encode query_text) as [qe|]; [|constructor].
    destruct (semantic_scan cosine_similarity self qe (cl :: cls));
      [apply sorted_take, sort_desc_sorted | constructor].
  - intros c Hc.
    destruct (semantic_search_sound _ _ _ _ _ _ Hc)
      as (encode & qe & clause & Hm & Hq & Hin & Hs & Heq).
    split; [rewrite Heq; reflexivity|]. now exists encode, qe, clause.
  - intros encode qe Hm Hq Hcos clause s Hin Hs.
    unfold semantic_similarity_search. rewrite Hm.
    destruct clauses as [|cl cls]; [destruct Hin|]. rewrite Hq.
    destruct (semantic_scan_total cosine_similarity self qe (cl :: cls) Hcos)
      as [candidates S].
    rewrite S.
    set (n := max_candidates self).
    assert (Hx : In (mk_candidate clause s semantic) (sort_desc candidates)).
    { apply (Permutation_in _ (Permutation_sym (sort_desc_perm candidates))).
      apply (semantic_scan_spec _ _ _ _ _ S). now exists clause, s. }
    pose proof (sort_desc_sorted candidates) as Hsorted.
    rewrite <- (take_drop n (sort_desc candidates)) in Hx, Hsorted.
    apply in_app_or in Hx as [Hx | Hx]; [now left | right].
    split.
    + rewrite length_take.
      destruct (le_lt_dec (length (sort_desc candidates)) n) as [Hle | Hgt].
      * rewrite drop_ge in Hx by exact Hle. destruct Hx.
      * lia.
    + intros c Hc. exact (sorted_app_desc _ _ c _ Hsorted Hc Hx).
Qed.


(** *** The candidates of a response *)

Lemma add_refs_extends (refs l : list string) :
  exists k, foldl add_ref refs l = refs ++ k.
Proof.
  revert refs. induction l as [|x l IH]; intros refs; simpl.
  - exists []. now rewrite app_nil_r.
  - destruct (IH (add_ref refs x)) as [k ->]. unfold add_ref.
    destruct (mem x refs); [now exists k|].
    exists (x :: k). now rewrite <- app_assoc.
Qed.

Lemma add_refs_length (refs l : list string) :
  (length (foldl add_ref refs l) <= length refs + length l)%nat.
Proof.
  revert refs. induction l as [|x l IH]; intros refs; simpl; [lia|].
  specialize (IH (add_ref refs x)). unfold add_ref in *.
  destruct (mem x refs); [lia|]. rewrite length_app in IH. simpl in IH. lia.
Qed.

Lemma add_refs_NoDup (refs l : list string) :
  NoDup refs -> NoDup (foldl add_ref refs l).
Proof.
  revert refs. induction l as [|x l IH]; intros refs Hnd; simpl; [exact Hnd|].
  apply IH. unfold add_ref. destruct (mem x refs) eqn:M; [exact Hnd|].
  apply mem_not_In in M. apply NoDup_app. split; [exact Hnd|]. split.
  - intros y Hy Hy'. apply list_elem_of_In in Hy.
    apply list_elem_of_singleton in Hy'. subst y. now apply M.
  - apply NoDup_singleton.
Qed.

Lemma NoDup_take_refs (n : nat) (l : list string) :
  NoDup l -> NoDup (take n l).
Proof.
  intros H. rewrite <- (take_drop n l) in H. now apply NoDup_app in H as [H _].
Qed.

(** The references of the candidates, in order of first appearance. *)
Definition refs_of (l : list ClauseCandidate) : list string :=
  foldl add_ref [] (map clause_ref l).

Lemma refs_of_app (l1 l2 : list ClauseCandidate) :
  refs_of (l1 ++ l2) = foldl add_ref (refs_of l1) (map clause_ref l2).
Proof. unfold refs_of. now rewrite map_app, foldl_app. Qed.

(** The references of the first [n] candidates are among the first [n]
    references. *)
Lemma take_refs (n : nat) (l : list ClauseCandidate) (c : ClauseCandidate) :
  In c (take n l) -> In (clause_ref c) (take n (refs_of l)).
Proof.
  intros Hc. rewrite <- (take_drop n l) at 1. rewrite refs_of_app.
  destruct (add_refs_extends (refs_of (take n l)) (map clause_ref (drop n l)))
    as [k ->].
  assert (Hlen : (length (refs_of (take n l)) <= n)%nat).
  { unfold refs_of.
    pose proof (add_refs_length [] (map clause_ref (take n l))) as H.
    rewrite length_map, length_take in H. simpl in H. lia. }
  rewrite take_app_ge by exact Hlen. apply in_or_app. left.
  unfold refs_of. apply in_add_refs. right. now apply in_map.
Qed.

Section Response.

Variable embedding_model : option (string -> option (list Q)).
Variable cosine_similarity : list Q -> list Q -> option Q.

Abbreviation cascade_of :=
  (cascade embedding_model cosine_similarity).

(** The references kept are the references of the candidates kept. *)
Definition refs_kept (st : Cascade) : Prop :=
  final_clause_refs st = refs_of (all_candidates st).

Lemma extend_refs_kept (st : Cascade) (found : list ClauseCandidate)
    (t : Tier) :
  refs_kept st -> refs_kept (extend st found t).
Proof.
  unfold refs_kept, extend. simpl. intros ->. now rewrite refs_of_app.
Qed.

Lemma cascade_refs_kept (self : Linker) (text : string)
    (clauses : list Clause.t) :
  refs_kept (cascade_of self text clauses).
Proof.
  unfold cascade, fuzzy_step, semantic_step, exact_step.
  assert (H0 : refs_kept start) by reflexivity.
  assert (H1 : refs_kept
                 match find_direct_mentions self text with
                 | [] => start
                 | _ :: _ =>
                     extend start
                       (exact_candidates (find_direct_mentions self text) clauses)
                       ExactTier
                 end).
  { destruct (find_direct_mentions self text);
      [exact H0 | now apply extend_refs_kept]. }
  revert H1. generalize (match find_direct_mentions self text with
                         | [] => start
                         | _ :: _ =>
                             extend start
                               (exact_candidates (find_direct_mentions self text)
                                  clauses) ExactTier
                         end).
  intros st1 H1.
  assert (H2 : refs_kept
                 match all_candidates st1 with
                 | [] => extend st1
                           (semantic_similarity_search embedding_model
                              cosine_similarity self text clauses) SemanticTier
                 | _ :: _ => st1
                 end).
  { destruct (all_candidates st1); [now apply extend_refs_kept | exact H1]. }
  revert H2. generalize (match all_candidates st1 with
                         | [] => extend st1
                                   (semantic_similarity_search embedding_model
                                      cosine_similarity self text clauses)
                                   SemanticTier
                         | _ :: _ => st1
                         end).
  intros st2 H2.
  destruct (weak (all_candidates st2)); [now apply extend_refs_kept | exact H2].
Qed.

(** Where the candidates of a cascade come from. *)
Lemma cascade_candidates (self : Linker) (text : string)
    (clauses : list Clause.t) (c : ClauseCandidate) :
  In c (all_candidates (cascade_of self text clauses)) ->
  In c (exact_candidates (find_direct_mentions self text) clauses)
  \/ In c (semantic_similarity_search embedding_model cosine_similarity
             self text clauses)
  \/ In c (fuzzy_text_matching self text clauses).
Proof.
  unfold cascade, fuzzy_step, semantic_step, exact_step.
  destruct (find_direct_mentions self text) as [|m ms].
  - cbn [start all_candidates extend app].
    destruct (weak _); cbn [all_candidates extend]; rewrite ?in_app_iff; tauto.
  - cbn [start all_candidates extend app].
    destruct (exact_candidates (m :: ms) clauses) as [|x xs] eqn:E.
    + cbn [all_candidates extend app].
      destruct (weak _); cbn [all_candidates extend]; rewrite ?in_app_iff; tauto.
    + destruct (weak _); cbn [all_candidates extend]; rewrite ?in_app_iff;
        cbn [all_candidates start].
      * intros [[[] | H] | H]; tauto.
      * intros [[] | H]; tauto.
Qed.

(** A candidate is built from a clause of the draft. *)
Definition built_from (clauses : list Clause.t) (c : ClauseCandidate) : Prop :=
  exists clause, In clause clauses
                 /\ c = mk_candidate clause (similarity_score c) (match_type c).

Lemma cascade_built_from (self : Linker) (text : string)
    (clauses : list Clause.t) (c : ClauseCandidate) :
  In c (all_candidates (cascade_of self text clauses)) -> built_from clauses c.
Proof.
  intros Hc. apply cascade_candidates in Hc as [Hc | [Hc | Hc]].
  - apply in_exact_candidates in Hc as (m & cl & _ & Hcl & _ & ->).
    now exists cl.
  - apply semantic_search_sound in Hc
      as (encode & qe & clause & _ & _ & Hcl & _ & Heq).
    exists clause. split; [exact Hcl|]. rewrite Heq at 1. now rewrite Heq.
  - apply (proj1 (proj2 (proj2 (fuzzy_text_matching_spec self text clauses))))
      in Hc as (Hty & clause & Hcl & Heq & _).
    exists clause. split; [exact Hcl|]. now rewrite Hty.
Qed.

Variable database : string -> option (list Clause.t).

Abbreviation link :=
  (link_comment_to_clauses embedding_model cosine_similarity database).

(** The response is the empty one, or it is read off the cascade. *)
Lemma link_cases (self : Linker) (text draft_id : string) :
  let clauses := get_draft_clauses database draft_id in
  let st := cascade_of self text clauses in
  (clauses = [] /\ link self text draft_id = (empty_response, []))
  \/ (clauses <> []
      /\ link self text draft_id
         = ({| clause_candidates :=
                 take (max_candidates self) (final_clause_refs st);
               detailed_matches :=
                 take (max_candidates self) (all_candidates st);
               confidence := overall_confidence (all_candidates st) |},
            tiers st)).
Proof.
  cbv zeta. destruct (clauses_nil_or_not (get_draft_clauses database draft_id))
    as [E | E].
  - left. split; [exact E|]. unfold link_comment_to_clauses, link_body.
    now rewrite E.
  - right. split; [exact E|]. now apply link_response.
Qed.

Lemma response_structure (self : Linker) (text draft_id : string) :
  let response := fst (link self text draft_id) in
  let clauses := get_draft_clauses database draft_id in
  NoDup (clause_candidates response)
  /\ (length (clause_candidates response) <= max_candidates self)%nat
  /\ (length (detailed_matches response) <= max_candidates self)%nat
  /\ (forall ref, In ref (clause_candidates response) ->
        exists clause, In clause clauses /\ Clause.ref clause = ref)
  /\ (forall c, In c (detailed_matches response) ->
        In (clause_ref c) (clause_candidates response)
        /\ built_from clauses c).
Proof.
  cbv zeta.
  destruct (link_cases self text draft_id) as [[E ->] | [E ->]]; simpl.
  - split; [apply NoDup_nil_2|]. split; [lia|]. split; [lia|].
    split; intros ? [].
  - pose proof (cascade_refs_kept self text (get_draft_clauses database draft_id))
      as Hk.
    unfold refs_kept in Hk. rewrite Hk.
    split; [|split; [|split; [|split]]].
    + apply (NoDup_take_refs (max_candidates self)).
      apply add_refs_NoDup, NoDup_nil_2.
    + rewrite length_take. lia.
    + rewrite length_take. lia.
    + intros ref Href. apply in_take in Href. unfold refs_of in Href.
      apply in_add_refs in Href as [[] | Href].
      apply in_map_iff in Href as (c & <- & Hc).
      apply cascade_built_from in Hc as (clause & Hcl & ->).
      now exists clause.
    + intros c Hc. split; [now apply take_refs|].
      apply in_take in Hc. now apply cascade_built_from in Hc.
Qed.

End Response.

(** X12. The shape of every response of the linker: the clause references
    are distinct and at most [max_candidates], the detailed matches are at
    most [max_candidates], every reference returned is the reference of a
    clause of the draft, and every detailed match is built from a clause of
    the draft and its reference is among the references returned. *)
Theorem response_refers_to_the_draft
    (embedding_model : option (string -> option (list Q)))
    (cosine_similarity : list Q -> list Q -> option Q)
    (database : string -> option (list Clause.t))
    (self : Linker) (text draft_id : string) :
  let response :=
    fst (link_comment_to_clauses embedding_model cosine_similarity database
           self text draft_id) in
  let clauses := get_draft_clauses database draft_id in
  NoDup (clause_candidates response)
  /\ (length (clause_candidates response) <= max_candidates self)%nat
  /\ (length (detailed_matches response) <= max_candidates self)%nat
  /\ (forall ref, In ref (clause_candidates response) ->
        exists clause, In clause clauses /\ Clause.ref clause = ref)
  /\ (forall c, In c (detailed_matches response) ->
        In (clause_ref c) (clause_candidates response)
        /\ exists clause,
             In clause clauses
             /\ c = mk_candidate clause (similarity_score c) (match_type c)).
Proof.
  exact (response_structure embedding_model cosine_similarity database
           self text draft_id).
Qed.


(** *** The confidence of a response *)

Lemma refs_of_nil (l : list ClauseCandidate) : refs_of l = [] <-> l = [].
Proof.
  split; [|now intros ->]. destruct l as [|c l]; [reflexivity|].
  unfold refs_of. simpl.
  destruct (add_refs_extends (add_ref [] (clause_ref c)) (map clause_ref l))
    as [k ->].
  discriminate.
Qed.

Lemma take_nil_inv {A : Type} (n : nat) (l : list A) :
  (0 < n)%nat -> take n l = [] -> l = [].
Proof. destruct n, l; simpl; intros; (lia || congruence). Qed.

(** Every candidate of a cascade scores above 0.1 when the threshold of the
    semantic tier is at least 0.1. *)
Lemma cascade_scores
    (embedding_model : option (string -> option (list Q)))
    (cosine_similarity : list Q -> list Q -> option Q)
    (self : Linker) (text : string) (clauses : list Clause.t)
    (c : ClauseCandidate) :
  1 # 10 <= similarity_threshold self ->
  In c (all_candidates
          (cascade embedding_model cosine_similarity self text clauses)) ->
  1 # 10 < similarity_score c.
Proof.
  intros Hthr Hc. apply cascade_candidates in Hc as [Hc | [Hc | Hc]].
  - apply in_exact_candidates in Hc as (m & cl & _ & _ & _ & ->). reflexivity.
  - apply semantic_search_sound in Hc
      as (encode & qe & clause & _ & _ & _ & (e & _ & _ & _ & Hlt) & _).
    eapply Qle_lt_trans; eassumption.
  - apply (proj1 (proj2 (proj2 (fuzzy_text_matching_spec self text clauses))))
      in Hc as (_ & clause & _ & _ & _ & Hlt).
    exact Hlt.
Qed.

(** X13. The confidence of a response of the service's linker lies between
    0 and 1.  It is 0 exactly when the response names no clause, and then
    there are no detailed matches either; a response that names a clause
    has a confidence above 0.1. *)
Theorem confidence_tells_whether_a_clause_was_found
    (embedding_model : option (string -> option (list Q)))
    (cosine_similarity : list Q -> list Q -> option Q)
    (database : string -> option (list Clause.t))
    (text draft_id : string) :
  let response :=
    fst (link_comment_to_clauses embedding_model cosine_similarity database
           clause_linker text draft_id) in
  0 <= confidence response <= 1
  /\ (clause_candidates response = [] ->
        confidence response = 0 /\ detailed_matches response = [])
  /\ (clause_candidates response <> [] -> 1 # 10 < confidence response).
Proof.
  cbv zeta.
  destruct (link_cases embedding_model cosine_similarity database clause_linker
              text draft_id) as [[E ->] | [E ->]]; simpl.
  - split; [split; discriminate|]. split; [now split|]. congruence.
  - pose proof (cascade_refs_kept embedding_model cosine_similarity
                  clause_linker text (get_draft_clauses database draft_id)) as Hk.
    unfold refs_kept in Hk. rewrite Hk.
    pose proof (cascade_scores embedding_model cosine_similarity clause_linker
                  text (get_draft_clauses database draft_id)) as Hs.
    generalize dependent
      (all_candidates
         (cascade embedding_model cosine_similarity clause_linker text
            (get_draft_clauses database draft_id))).
    intros all _ Hs. unfold overall_confidence.
    destruct (max_score all) as [m|] eqn:M.
    + apply max_score_spec in M as (c & Hc & <- & _).
      assert (Hlt : 1 # 10 < similarity_score c).
      { apply Hs; [discriminate | exact Hc]. }
      assert (Hne : take 5 (refs_of all) <> []).
      { intros H. apply take_nil_inv in H; [|lia]. apply refs_of_nil in H.
        subst all. destruct Hc. }
      assert (Hmin : 1 # 10 < py_min (similarity_score c) 1
                     /\ py_min (similarity_score c) 1 <= 1).
      { destruct (py_min_cases (similarity_score c) 1) as [[H1 ->] | [H1 ->]].
        - now split.
        - split; [reflexivity | apply Qle_refl]. }
      destruct Hmin as [Hlo Hhi].
      split; [split; [|exact Hhi] |].
      * apply Qlt_le_weak. eapply Qlt_trans; [|exact Hlo]. reflexivity.
      * split; [intros H; now destruct Hne | intros _; exact Hlo].
    + apply max_score_none in M. subst all. simpl.
      split; [split; discriminate|]. split; [now split | congruence].
Qed.

(** *** The tiers a request goes through *)

Ltac not_among H :=
  simpl in H; repeat (destruct H as [H | H]; [discriminate|]); destruct H.

Lemma cascade_without_direct_match
    (embedding_model : option (string -> option (list Q)))
    (cosine_similarity : list Q -> list Q -> option Q)
    (self : Linker) (text : string) (clauses : list Clause.t) :
  exact_candidates (find_direct_mentions self text) clauses = [] ->
  let found := semantic_similarity_search embedding_model cosine_similarity
                 self text clauses in
  tiers (cascade embedding_model cosine_similarity self text clauses)
  = match find_direct_mentions self text with
    | [] => []
    | _ :: _ => [ExactTier]
    end ++ SemanticTier :: (if weak found then [FuzzyTier] else [])
  /\ all_candidates (cascade embedding_model cosine_similarity self text clauses)
     = found ++ (if weak found then fuzzy_text_matching self text clauses
                 else []).
Proof.
  intros E found. subst found. unfold cascade, fuzzy_step, semantic_step, exact_step.
  destruct (find_direct_mentions self text) as [|m ms].
  - cbn [start all_candidates extend app tiers].
    destruct (weak _); cbn [all_candidates extend tiers app];
      rewrite ?app_nil_r; now split.
  - rewrite E. cbn [start all_candidates extend app tiers].
    destruct (weak _); cbn [all_candidates extend tiers app];
      rewrite ?app_nil_r; now split.
Qed.

(** X14. The order of the tiers: a request enters the exact tier when the
    draft has clauses and the text holds a direct mention; it enters the
    semantic tier when, moreover, no clause matches a mention; it enters
    the fuzzy tier only after the semantic tier.  The tiers entered are
    always in the order exact, semantic, fuzzy. *)
Theorem tiers_are_entered_in_order
    (embedding_model : option (string -> option (list Q)))
    (cosine_similarity : list Q -> list Q -> option Q)
    (database : string -> option (list Clause.t))
    (self : Linker) (text draft_id : string) :
  let clauses := get_draft_clauses database draft_id in
  let mentions := find_direct_mentions self text in
  let entered :=
    snd (link_comment_to_clauses embedding_model cosine_similarity database
           self text draft_id) in
  (In ExactTier entered <-> clauses <> [] /\ mentions <> [])
  /\ (In SemanticTier entered <->
        clauses <> [] /\ exact_candidates mentions clauses = [])
  /\ (In FuzzyTier entered -> In SemanticTier entered)
  /\ entered `sublist_of` [ExactTier; SemanticTier; FuzzyTier].
Proof.
  cbv zeta.
  destruct (link_cases embedding_model cosine_similarity database self
              text draft_id) as [[E ->] | [E ->]]; cbn [snd].
  - split; [split; [intros [] | intros [H _]; congruence]|].
    split; [split; [intros [] | intros [H _]; congruence]|].
    split; [intros [] | apply sublist_nil_l].
  - destruct (exact_candidates (find_direct_mentions self text)
                (get_draft_clauses database draft_id)) as [|x xs] eqn:X.
    + destruct (cascade_without_direct_match embedding_model cosine_similarity
                  self text _ X) as [-> _].
      destruct (find_direct_mentions self text) as [|m ms];
        destruct (weak _); cbn [app].
      * split; [split; [intros H; not_among H | intros [_ H]; congruence]|].
        split; [split; [intros _; now split | intros _; simpl; tauto]|].
        split; [intros _; simpl; tauto|].
        apply sublist_cons, sublist_skip, sublist_skip, sublist_nil_l.
      * split; [split; [intros H; not_among H | intros [_ H]; congruence]|].
        split; [split; [intros _; now split | intros _; simpl; tauto]|].
        split; [intros H; not_among H|].
        apply sublist_cons, sublist_skip, sublist_nil_l.
      * split; [split; [intros _; split; [exact E | discriminate]
                       | intros _; now left]|].
        split; [split; [intros _; now split | intros _; simpl; tauto]|].
        split; [intros _; simpl; tauto|].
        apply sublist_skip, sublist_skip, sublist_skip, sublist_nil_l.
      * split; [split; [intros _; split; [exact E | discriminate]
                       | intros _; now left]|].
        split; [split; [intros _; now split | intros _; simpl; tauto]|].
        split; [intros H; not_among H|].
        apply sublist_skip, sublist_skip, sublist_nil_l.
    + assert (Hne : exact_candidates (find_direct_mentions self text)
                      (get_draft_clauses database draft_id) <> [])
        by (rewrite X; discriminate).
      rewrite (cascade_direct_match embedding_model cosine_similarity self text
                 _ Hne). cbn [tiers].
      assert (Hm : find_direct_mentions self text <> []).
      { intros Hm. rewrite Hm in X. discriminate. }
      split; [split; [intros _; now split | intros _; now left]|].
      split; [split; [intros H; not_among H | intros [_ H]; discriminate]|].
      split; [intros H; not_among H|].
      apply sublist_skip, sublist_nil_l.
Qed.



(** *** Word overlap *)

#[local] Set Warnings "-clear-no-such-hyp".

Lemma Zpos_of_nat (n : nat) : (0 < n)%nat -> Z.pos (Pos.of_nat n) = Z.of_nat n.
Proof.
  intros H. rewrite <- positive_nat_Z. f_equal. apply Nat2Pos.id. lia.
Qed.

Lemma jaccard_Some (A B : gset string) (j : Q) :
  jaccard A B = Some j ->
  (0 < size (A ∪ B))%nat
  /\ j = Z.of_nat (size (A ∩ B)) # Pos.of_nat (size (A ∪ B)).
Proof.
  unfold jaccard. destruct (0 <? size (A ∪ B))%nat eqn:E; [|discriminate].
  intros [= <-]. apply Nat.ltb_lt in E. now split.
Qed.

(** X16. The word overlap the fuzzy tier scores clauses with is symmetric
    and lies between 0 and 1; it is 1 exactly when the two texts have the
    same set of words and 0 exactly when they share none; it is undefined
    (and the clause is skipped) only when neither text has a word. *)
Theorem jaccard_similarity_bounds (query_words clause_words : gset string) :
  jaccard query_words clause_words = jaccard clause_words query_words
  /\ match jaccard query_words clause_words with
     | Some j =>
         0 <= j <= 1
         /\ (j == 1 <-> query_words = clause_words)
         /\ (j == 0 <-> query_words ## clause_words)
     | None => query_words = ∅ /\ clause_words = ∅
     end.
Proof.
  split.
  - unfold jaccard.
    assert (Hi : query_words ∩ clause_words = clause_words ∩ query_words)
      by set_solver.
    assert (Hu : query_words ∪ clause_words = clause_words ∪ query_words)
      by set_solver.
    now rewrite Hi, Hu.
  - destruct (jaccard query_words clause_words) as [j|] eqn:E.
    + apply jaccard_Some in E as [Hu ->].
      assert (Hsub : query_words ∩ clause_words ⊆ query_words ∪ clause_words)
        by set_solver.
      pose proof (subseteq_size _ _ Hsub) as Hle.
      unfold Qle, Qeq. simpl. rewrite (Zpos_of_nat _ Hu).
      split; [split; lia|]. split.
      * split.
        -- intros H.
           assert (Heq : query_words ∩ clause_words = query_words ∪ clause_words)
             by (apply set_subseteq_size_eq; [exact Hsub | lia]).
           apply set_eq. intros x. split; intros Hx.
           ++ assert (Hx' : x ∈ query_words ∩ clause_words)
                by (rewrite Heq; set_solver).
              set_solver.
           ++ assert (Hx' : x ∈ query_words ∩ clause_words)
                by (rewrite Heq; set_solver).
              set_solver.
        -- intros ->.
           assert (H1 : clause_words ∩ clause_words = clause_words) by set_solver.
           assert (H2 : clause_words ∪ clause_words = clause_words) by set_solver.
           rewrite H1, H2. lia.
      * rewrite disjoint_intersection_L. split.
        -- intros H. apply leibniz_equiv, size_empty_iff. lia.
        -- intros ->. rewrite size_empty. lia.
    + unfold jaccard in E.
      destruct (0 <? size (query_words ∪ clause_words))%nat eqn:U;
        [discriminate|].
      apply Nat.ltb_ge in U.
      assert (H0 : query_words ∪ clause_words = ∅).
      { apply leibniz_equiv, size_empty_iff. lia. }
      split; apply set_eq; intros x; set_solver.
Qed.


(** *** Direct matches *)

Lemma is_prefix_spec (a b : list ascii) :
  is_prefix a b = true <-> exists post, b = a ++ post.
Proof.
  revert b. induction a as [|x a IH]; intros b; simpl.
  - split; [intros _; now exists b | reflexivity].
  - destruct b as [|y b].
    + split; [discriminate | intros [post H]; discriminate].
    + rewrite andb_true_iff, IH. split.
      * intros [E [post ->]]. apply Ascii.eqb_eq in E. subst. now exists post.
      * intros [post [= -> ->]]. split; [apply Ascii.eqb_refl | now exists post].
Qed.

Lemma occurs_spec (a b : list ascii) :
  occurs a b = true <-> exists pre post, b = pre ++ a ++ post.
Proof.
  induction b as [|y b IH].
  - simpl. rewrite orb_false_r, is_prefix_spec. split.
    + intros [post H]. now exists [], post.
    + intros (pre & post & H). destruct pre; [now exists post|discriminate].
  - cbn [occurs]. rewrite orb_true_iff, is_prefix_spec, IH. split.
    + intros [[post H] | (pre & post & ->)].
      * now exists [], post.
      * now exists (y :: pre), post.
    + intros ([|z pre] & post & H).
      * left. now exists post.
      * right. injection H as -> ->. now exists pre, post.
Qed.



End LinkerExtras.

(** * Properties of the tool services *)

Module ToolFacts.
Import Text Score Coordinator Route.
Import LinkerFacts LinkerExtras.

Local Open Scope Q_scope.

(** *** Lengths of texts *)


Lemma length_chars (s : string) : length (chars s) = String.length s.
Proof. unfold chars. induction s as [|c s IH]; simpl; [reflexivity | now rewrite IH]. Qed.



Lemma eqb_empty (s : string) :
  String.eqb s "" = (String.length s <? 1)%nat.
Proof. now destruct s. Qed.

Lemma blank (text : string) :
  String.eqb text "" || (String.length (strip text) <? 1)%nat
  = String.eqb (strip text) "".
Proof.
  rewrite <- eqb_empty. destruct (String.eqb_spec text "") as [-> | _];
    reflexivity.
Qed.

(** *** The ingest route *)

Lemma process_text_answer (mask_text normalize : string -> string)
    (embedding_model : option (string -> option (list Q))) (text : string) :
  Ingest.process_text mask_text normalize embedding_model text
  = if String.eqb (strip text) "" then StatusOther 500
    else Status200
           (IngestResponse.mk (mask_text text) None
              (normalize (mask_text text))
              (Ingest.create_embedding embedding_model
                 (normalize (mask_text text)))
              (1 # 2)).
Proof.
  unfold Ingest.process_text. rewrite blank.
  now destruct (String.eqb (strip text) "").
Qed.



(** *** Keywords *)

Lemma contains_spec (a b : string) :
  contains a b = true <-> exists pre post, chars b = pre ++ chars a ++ post.
Proof. apply occurs_spec. Qed.

(** A text that holds a word holds the parts of the word. *)
Lemma contains_trans (a b c : string) :
  contains a b = true -> contains b c = true -> contains a c = true.
Proof.
  rewrite !contains_spec. intros (p1 & q1 & H1) (p2 & q2 & H2).
  exists (p2 ++ p1), (q1 ++ q2). rewrite H2, H1. now rewrite <- !app_assoc.
Qed.

Lemma count_present_pos (keywords : list string) (text : string) :
  (0 < count_present keywords text)%nat <->
  exists keyword, In keyword keywords /\ contains keyword text = true.
Proof.
  unfold count_present. split.
  - destruct (List.filter _ keywords) as [|w ws] eqn:E; simpl; [lia|].
    intros _. exists w.
    apply (proj1 (filter_In (fun word => contains word text) w keywords)).
    rewrite E. now left.
  - intros (w & Hin & Hc).
    assert (H : In w (List.filter (fun word => contains word text) keywords))
      by (apply filter_In; now split).
    destruct (List.filter _ keywords); [destruct H | simpl; lia].
Qed.

Lemma count_present_le_one (keywords : list string) (text : string)
    (only : string) :
  NoDup keywords ->
  (forall w, In w keywords -> w <> only -> contains w text = false) ->
  (count_present keywords text <= 1)%nat.
Proof.
  unfold count_present. induction keywords as [|w ws IH]; intros Hnd Hno;
    simpl; [lia|].
  apply NoDup_cons in Hnd as [Hw Hnd].
  destruct (String.eqb_spec w only) as [-> | Hne].
  - assert (H0 : List.filter (fun word => contains word text) ws = []).
    { clear IH. induction ws as [|v vs IHv]; simpl; [reflexivity|].
      apply NoDup_cons in Hnd as [_ Hnd].
      rewrite (Hno v).
      - apply IHv; [|exact Hnd|].
        + intros Hin. apply Hw. apply list_elem_of_In. right.
          now apply list_elem_of_In.
        + intros u Hu. apply Hno. destruct Hu as [<- | Hu]; [now left|].
          right. now right.
      - right. now left.
      - intros ->. apply Hw. apply list_elem_of_In. now left. }
    rewrite H0. destruct (contains only text); simpl; lia.
  - rewrite (Hno w) by (now left || exact Hne).
    apply IH; [exact Hnd|]. intros u Hu. apply Hno. now right.
Qed.

(** *** The stance classifier *)

(** The stance a sentiment label stands for. *)
Definition base_stance (sentiment_label : string) : string :=
  match dict_get String.eqb sentiment_label Classify.STANCE_LABELS with
  | Some stance => stance
  | None => "neutral"
  end.

Lemma base_stance_cases (sentiment_label : string) :
  (sentiment_label = "positive" /\ base_stance sentiment_label = "supports")
  \/ (sentiment_label = "negative" /\ base_stance sentiment_label = "opposes")
  \/ (sentiment_label <> "positive" /\ sentiment_label <> "negative"
      /\ base_stance sentiment_label = "neutral").
Proof.
  unfold base_stance, dict_get, Classify.STANCE_LABELS.
  cbn [List.find fst snd].
  destruct (String.eqb_spec "positive" sentiment_label) as [<- | H1];
    [now left|].
  destruct (String.eqb_spec "negative" sentiment_label) as [<- | H2];
    [right; now left|].
  right; right.
  destruct (String.eqb_spec "neutral" sentiment_label);
    (split; [congruence | split; [congruence | reflexivity]]).
Qed.

Lemma stance_predict_cases (sentiment_label text : string) :
  let support_count :=
    count_present Classify.support_keywords (lower text) in
  let oppose_count :=
    count_present Classify.oppose_keywords (lower text) in
  Classify.stance_predict sentiment_label text
  = if (oppose_count <? support_count)%nat then "supports"
    else if (support_count <? oppose_count)%nat then "opposes"
    else base_stance sentiment_label.
Proof.
  cbv zeta. unfold Classify.stance_predict. fold (base_stance sentiment_label).
  destruct (_ <? count_present Classify.support_keywords _)%nat eqn:E1.
  - apply Nat.ltb_lt in E1.
    assert (H : (0 <? count_present Classify.support_keywords (lower text))%nat
                = true) by (apply Nat.ltb_lt; lia).
    now rewrite H.
  - simpl.
    destruct (_ <? count_present Classify.oppose_keywords _)%nat eqn:E2;
      [|reflexivity].
    apply Nat.ltb_lt in E2.
    assert (H : (0 <? count_present Classify.oppose_keywords (lower text))%nat
                = true) by (apply Nat.ltb_lt; lia).
    now rewrite H.
Qed.

Lemma stance_range (sentiment_label text : string) :
  In (Classify.stance_predict sentiment_label text)
     ["supports"; "opposes"; "neutral"].
Proof.
  rewrite stance_predict_cases.
  destruct (_ <? _)%nat; [now left|].
  destruct (_ <? _)%nat; [right; now left|].
  destruct (base_stance_cases sentiment_label)
    as [[_ ->] | [[_ ->] | (_ & _ & ->)]]; simpl; tauto.
Qed.

(** The stance is one of [supports], [opposes] and [neutral].  The
    keywords decide it whenever one side has more of them in the text,
    whatever the sentiment; on a tie (in particular without any keyword)
    it is the stance of the sentiment label, and [neutral] for a label
    that is neither [positive] nor [negative]. *)
Lemma stance_follows_the_keyword_majority (sentiment_label text : string) :
  let support_count :=
    count_present Classify.support_keywords (lower text) in
  let oppose_count :=
    count_present Classify.oppose_keywords (lower text) in
  let stance := Classify.stance_predict sentiment_label text in
  In stance ["supports"; "opposes"; "neutral"]
  /\ ((oppose_count < support_count)%nat -> stance = "supports")
  /\ ((support_count < oppose_count)%nat -> stance = "opposes")
  /\ (support_count = oppose_count ->
      stance = (if String.eqb sentiment_label "positive" then "supports"
                else if String.eqb sentiment_label "negative" then "opposes"
                else "neutral")).
Proof.
  cbv zeta. rewrite stance_predict_cases.
  destruct (_ <? count_present Classify.support_keywords _)%nat eqn:E1.
  - apply Nat.ltb_lt in E1.
    split; [now left|]. split; [reflexivity|]. split; intros; lia.
  - apply Nat.ltb_ge in E1.
    destruct (_ <? count_present Classify.oppose_keywords _)%nat eqn:E2.
    + apply Nat.ltb_lt in E2.
      split; [right; now left|]. split; [intros; lia|].
      split; [reflexivity | intros; lia].
    + apply Nat.ltb_ge in E2.
      assert (Hbase : base_stance sentiment_label
                      = (if String.eqb sentiment_label "positive" then "supports"
                         else if String.eqb sentiment_label "negative"
                         then "opposes" else "neutral")).
      { destruct (base_stance_cases sentiment_label)
          as [[-> ->] | [[-> ->] | (H1 & H2 & ->)]]; try reflexivity.
        apply String.eqb_neq in H1, H2. now rewrite H1, H2. }
      split.
      * destruct (base_stance_cases sentiment_label)
          as [[_ ->] | [[_ ->] | (_ & _ & ->)]]; simpl; tauto.
      * split; [intros; lia|]. split; [intros; lia|]. intros _. exact Hbase.
Qed.

(** X19. The opposing keyword [disagree] never decides the stance: it
    holds the supporting keyword [agree], so a text whose only opposing
    keyword is [disagree] gets the stance [opposes] only from a negative
    sentiment label, never from the keyword. *)
Theorem disagree_alone_never_opposes (sentiment_label text : string) :
  contains "disagree" (lower text) = true ->
  (forall keyword, In keyword Classify.oppose_keywords ->
     keyword <> "disagree" -> contains keyword (lower text) = false) ->
  (Classify.stance_predict sentiment_label text = "supports"
   \/ Classify.stance_predict sentiment_label text = base_stance sentiment_label)
  /\ (Classify.stance_predict sentiment_label text = "opposes" ->
      sentiment_label = "negative").
Proof.
  intros Hdis Hno.
  assert (Hagree : contains "agree" (lower text) = true).
  { apply (contains_trans _ "disagree"); [reflexivity | exact Hdis]. }
  assert (Hs : (0 < count_present Classify.support_keywords (lower text))%nat).
  { apply count_present_pos. exists "agree". split; [|exact Hagree].
    unfold Classify.support_keywords. simpl. tauto. }
  assert (Ho : (count_present Classify.oppose_keywords (lower text) <= 1)%nat).
  { apply (count_present_le_one _ _ "disagree"); [|exact Hno].
    apply (bool_decide_unpack (NoDup Classify.oppose_keywords)).
    vm_compute. exact I. }
  rewrite stance_predict_cases.
  destruct (_ <? count_present Classify.support_keywords _)%nat eqn:E1.
  - split; [now left | discriminate].
  - apply Nat.ltb_ge in E1.
    destruct (_ <? count_present Classify.oppose_keywords _)%nat eqn:E2.
    + apply Nat.ltb_lt in E2. lia.
    + split; [now right|].
      destruct (base_stance_cases sentiment_label)
        as [[_ ->] | [[-> _] | (_ & _ & ->)]]; [discriminate | reflexivity |
                                                  discriminate].
Qed.


(** *** The aspect extractor *)

Definition mentioned (text : string) (item : string * list string) : bool :=
  (0 <? count_present (snd item) (lower text))%nat.

Lemma extract_from (text : string) (items : list (string * list string))
    (acc : list string) :
  foldl (fun detected_aspects (item : string * list string) =>
           let matches := count_present (snd item) (lower text) in
           if (0 <? matches)%nat then detected_aspects ++ [fst item]
           else detected_aspects)
        acc items
  = acc ++ map fst (List.filter (mentioned text) items).
Proof.
  revert acc. induction items as [|item items IH]; intros acc; simpl.
  - now rewrite app_nil_r.
  - rewrite IH. unfold mentioned at 2.
    destruct (0 <? count_present (snd item) (lower text))%nat; simpl;
      [now rewrite <- app_assoc | reflexivity].
Qed.

Lemma extract_filter (text : string) :
  Classify.extract text
  = map fst (List.filter (mentioned text) Classify.ASPECT_KEYWORDS).
Proof. unfold Classify.extract. now rewrite extract_from. Qed.

Lemma sublist_map_filter {A B : Type} (f : A -> B) (p : A -> bool)
    (l : list A) :
  map f (List.filter p l) `sublist_of` map f l.
Proof.
  induction l as [|x l IH]; simpl; [apply sublist_nil_l|].
  destruct (p x); simpl; [now apply sublist_skip | now apply sublist_cons].
Qed.

(** X20. The aspects detected in a text are aspects of the table, each at
    most once and in the order of the table; an aspect is detected exactly
    when one of its keywords occurs in the lower-cased text, as a word or
    inside a longer word. *)
Theorem aspects_are_the_mentioned_ones (text : string) :
  let detected := Classify.extract text in
  detected `sublist_of` map fst Classify.ASPECT_KEYWORDS
  /\ NoDup detected
  /\ forall aspect,
       In aspect detected <->
       exists keywords keyword,
         In (aspect, keywords) Classify.ASPECT_KEYWORDS
         /\ In keyword keywords
         /\ contains keyword (lower text) = true.
Proof.
  cbv zeta. rewrite extract_filter.
  pose proof (sublist_map_filter fst (mentioned text) Classify.ASPECT_KEYWORDS)
    as Hsub.
  split; [exact Hsub|]. split.
  - eapply sublist_NoDup; [|exact Hsub].
    apply (bool_decide_unpack (NoDup (map fst Classify.ASPECT_KEYWORDS))).
    vm_compute. exact I.
  - intros aspect. rewrite in_map_iff. split.
    + intros ([a keywords] & <- & Hin). apply filter_In in Hin as [Hin Hm].
      unfold mentioned in Hm. apply Nat.ltb_lt, count_present_pos in Hm
        as (keyword & Hk & Hc).
      now exists keywords, keyword.
    + intros (keywords & keyword & Hin & Hk & Hc).
      exists (aspect, keywords). split; [reflexivity|].
      apply filter_In. split; [exact Hin|].
      unfold mentioned. apply Nat.ltb_lt, count_present_pos. now exists keyword.
Qed.

(** *** The classification route *)

Lemma argmax_from_lt (probs : list Q) (best i : nat) (best_value : Q) :
  (best < i)%nat ->
  (Classify.argmax_from best best_value i probs < i + length probs)%nat.
Proof.
  revert best i best_value. induction probs as [|x probs IH];
    intros best i best_value Hlt; simpl; [lia|].
  destruct (ltb best_value x).
  - specialize (IH i (S i) x). lia.
  - specialize (IH best (S i) best_value). lia.
Qed.

Lemma argmax_lt (probs : list Q) (i : nat) :
  Classify.argmax probs = Some i -> (i < length probs)%nat.
Proof.
  destruct probs as [|x probs]; simpl; [discriminate|]. intros [= <-].
  pose proof (argmax_from_lt probs 0 1 x). lia.
Qed.

Section Classifier.

Variable model : option (string -> option (list Q)).
Variable one_minus : Q -> Q.
Variable around : Q -> Q * Q.

Lemma predict_Some (text : string) (result : Classify.Sentiment) :
  Classify.predict model one_minus text = Some result ->
  In (Classify.sentiment_label result) ["negative"; "neutral"; "positive"]
  /\ Classify.confidence result = Classify.sentiment_score result
  /\ exists probabilities_of probs i,
       model = Some probabilities_of
       /\ probabilities_of text = Some probs
       /\ Classify.argmax probs = Some i
       /\ probs !! i = Some (Classify.sentiment_score result).
Proof.
  unfold Classify.predict.
  destruct model as [probabilities_of|]; [|discriminate].
  destruct (probabilities_of text) as [probs|] eqn:P; [|discriminate].
  destruct (Classify.argmax probs) as [i|] eqn:A; [|discriminate].
  destruct (dict_get Nat.eqb i Classify.SENTIMENT_LABELS) as [label|] eqn:L;
    [|discriminate].
  destruct (probs !! i) as [score|] eqn:S; [|discriminate].
  destruct (probs !! 1%nat) as [neutral_prob|]; [|discriminate].
  intros [= <-]. simpl. split; [|split; [reflexivity|]].
  - unfold dict_get, Classify.SENTIMENT_LABELS in L.
    destruct i as [|[|[|i]]]; simpl in L; try discriminate;
      injection L as <-; simpl; tauto.
  - now exists probabilities_of, probs, i.
Qed.

Lemma confidence_interval_bounds (confidence : Q) :
  0 <= fst (Classify.calculate_confidence_interval around confidence)
  /\ snd (Classify.calculate_confidence_interval around confidence) <= 1.
Proof.
  unfold Classify.calculate_confidence_interval.
  destruct (around confidence) as [low high]. cbn [fst snd]. split.
  - apply py_max_ge_first.
  - destruct (py_min_cases 1 high) as [[_ ->] | [H ->]];
      [apply Qle_refl | now apply Qlt_le_weak].
Qed.

(** The text the classifiers work on. *)
Definition classified_text (request_text : string) : string :=
  if (5000 <? String.length (strip request_text))%nat
  then prefix 5000 (strip request_text) else strip request_text.

Lemma classify_text_answer (text : string) (language : option string) :
  Classify.classify_text model one_minus around text language
  = if String.eqb (strip text) "" then StatusOther 500
    else
      match Classify.predict model one_minus (classified_text text) with
      | None => StatusOther 500
      | Some result =>
          let interval :=
            Classify.calculate_confidence_interval around
              (Classify.confidence result) in
          Status200
            (ClassifyResponse.mk (Classify.sentiment_label result)
               (Classify.sentiment_score result)
               (Classify.sentiment_intensity result)
               (Classify.stance_predict (Classify.sentiment_label result)
                  (classified_text text))
               (Classify.extract (classified_text text))
               (Classify.confidence result) Classify.MODEL_VERSION
               (Some (fst interval)) (Some (snd interval)))
      end.
Proof.
  unfold Classify.classify_text. fold (classified_text text).
  destruct (String.eqb (strip text) ""); [reflexivity|].
  destruct (Classify.predict model one_minus (classified_text text));
    [|reflexivity].
  cbv zeta.
  now destruct (Classify.calculate_confidence_interval around _).
Qed.

Lemma classify_text_Status200 (text : string) (language : option string)
    (json : ClassifyResponse.t) :
  Classify.classify_text model one_minus around text language = Status200 json ->
  strip text <> ""
  /\ In (ClassifyResponse.sentiment_label json)
        ["negative"; "neutral"; "positive"]
  /\ In (ClassifyResponse.stance json) ["supports"; "opposes"; "neutral"]
  /\ ClassifyResponse.stance json
     = Classify.stance_predict (ClassifyResponse.sentiment_label json)
         (classified_text text)
  /\ ClassifyResponse.aspects json = Classify.extract (classified_text text)
  /\ ClassifyResponse.confidence json = ClassifyResponse.sentiment_score json
  /\ exists low high,
       ClassifyResponse.ci_low json = Some low
       /\ ClassifyResponse.ci_high json = Some high
       /\ 0 <= low /\ high <= 1.
Proof.
  rewrite classify_text_answer.
  destruct (String.eqb_spec (strip text) "") as [E | E]; [discriminate|].
  destruct (Classify.predict model one_minus (classified_text text))
    as [result|] eqn:P; [|discriminate].
  cbv zeta. intros [= <-]. simpl.
  destruct (predict_Some _ _ P) as (Hlabel & Hconf & _).
  split; [exact E|]. split; [exact Hlabel|].
  split; [apply stance_range|].
  split; [reflexivity|]. split; [reflexivity|]. split; [exact Hconf|].
  destruct (confidence_interval_bounds (Classify.confidence result)) as [Hl Hh].
  eexists _, _. now repeat split.
Qed.

End Classifier.


(** X21. The classification service answers with status 200 or with status
    500, never with the 400 its validation raises.  It answers 500 to a
    blank text and, when its model could not be loaded, to every text.  An
    answer with status 200 carries one of the three sentiment labels, one
    of the three stances, the score of the predicted label as its
    confidence, and a confidence interval cut to lie between 0 and 1. *)
Theorem classification_answers
    (model : option (string -> option (list Q))) (one_minus : Q -> Q)
    (around : Q -> Q * Q) (text : string) (language : option string) :
  let answer := Classify.classify_text model one_minus around text language in
  (answer = StatusOther 500 \/ exists json, answer = Status200 json)
  /\ (strip text = "" -> answer = StatusOther 500)
  /\ (model = None -> answer = StatusOther 500)
  /\ (forall json, answer = Status200 json ->
        In (ClassifyResponse.sentiment_label json)
           ["negative"; "neutral"; "positive"]
        /\ In (ClassifyResponse.stance json) ["supports"; "opposes"; "neutral"]
        /\ ClassifyResponse.confidence json
           = ClassifyResponse.sentiment_score json
        /\ exists low high,
             ClassifyResponse.ci_low json = Some low
             /\ ClassifyResponse.ci_high json = Some high
             /\ 0 <= low /\ high <= 1).
Proof.
  cbv zeta. split; [|split; [|split]].
  - rewrite classify_text_answer.
    destruct (String.eqb (strip text) ""); [now left|].
    destruct (Classify.predict model one_minus (classified_text text));
      [right; now eexists | now left].
  - intros E. rewrite classify_text_answer, E. reflexivity.
  - intros ->. rewrite classify_text_answer.
    now destruct (String.eqb (strip text) "").
  - intros json H.
    destruct (classify_text_Status200 _ _ _ _ _ _ H)
      as (_ & Hl & Hs & _ & _ & Hc & Hci).
    now repeat split.
Qed.

(** *** The summarization service *)


Section Summarizer.

Variable summarizer : option (string -> option string).






End Summarizer.



End ToolFacts.

(** * The pipeline over the four services *)

Module DeploymentFacts.
Import Text Score ClauseLinker Coordinator Route Deployment.
Import LinkerFacts CoordinatorFacts CoordinatorExtras LinkerExtras ToolFacts.

Local Open Scope Q_scope.

(** *** The link route *)

Lemma link_comment_answer
    (embedding_model : option (string -> option (list Q)))
    (cosine_similarity : list Q -> list Q -> option Q)
    (database : string -> option (list Clause.t)) (text draft_id : string) :
  LinkRoute.link_comment embedding_model cosine_similarity database
    text draft_id
  = if String.eqb (strip text) "" || String.eqb draft_id ""
    then StatusOther 500
    else Status200
           (fst (link_comment_to_clauses embedding_model cosine_similarity
                   database ClauseLinker.clause_linker (strip text) draft_id)).
Proof.
  unfold LinkRoute.link_comment. cbv zeta.
  destruct (String.eqb (strip text) ""); [reflexivity|].
  now destruct (String.eqb draft_id "").
Qed.


(** *** Runs of the coordinator over the services *)

(** X25. Over the four services, a comment whose raw text is empty or
    blank fails at the first step: the run ends with [ingest_failed] after
    the single ingest call, writes nothing and queues nothing. *)
Theorem blank_comment_fails_at_ingest (env : Environment)
    (self : CoordinatorAgent) (db : Store) (comment_id : string)
    (force_reprocess : bool) (comment : CommentRaw.t) :
  first (is_comment comment_id) (comments_raw db) = Some comment ->
  proceeds db comment force_reprocess ->
  strip (CommentRaw.text_raw comment) = "" ->
  process_comment self (services env) db comment_id force_reprocess
  = {| outcome := error comment_id "ingest_failed" "";
       storage := db;
       tool_calls := [CallIngest (CommentRaw.text_raw comment)];
       queued := [] |}.
Proof.
  intros Hc Hgo Hblank. apply run_ingest_failed; [exact Hc | exact Hgo |].
  cbn [services ingest]. rewrite process_text_answer, Hblank. reflexivity.
Qed.

(** What a successful run over the services went through. *)
Lemma services_success (env : Environment) (self : CoordinatorAgent)
    (db : Store) (comment_id : string) (force_reprocess : bool)
    (confidence : Q) (sentiment stance : string) (clauses : list string) :
  let run := process_comment self (services env) db comment_id force_reprocess in
  outcome run = success comment_id confidence sentiment stance clauses ->
  exists comment cr,
    let raw := CommentRaw.text_raw comment in
    let masked := mask_text env raw in
    let normalized := normalize env masked in
    let ir :=
      IngestResponse.mk masked None normalized
        (Ingest.create_embedding (ingest_embedding_model env) normalized)
        (1 # 2) in
    first (is_comment comment_id) (comments_raw db) = Some comment
    /\ proceeds db comment force_reprocess
    /\ strip raw <> ""
    /\ received (ingest (services env) raw) = Some ir
    /\ received (classify (services env) normalized None) = Some cr
    /\ confidence = ClassifyResponse.confidence cr
    /\ sentiment = ClassifyResponse.sentiment_label cr
    /\ stance = ClassifyResponse.stance cr
    /\ clauses = guesses (services env) masked (CommentRaw.draft_id comment).
Proof.
  cbv zeta. intros Hs.
  destruct (success_inv _ _ _ _ _ _ _ _ _ _ Hs)
    as (comment & ir & cr & Hc & Hgo & Hi & Hk & _ & _ & _).
  destruct (run_classified self (services env) db comment_id force_reprocess
              comment ir cr Hc Hgo Hi Hk) as (Ho & _).
  rewrite Ho in Hs. injection Hs as Hconf Hsent Hstance Hcl.
  cbn [services ingest] in Hi. rewrite process_text_answer in Hi.
  destruct (String.eqb_spec (strip (CommentRaw.text_raw comment)) "")
    as [E | E]; [discriminate|].
  injection Hi as <-. cbn [IngestResponse.normalized_text IngestResponse.language
                            IngestResponse.pii_masked] in *.
  exists comment, cr. split; [exact Hc|]. split; [exact Hgo|].
  split; [exact E|]. split.
  - cbn [services ingest]. rewrite process_text_answer.
    apply String.eqb_neq in E. now rewrite E.
  - now repeat split.
Qed.


(** X26. Over the four services, the clause references a successful run
    returns and stores are distinct, at most five, and each of them is the
    reference of a clause of the comment's draft. *)
Theorem stored_clauses_belong_to_the_draft (env : Environment)
    (self : CoordinatorAgent) (db : Store) (comment_id : string)
    (force_reprocess : bool) (confidence : Q) (sentiment stance : string)
    (clauses : list string) :
  let run := process_comment self (services env) db comment_id force_reprocess in
  outcome run = success comment_id confidence sentiment stance clauses ->
  exists comment,
    first (is_comment comment_id) (comments_raw db) = Some comment
    /\ NoDup clauses
    /\ (length clauses <= 5)%nat
    /\ forall ref, In ref clauses ->
         exists clause,
           In clause (get_draft_clauses (database env)
                        (CommentRaw.draft_id comment))
           /\ Clause.ref clause = ref.
Proof.
  cbv zeta. intros Hs.
  destruct (services_success env self db comment_id force_reprocess _ _ _ _ Hs)
    as (comment & cr & Hc & _ & _ & _ & _ & _ & _ & _ & ->).
  exists comment. split; [exact Hc|].
  unfold guesses. cbn [services clause_linker].
  rewrite link_comment_answer.
  destruct (String.eqb _ "" || String.eqb _ ""); cbn [received].
  - split; [apply NoDup_nil_2|]. split; [simpl; lia | intros ref []].
  - destruct (response_structure (linker_embedding_model env)
                (cosine_similarity env) (database env)
                ClauseLinker.clause_linker
                (strip (mask_text env (CommentRaw.text_raw comment)))
                (CommentRaw.draft_id comment)) as (Hnd & Hlen & _ & Hrefs & _).
    split; [exact Hnd|]. split; [exact Hlen | exact Hrefs].
Qed.

(** X27. Over the four services no language is ever detected: a successful
    run leaves the language of the comment empty, records the masked text
    on the comment's row, and asks the classifier about the normalized
    masked text without a language. *)
Theorem no_language_reaches_the_classifier (env : Environment)
    (self : CoordinatorAgent) (db : Store) (comment_id : string)
    (force_reprocess : bool) (confidence : Q) (sentiment stance : string)
    (clauses : list string) :
  let run := process_comment self (services env) db comment_id force_reprocess in
  outcome run = success comment_id confidence sentiment stance clauses ->
  exists comment,
    let masked := mask_text env (CommentRaw.text_raw comment) in
    first (is_comment comment_id) (comments_raw db) = Some comment
    /\ In (CallClassify (normalize env masked) None) (tool_calls run)
    /\ first (is_comment comment_id) (comments_raw (storage run))
       = Some (CommentRaw.mk (CommentRaw.id comment)
                 (CommentRaw.draft_id comment) (CommentRaw.text_raw comment)
                 None (Some masked)).
Proof.
  cbv zeta. intros Hs.
  destruct (services_success env self db comment_id force_reprocess _ _ _ _ Hs)
    as (comment & cr & Hc & Hgo & _ & Hi & Hk & _).
  destruct (run_classified self (services env) db comment_id force_reprocess
              comment _ cr Hc Hgo Hi Hk) as (_ & Hcalls & _ & _ & _ & _ & _ & Hraw).
  exists comment. split; [exact Hc|]. split.
  - rewrite Hcalls. cbn [IngestResponse.normalized_text IngestResponse.language].
    apply in_or_app. left. simpl. tauto.
  - rewrite Hraw.
    cbn [IngestResponse.language IngestResponse.pii_masked].
    apply (first_update_first (is_comment comment_id)
             (fun c => CommentRaw.mk (CommentRaw.id c) (CommentRaw.draft_id c)
                         (CommentRaw.text_raw c) None
                         (Some (mask_text env (CommentRaw.text_raw comment))))
             (comments_raw db) comment Hc).
    apply first_Some in Hc as [_ Hc]. exact Hc.
Qed.

(** X28. Over the four services, the sentiment of a successful run is one
    of [negative], [neutral] and [positive], its stance one of [supports],
    [opposes] and [neutral]; the prediction stored for the comment has the
    returned confidence, which is the score of the predicted label, and a
    confidence interval between 0 and 1. *)
Theorem stored_prediction_is_well_formed (env : Environment)
    (self : CoordinatorAgent) (db : Store) (comment_id : string)
    (force_reprocess : bool) (confidence : Q) (sentiment stance : string)
    (clauses : list string) :
  let run := process_comment self (services env) db comment_id force_reprocess in
  outcome run = success comment_id confidence sentiment stance clauses ->
  In sentiment ["negative"; "neutral"; "positive"]
  /\ In stance ["supports"; "opposes"; "neutral"]
  /\ exists row low high,
       first (prediction_of comment_id) (predictions (storage run)) = Some row
       /\ Prediction.sentiment_label row = sentiment
       /\ Prediction.stance row = stance
       /\ Prediction.confidence row = confidence
       /\ Prediction.sentiment_score row = confidence
       /\ Prediction.ci_low row = Some low
       /\ Prediction.ci_high row = Some high
       /\ 0 <= low /\ high <= 1.
Proof.
  cbv zeta. intros Hs.
  destruct (services_success env self db comment_id force_reprocess _ _ _ _ Hs)
    as (comment & cr & Hc & Hgo & _ & Hi & Hk & -> & -> & -> & _).
  destruct (run_classified self (services env) db comment_id force_reprocess
              comment _ cr Hc Hgo Hi Hk) as (_ & _ & _ & _ & Hpred & _).
  pose proof Hk as Hk'. apply received_Some in Hk'.
  cbn [services classify] in Hk'.
  destruct (classify_text_Status200 _ _ _ _ _ _ Hk')
    as (_ & Hl & Hst & _ & _ & Hconf & low & high & Hlo & Hhi & H0 & H1).
  split; [exact Hl|]. split; [exact Hst|].
  exists (prediction_row comment_id cr), low, high. split.
  - rewrite Hpred, first_upsert_value.
    + destruct (first (prediction_of comment_id) (predictions db)) as [x|] eqn:E;
        [|reflexivity].
      apply first_Some in E as [_ E]. apply prediction_of_eq in E. now rewrite E.
    + intros r Hr. exact Hr.
    + unfold prediction_of. simpl. apply String.eqb_refl.
  - cbn. now repeat split.
Qed.


End DeploymentFacts.

(** * The theorems at concrete inputs *)

Module Instances.
Import Text Score ClauseLinker Coordinator Route Deployment.
Import CoordinatorFacts CoordinatorExtras LinkerExtras ToolFacts DeploymentFacts.

Local Open Scope Q_scope.

Lemma ingest_failure_stops_the_run_witness :
  process_comment coordinator Installation.ingest_down Scenario.one_comment
    "c1" false
  = {| outcome := error "c1" "ingest_failed" "";
       storage := Scenario.one_comment;
       tool_calls := [CallIngest "The deadline in Rule 8(2) is too short"];
       queued := [] |}.
Proof.
  apply (ingest_failure_stops_the_run coordinator Installation.ingest_down
           Scenario.one_comment "c1" false Scenario.deadline_comment).
  - reflexivity.
  - left. reflexivity.
  - intros json. discriminate.
Defined.

Lemma other_comments_are_untouched_witness :
  let after :=
    storage (process_comment coordinator (Scenario.tools_up (9 # 10))
               Installation.two_comments "c1" false) in
  List.filter (is_comment "c2") (comments_raw after)
    = List.filter (is_comment "c2") (comments_raw Installation.two_comments)
  /\ List.filter (processed_of "c2") (comments_processed after)
     = List.filter (processed_of "c2")
         (comments_processed Installation.two_comments)
  /\ List.filter (prediction_of "c2") (predictions after)
     = List.filter (prediction_of "c2") (predictions Installation.two_comments)
  /\ List.filter (summary_of "c2") (summaries after)
     = List.filter (summary_of "c2") (summaries Installation.two_comments).
Proof.
  apply (other_comments_are_untouched coordinator (Scenario.tools_up (9 # 10))
           Installation.two_comments "c1" false "c2").
  discriminate.
Defined.

Lemma reprocessing_does_not_duplicate_rows_witness :
  let run := process_comment coordinator (Scenario.tools_up (9 # 10))
               Scenario.processed_comment "c1" true in
  one_row_per_comment (storage run) "c1"
  /\ (forall confidence sentiment stance clauses,
        "c1" = "c1" ->
        outcome run = success "c1" confidence sentiment stance clauses ->
        count (processed_of "c1") (comments_processed (storage run)) = 1%nat
        /\ count (prediction_of "c1") (predictions (storage run)) = 1%nat).
Proof.
  apply (reprocessing_does_not_duplicate_rows coordinator
           (Scenario.tools_up (9 # 10)) Scenario.processed_comment "c1" true
           "c1").
  unfold one_row_per_comment. vm_compute. repeat split; lia.
Defined.

Lemma reprocessing_keeps_the_stored_embedding_witness :
  let run := process_comment coordinator (Scenario.tools_up (9 # 10))
               Installation.embedded_comment "c1" true in
  exists comment ir,
    first (is_comment "c1") (comments_raw Installation.embedded_comment)
      = Some comment
    /\ ingest (Scenario.tools_up (9 # 10)) (CommentRaw.text_raw comment)
       = Status200 ir
    /\ first (processed_of "c1") (comments_processed (storage run))
       = Some (CommentProcessed.mk "c1"
                 (IngestResponse.normalized_text ir) ["Rule 8(2)"]
                 (match first (processed_of "c1")
                          (comments_processed Installation.embedded_comment)
                  with
                  | Some before => CommentProcessed.embedding before
                  | None => IngestResponse.embedding ir
                  end)).
Proof.
  apply (reprocessing_keeps_the_stored_embedding coordinator
           (Scenario.tools_up (9 # 10)) Installation.embedded_comment "c1" true
           (9 # 10) "negative" "oppose" ["Rule 8(2)"]).
  reflexivity.
Defined.

Lemma outcome_is_the_stored_prediction_witness :
  let run := process_comment coordinator (Scenario.tools_up (9 # 10))
               Scenario.one_comment "c1" false in
  exists comment ir cr,
    first (is_comment "c1") (comments_raw Scenario.one_comment) = Some comment
    /\ ingest (Scenario.tools_up (9 # 10)) (CommentRaw.text_raw comment)
       = Status200 ir
    /\ classify (Scenario.tools_up (9 # 10)) (IngestResponse.normalized_text ir)
         (IngestResponse.language ir) = Status200 cr
    /\ first (prediction_of "c1") (predictions (storage run))
       = Some (prediction_row "c1" cr)
    /\ Prediction.confidence (prediction_row "c1" cr) = 9 # 10
    /\ Prediction.sentiment_label (prediction_row "c1" cr) = "negative"
    /\ Prediction.stance (prediction_row "c1" cr) = "oppose".
Proof.
  apply (outcome_is_the_stored_prediction coordinator
           (Scenario.tools_up (9 # 10)) Scenario.one_comment "c1" false
           (9 # 10) "negative" "oppose" ["Rule 8(2)"]).
  reflexivity.
Defined.

Lemma summary_row_is_the_service_answer_witness :
  let run := process_comment coordinator (Scenario.tools_up (9 # 10))
               Scenario.one_comment "c1" false in
  (forall text clause_ref sr,
     In (CallSummarize text clause_ref) (tool_calls run) ->
     summarize (Scenario.tools_up (9 # 10)) text clause_ref = Status200 sr ->
     first (summary_of "c1") (summaries (storage run))
     = Some (summary_row "c1" sr))
  /\ ((forall text clause_ref,
         ~ In (CallSummarize text clause_ref) (tool_calls run)) ->
      summaries (storage run) = summaries Scenario.one_comment).
Proof.
  apply (summary_row_is_the_service_answer coordinator
           (Scenario.tools_up (9 # 10)) Scenario.one_comment "c1" false
           (9 # 10) "negative" "oppose" ["Rule 8(2)"]).
  reflexivity.
Defined.


Lemma disagree_alone_never_opposes_witness :
  (Classify.stance_predict "positive" "I disagree" = "supports"
   \/ Classify.stance_predict "positive" "I disagree" = base_stance "positive")
  /\ (Classify.stance_predict "positive" "I disagree" = "opposes" ->
      "positive" = "negative").
Proof.
  apply (disagree_alone_never_opposes "positive" "I disagree").
  - reflexivity.
  - intros keyword Hk Hne. unfold Classify.oppose_keywords in Hk.
    simpl in Hk.
    repeat (destruct Hk as [<- | Hk];
            [first [reflexivity | now destruct Hne]|]).
    destruct Hk.
Defined.


Lemma blank_comment_fails_at_ingest_witness :
  process_comment coordinator (services Installation.plain)
    Installation.one_blank_comment "c2" false
  = {| outcome := error "c2" "ingest_failed" "";
       storage := Installation.one_blank_comment;
       tool_calls := [CallIngest "   "];
       queued := [] |}.
Proof.
  apply (blank_comment_fails_at_ingest Installation.plain coordinator
           Installation.one_blank_comment "c2" false Installation.blank_comment).
  - reflexivity.
  - left. reflexivity.
  - reflexivity.
Defined.

Lemma stored_clauses_belong_to_the_draft_witness :
  exists comment,
    first (is_comment "c1") (comments_raw Scenario.one_comment) = Some comment
    /\ NoDup ["Section 8(2)(b)"; "Rule 8(2)"]
    /\ (length ["Section 8(2)(b)"; "Rule 8(2)"] <= 5)%nat
    /\ forall ref, In ref ["Section 8(2)(b)"; "Rule 8(2)"] ->
         exists clause,
           In clause (get_draft_clauses (database Installation.plain)
                        (CommentRaw.draft_id comment))
           /\ Clause.ref clause = ref.
Proof.
  apply (stored_clauses_belong_to_the_draft Installation.plain coordinator
           Scenario.one_comment "c1" false (7 # 10) "negative" "opposes"
           ["Section 8(2)(b)"; "Rule 8(2)"]).
  vm_compute. reflexivity.
Defined.

Lemma no_language_reaches_the_classifier_witness :
  let run := process_comment coordinator (services Installation.plain)
               Scenario.one_comment "c1" false in
  exists comment,
    let masked :=
      mask_text Installation.plain (CommentRaw.text_raw comment) in
    first (is_comment "c1") (comments_raw Scenario.one_comment) = Some comment
    /\ In (CallClassify (normalize Installation.plain masked) None)
          (tool_calls run)
    /\ first (is_comment "c1") (comments_raw (storage run))
       = Some (CommentRaw.mk (CommentRaw.id comment)
                 (CommentRaw.draft_id comment) (CommentRaw.text_raw comment)
                 None (Some masked)).
Proof.
  apply (no_language_reaches_the_classifier Installation.plain coordinator
           Scenario.one_comment "c1" false (7 # 10) "negative" "opposes"
           ["Section 8(2)(b)"; "Rule 8(2)"]).
  vm_compute. reflexivity.
Defined.

Lemma stored_prediction_is_well_formed_witness :
  let run := process_comment coordinator (services Installation.plain)
               Scenario.one_comment "c1" false in
  In "negative" ["negative"; "neutral"; "positive"]
  /\ In "opposes" ["supports"; "opposes"; "neutral"]
  /\ exists row low high,
       first (prediction_of "c1") (predictions (storage run)) = Some row
       /\ Prediction.sentiment_label row = "negative"
       /\ Prediction.stance row = "opposes"
       /\ Prediction.confidence row = 7 # 10
       /\ Prediction.sentiment_score row = 7 # 10
       /\ Prediction.ci_low row = Some low
       /\ Prediction.ci_high row = Some high
       /\ 0 <= low /\ high <= 1.
Proof.
  apply (stored_prediction_is_well_formed Installation.plain coordinator
           Scenario.one_comment "c1" false (7 # 10) "negative" "opposes"
           ["Section 8(2)(b)"; "Rule 8(2)"]).
  vm_compute. reflexivity.
Defined.


End Instances.
